(** * dom-to-pptx: the style-to-shape mapping engine, embedded in Rocq

    A shallow embedding of [src/utils.js] and [src/index.js].

    Conventions of the embedding.
    - A JavaScript string is a [string]: a sequence of 8-bit code units.
      Case mapping and white space are the ASCII ones (plus U+00A0); code
      points above U+00FF are outside the model.
    - A JavaScript number is a [number]: NaN, the two infinities, or an
      exact rational.  The rounding of IEEE doubles and the sign of zero
      are not modelled.  Results of [Math.sqrt] and [Math.atan2] live in
      [real], the same type over the real numbers.
    - [parseInt] yields an [intnum]: NaN or an exact integer.
    - A regular expression literal is a value of [Regex.re], run by a
      backtracking matcher that follows the ECMAScript semantics
      (priority of alternatives, greedy and lazy quantifiers, captures).
    - Code that can throw returns a [result]; code with side effects on
      the render queue and the slide is written in state-passing style.
      The engine awaits one call at a time, so that an [await] is the
      value it waits for.
    - What the browser and the libraries do (computed styles, boxes,
      rasterisation, the writer of the file) enters as data of the tree or
      as a parameter of the engine. *)

From Stdlib Require Import Bool Arith ZArith QArith Qabs Qround Qminmax Qreduction Lia List.
From Stdlib Require Import Ascii String.
From Stdlib Require Import Sorting.Sorted Sorting.Permutation.
From Stdlib Require Import Reals Lra Qreals.
Import ListNotations.

Local Set Warnings "-register-all".
Local Close Scope R_scope.
Local Close Scope Q_scope.
Local Open Scope nat_scope.
Local Open Scope string_scope.
Local Open Scope bool_scope.

(* ================================================================== *)
(** * Strings *)
(* ================================================================== *)

Module Str.

Definition code (c : ascii) : nat := nat_of_ascii c.

Definition is_digit (c : ascii) : bool := (48 <=? code c)%nat && (code c <=? 57)%nat.
Definition is_lower (c : ascii) : bool := (97 <=? code c)%nat && (code c <=? 122)%nat.
Definition is_upper (c : ascii) : bool := (65 <=? code c)%nat && (code c <=? 90)%nat.
Definition is_hex (c : ascii) : bool :=
  is_digit c
  || ((97 <=? code c)%nat && (code c <=? 102)%nat)
  || ((65 <=? code c)%nat && (code c <=? 70)%nat).

(** White space of [String.prototype.trim] and of the class [\s]:
    TAB, LF, VT, FF, CR, SPACE and NBSP. *)
Definition is_space (c : ascii) : bool :=
  match code c with
  | 9 | 10 | 11 | 12 | 13 | 32 | 160 => true
  | _ => false
  end.

(** Line terminators, which the class [.] does not match. *)
Definition is_newline (c : ascii) : bool :=
  match code c with
  | 10 | 13 => true
  | _ => false
  end.

Definition upper_char (c : ascii) : ascii :=
  if is_lower c then ascii_of_nat (code c - 32) else c.
Definition lower_char (c : ascii) : ascii :=
  if is_upper c then ascii_of_nat (code c + 32) else c.

Fixpoint map (f : ascii -> ascii) (s : string) : string :=
  match s with
  | EmptyString => EmptyString
  | String c s' => String (f c) (map f s')
  end.

Definition toUpperCase : string -> string := map upper_char.
Definition toLowerCase : string -> string := map lower_char.

(** [str.startsWith(p)] *)
Fixpoint startsWith (s p : string) : bool :=
  match p with
  | EmptyString => true
  | String a p' =>
      match s with
      | EmptyString => false
      | String b s' => Ascii.eqb a b && startsWith s' p'
      end
  end.

(** [str.includes(p)] *)
Fixpoint includes (s p : string) : bool :=
  startsWith s p ||
  match s with
  | EmptyString => false
  | String _ s' => includes s' p
  end.

(** [str.slice(n)] for a non-negative [n]. *)
Fixpoint drop (n : nat) (s : string) : string :=
  match n, s with
  | O, _ => s
  | S _, EmptyString => EmptyString
  | S n', String _ s' => drop n' s'
  end.

(** [str.slice(0, n)] for a non-negative [n]. *)
Fixpoint take (n : nat) (s : string) : string :=
  match n, s with
  | O, _ => EmptyString
  | S _, EmptyString => EmptyString
  | S n', String c s' => String c (take n' s')
  end.

Fixpoint rev_onto (s acc : string) : string :=
  match s with
  | EmptyString => acc
  | String c s' => rev_onto s' (String c acc)
  end.
Definition rev (s : string) : string := rev_onto s EmptyString.

Fixpoint trimStart (s : string) : string :=
  match s with
  | EmptyString => EmptyString
  | String c s' => if is_space c then trimStart s' else s
  end.
Definition trimEnd (s : string) : string := rev (trimStart (rev s)).
Definition trim (s : string) : string := trimEnd (trimStart s).

(** [str.split(sep)] for a one-character separator. *)
Fixpoint split_on (sep : ascii) (cur : string) (s : string) : list string :=
  match s with
  | EmptyString => [rev cur]
  | String c s' =>
      if Ascii.eqb c sep then rev cur :: split_on sep EmptyString s'
      else split_on sep (String c cur) s'
  end.
Definition split (s : string) (sep : ascii) : list string :=
  split_on sep EmptyString s.

(** [str.split('')] *)
Fixpoint chars (s : string) : list string :=
  match s with
  | EmptyString => []
  | String c s' => String c EmptyString :: chars s'
  end.

(** [arr.join('')] *)
Definition join (l : list string) : string := String.concat EmptyString l.

(** [arr.includes(x)] on an array of strings. *)
Definition mem (x : string) (l : list string) : bool :=
  existsb (String.eqb x) l.

(** A string in a boolean position: the empty string is falsy. *)
Definition truthy (s : string) : bool :=
  match s with EmptyString => false | _ => true end.

(** [a || b] on strings. *)
Definition or (a b : string) : string := if truthy a then a else b.

End Str.

(* ================================================================== *)
(** * Regular expressions *)
(* ================================================================== *)

(** The regular expression literals of the source are values of [re];
    [run] is the backtracking matcher of ECMAScript (RepeatMatcher and
    friends): the first alternative that lets the rest of the pattern
    succeed wins, a greedy quantifier tries one more iteration before it
    tries to stop, a lazy one the other way round. *)

Module Regex.

Inductive re : Type :=
| Eps                                               (* the empty pattern *)
| Chr (p : ascii -> bool)                           (* a character class *)
| Seq (r1 r2 : re)
| Alt (r1 r2 : re)                                  (* r1|r2 *)
| Rep (greedy : bool) (lo : nat) (hi : option nat) (r : re)  (* r{lo,hi} *)
| Grp (i : nat) (r : re)                            (* capture group i *)
| NegLook (r : re)                                  (* (?!r) *)
| Eoi.                                              (* $ *)

(** Derived forms. *)
Definition star (r : re) : re := Rep true 0 None r.        (* r*  *)
Definition lazy_star (r : re) : re := Rep false 0 None r.  (* r*? *)
Definition plus (r : re) : re := Rep true 1 None r.        (* r+  *)
Definition opt (r : re) : re := Rep true 0 (Some 1) r.     (* r?  *)

Definition chr (c : ascii) : re := Chr (Ascii.eqb c).
Fixpoint lit (s : string) : re :=
  match s with
  | EmptyString => Eps
  | String c EmptyString => chr c
  | String c s' => Seq (chr c) (lit s')
  end.

(** Character classes used by the source. *)
Definition digit : re := Chr Str.is_digit.                              (* \d *)
Definition space : re := Chr Str.is_space.                              (* \s *)
Definition dot : re := Chr (fun c => negb (Str.is_newline c)).          (* .  *)
Definition hexdigit : re := Chr Str.is_hex.                     (* [0-9a-fA-F] *)
Definition digit_or_dot : re :=                                     (* [\d\.] *)
  Chr (fun c => Str.is_digit c || Ascii.eqb c ".").
Definition not_chr (c : ascii) : re := Chr (fun d => negb (Ascii.eqb d c)).

(** Captures: the text of each group that took part in the match. *)
Definition caps : Type := list (nat * string).

Fixpoint group (i : nat) (c : caps) : option string :=
  match c with
  | [] => None
  | (j, s) :: c' => if Nat.eqb i j then Some s else group i c'
  end.

Fixpoint groups_of (r : re) : list nat :=
  match r with
  | Eps | Chr _ | Eoi => []
  | Seq r1 r2 | Alt r1 r2 => groups_of r1 ++ groups_of r2
  | Rep _ _ _ r' => groups_of r'
  | Grp i r' => i :: groups_of r'
  | NegLook r' => groups_of r'
  end.

(** A quantifier clears the captures of its body before each iteration. *)
Definition clear (gs : list nat) (c : caps) : caps :=
  filter (fun p => negb (existsb (Nat.eqb (fst p)) gs)) c.

Definition orelse {A} (x y : option A) : option A :=
  match x with Some _ => x | None => y end.

Definition pred_opt (hi : option nat) : option nat := option_map Nat.pred hi.

Definition state : Type := string * caps.
Definition cont : Type := string -> caps -> option state.
Definition done : cont := fun s c => Some (s, c).

(** RepeatMatcher, over the matcher of the body.  Every round either
    uses up one of the [lo] compulsory rounds or consumes input, so the
    [lo + length s + 1] rounds of fuel that [run] gives are never used
    up. *)
Fixpoint repeat (body : string -> caps -> cont -> option state) (k : cont)
    (greedy : bool) (fuel lo : nat) (hi : option nat) (s : string) (c : caps)
    {struct fuel} : option state :=
  match fuel with
  | O => None
  | S fuel' =>
      match hi with
      | Some O => k s c
      | _ =>
          let d : cont := fun s' c' =>
            if Nat.eqb lo 0 && Nat.eqb (String.length s') (String.length s)
            then None
            else repeat body k greedy fuel' (Nat.pred lo) (pred_opt hi) s' c' in
          let more := body s c d in
          if Nat.eqb lo 0
          then if greedy then orelse more (k s c) else orelse (k s c) more
          else more
      end
  end.

(** The matcher of a pattern: [k] is what the rest of the pattern does
    with the input that is left. *)
Fixpoint run (r : re) (s : string) (c : caps) (k : cont) {struct r} : option state :=
  match r with
  | Eps => k s c
  | Chr p =>
      match s with
      | String a s' => if p a then k s' c else None
      | EmptyString => None
      end
  | Seq r1 r2 => run r1 s c (fun s' c' => run r2 s' c' k)
  | Alt r1 r2 => orelse (run r1 s c k) (run r2 s c k)
  | Grp i r' =>
      run r' s c
        (fun s' c' => k s' ((i, Str.take (String.length s - String.length s') s) :: c'))
  | NegLook r' =>
      match run r' s c done with
      | Some _ => None
      | None => k s c
      end
  | Eoi => match s with EmptyString => k s c | _ => None end
  | Rep greedy lo hi r' =>
      repeat (fun s' c' d => run r' s' (clear (groups_of r') c') d) k greedy
        (lo + String.length s + 1) lo hi s c
  end.

(** The result of [RegExp.prototype.exec]: where the match starts, the
    matched text, the captures and the input after the match. *)
Record found : Type := {
  index : nat;
  matched : string;
  groups : caps;
  after : string
}.

(** Matching at the start of [s] only. *)
Definition exec_here (r : re) (pos : nat) (s : string) : option found :=
  match run r s [] done with
  | Some (rest, c) =>
      Some {| index := pos;
              matched := Str.take (String.length s - String.length rest) s;
              groups := c;
              after := rest |}
  | None => None
  end.

(** [str.match(re)] without the [g] flag: the leftmost match. *)
Fixpoint exec_from (r : re) (pos : nat) (s : string) : option found :=
  match exec_here r pos s with
  | Some f => Some f
  | None =>
      match s with
      | EmptyString => None
      | String _ s' => exec_from r (S pos) s'
      end
  end.
Definition exec (r : re) (s : string) : option found := exec_from r 0 s.

(** [str.match(re)] with the [g] flag: all matches, left to right. *)
Fixpoint match_all_from (fuel : nat) (r : re) (s : string) : list string :=
  match fuel with
  | O => []
  | S fuel' =>
      match exec r s with
      | None => []
      | Some f =>
          matched f ::
          match matched f, after f with
          | EmptyString, EmptyString => []
          | EmptyString, String _ s' => match_all_from fuel' r s'
          | _, s' => match_all_from fuel' r s'
          end
      end
  end.
Definition match_all (r : re) (s : string) : option (list string) :=
  match match_all_from (S (String.length s)) r s with
  | [] => None
  | l => Some l
  end.

(** [str.test(re)] *)
Definition test (r : re) (s : string) : bool :=
  match exec r s with Some _ => true | None => false end.

(** [str.split(re)] for a separator without capture groups. *)
Fixpoint split_from (fuel : nat) (r : re) (cur : string) (s : string) : list string :=
  match fuel with
  | O => [Str.rev cur ++ s]
  | S fuel' =>
      match s with
      | EmptyString => [Str.rev cur]
      | String a s' =>
          match run r s [] done with
          | Some (rest, _) =>
              if Nat.eqb (String.length rest) (String.length s)
                 && negb (Str.truthy cur)
              then split_from fuel' r (String a cur) s'
              else Str.rev cur :: split_from fuel' r EmptyString rest
          | None => split_from fuel' r (String a cur) s'
          end
      end
  end.
Definition split (r : re) (s : string) : list string :=
  match s with
  | EmptyString =>
      match run r s [] done with Some _ => [] | None => [EmptyString] end
  | _ => split_from (2 * String.length s + 1) r EmptyString s
  end.

(** [str.replace(re, by)] with the [g] flag, for a pattern that never
    matches the empty string and a replacement without [$] patterns. *)
Fixpoint replace_from (fuel : nat) (r : re) (by_ : string) (s : string) : string :=
  match fuel with
  | O => s
  | S fuel' =>
      match s with
      | EmptyString => EmptyString
      | String a s' =>
          match run r s [] done with
          | Some (rest, _) =>
              if Nat.eqb (String.length rest) (String.length s)
              then String a (replace_from fuel' r by_ s')
              else by_ ++ replace_from fuel' r by_ rest
          | None => String a (replace_from fuel' r by_ s')
          end
      end
  end.
Definition replace_all (r : re) (by_ : string) (s : string) : string :=
  replace_from (S (String.length s)) r by_ s.

(** A matcher is local when it hands to its continuation only input
    that is not longer than its own. *)
Definition local (body : string -> caps -> cont -> option state) : Prop :=
  forall s c k k',
    (forall s' c', String.length s' <= String.length s -> k s' c' = k' s' c') ->
    body s c k = body s c k'.

(** A matcher is inward when what it returns was returned by its
    continuation, on input that is not longer than its own. *)
Definition inward (body : string -> caps -> cont -> option state) : Prop :=
  forall s c k x,
    body s c k = Some x ->
    exists s' c', String.length s' <= String.length s /\ k s' c' = Some x.

(** The rounds that [split_from] has before it: two for each character
    that is left, one more while the piece at hand is not empty. *)
Definition split_rounds (cur s : string) : nat :=
  2 * String.length s + (if Str.truthy cur then 1 else 0).

End Regex.

(* ================================================================== *)
(** * Numbers *)
(* ================================================================== *)

Module Num.

(** A JavaScript number over a field of finite values. *)
Inductive ext (F : Type) : Type :=
| NaN
| NInf
| PInf
| Fin (x : F).
Arguments NaN {F}.
Arguments NInf {F}.
Arguments PInf {F}.
Arguments Fin {F} x.

Definition number : Type := ext Q.
Definition real : Type := ext R.

(** The values of [parseInt] and of integer arithmetic on them. *)
Inductive intnum : Type :=
| INaN
| Int (z : Z).

(** ** Rational numbers *)

Definition fin (q : Q) : number := Fin (Qred q).
Definition of_Z (z : Z) : number := Fin (inject_Z z).
Definition of_nat (n : nat) : number := of_Z (Z.of_nat n).
Definition zero : number := of_Z 0.
Definition one : number := of_Z 1.

Definition sign (q : Q) : comparison := Qcompare q 0.

Definition neg (a : number) : number :=
  match a with
  | NaN => NaN
  | NInf => PInf
  | PInf => NInf
  | Fin q => fin (Qopp q)
  end.

Definition add (a b : number) : number :=
  match a, b with
  | NaN, _ | _, NaN => NaN
  | PInf, NInf | NInf, PInf => NaN
  | PInf, _ | _, PInf => PInf
  | NInf, _ | _, NInf => NInf
  | Fin p, Fin q => fin (Qplus p q)
  end.

Definition sub (a b : number) : number := add a (neg b).

(** An infinity times a finite value: zero gives NaN. *)
Definition inf_times (positive : bool) (s : comparison) : number :=
  match s with
  | Eq => NaN
  | Gt => if positive then PInf else NInf
  | Lt => if positive then NInf else PInf
  end.

Definition mul (a b : number) : number :=
  match a, b with
  | NaN, _ | _, NaN => NaN
  | PInf, PInf | NInf, NInf => PInf
  | PInf, NInf | NInf, PInf => NInf
  | PInf, Fin q | Fin q, PInf => inf_times true (sign q)
  | NInf, Fin q | Fin q, NInf => inf_times false (sign q)
  | Fin p, Fin q => fin (Qmult p q)
  end.

(** Division; the zero of the model is the positive zero. *)
Definition div (a b : number) : number :=
  match a, b with
  | NaN, _ | _, NaN => NaN
  | (PInf | NInf), (PInf | NInf) => NaN
  | PInf, Fin q => match sign q with Lt => NInf | _ => PInf end
  | NInf, Fin q => match sign q with Lt => PInf | _ => NInf end
  | Fin _, (PInf | NInf) => zero
  | Fin p, Fin q =>
      match sign q with
      | Eq => match sign p with Eq => NaN | Gt => PInf | Lt => NInf end
      | _ => fin (Qdiv p q)
      end
  end.

(** [a < b]; every comparison with NaN is false. *)
Definition lt (a b : number) : bool :=
  match a, b with
  | NaN, _ | _, NaN => false
  | _, NInf => false
  | NInf, _ => true
  | PInf, _ => false
  | _, PInf => true
  | Fin p, Fin q => match Qcompare p q with Lt => true | _ => false end
  end.

(** [a === b] *)
Definition eq (a b : number) : bool :=
  match a, b with
  | NInf, NInf | PInf, PInf => true
  | Fin p, Fin q => Qeq_bool p q
  | _, _ => false
  end.

Definition le (a b : number) : bool := lt a b || eq a b.
Definition gt (a b : number) : bool := lt b a.
Definition ge (a b : number) : bool := le b a.

(** [Math.min(a, b)] *)
Definition min (a b : number) : number :=
  match a, b with
  | NaN, _ | _, NaN => NaN
  | _, _ => if lt b a then b else a
  end.

(** [Math.abs(a)] *)
Definition abs (a : number) : number :=
  match a with
  | NaN => NaN
  | NInf | PInf => PInf
  | Fin q => fin (Qabs q)
  end.

(** [Math.round(a)]: the nearest integer, halves upwards. *)
Definition round (a : number) : number :=
  match a with
  | Fin q => of_Z (Qfloor (Qplus q (1 # 2)))
  | _ => a
  end.

(** A number in a boolean position: NaN and zero are falsy. *)
Definition truthy (a : number) : bool :=
  match a with
  | NaN => false
  | Fin q => negb (Qeq_bool q 0)
  | _ => true
  end.

(** [a || b] on numbers. *)
Definition or (a b : number) : number := if truthy a then a else b.

(** ** Integers *)

Definition iadd (a b : intnum) : intnum :=
  match a, b with
  | Int x, Int y => Int (x + y)
  | _, _ => INaN
  end.

Definition isub (a b : intnum) : intnum :=
  match a, b with
  | Int x, Int y => Int (x - y)
  | _, _ => INaN
  end.

(** [a >= z] *)
Definition ige (a : intnum) (z : Z) : bool :=
  match a with
  | Int x => (z <=? x)%Z
  | INaN => false
  end.

(** [a !== b] *)
Definition ineq (a b : intnum) : bool :=
  match a, b with
  | Int x, Int y => negb (x =? y)%Z
  | _, _ => true
  end.

(** ToInt32: NaN becomes 0, an integer wraps into [-2^31, 2^31). *)
Definition toInt32 (a : intnum) : Z :=
  match a with
  | INaN => 0
  | Int z => ((z + 2 ^ 31) mod 2 ^ 32 - 2 ^ 31)%Z
  end.

(** [a << n] *)
Definition shl (a : intnum) (n : Z) : intnum :=
  Int (toInt32 (Int (Z.shiftl (toInt32 a) (Z.land n 31)))).

Definition to_number (a : intnum) : number :=
  match a with
  | INaN => NaN
  | Int z => of_Z z
  end.

End Num.

(** ** Real numbers: the results of [Math.sqrt] and [Math.atan2] *)

Module Real.
Import Num.

Definition of_number (a : number) : real :=
  match a with
  | NaN => NaN
  | NInf => NInf
  | PInf => PInf
  | Fin q => Fin (Q2R q)
  end.

Definition sign (r : R) : comparison :=
  if Rlt_dec 0 r then Gt else if Rlt_dec r 0 then Lt else Eq.

Definition add (a b : real) : real :=
  match a, b with
  | NaN, _ | _, NaN => NaN
  | PInf, NInf | NInf, PInf => NaN
  | PInf, _ | _, PInf => PInf
  | NInf, _ | _, NInf => NInf
  | Fin p, Fin q => Fin (p + q)%R
  end.

Definition inf_times (positive : bool) (s : comparison) : real :=
  match s with
  | Eq => NaN
  | Gt => if positive then PInf else NInf
  | Lt => if positive then NInf else PInf
  end.

Definition mul (a b : real) : real :=
  match a, b with
  | NaN, _ | _, NaN => NaN
  | PInf, PInf | NInf, NInf => PInf
  | PInf, NInf | NInf, PInf => NInf
  | PInf, Fin q | Fin q, PInf => inf_times true (sign q)
  | NInf, Fin q | Fin q, NInf => inf_times false (sign q)
  | Fin p, Fin q => Fin (p * q)%R
  end.

(** [a < b] *)
Definition lt (a b : real) : bool :=
  match a, b with
  | NaN, _ | _, NaN => false
  | _, NInf => false
  | NInf, _ => true
  | PInf, _ => false
  | _, PInf => true
  | Fin p, Fin q => if Rlt_dec p q then true else false
  end.

(** [Math.sqrt(a)] *)
Definition sqrt (a : real) : real :=
  match a with
  | NaN | NInf => NaN
  | PInf => PInf
  | Fin r => if Rlt_dec r 0 then NaN else Fin (R_sqrt.sqrt r)
  end.

(** [Math.PI] and the factor [180 / Math.PI]. *)
Definition PI : real := Fin Rtrigo1.PI.
Definition deg_per_rad : real := Fin (180 / Rtrigo1.PI)%R.

(** [Math.atan2(y, x)] on finite arguments. *)
Definition atan2_fin (y x : R) : R :=
  match sign x with
  | Gt => atan (y / x)
  | Eq =>
      match sign y with
      | Gt => Rtrigo1.PI / 2
      | Eq => 0
      | Lt => - (Rtrigo1.PI / 2)
      end
  | Lt =>
      match sign y with
      | Lt => atan (y / x) - Rtrigo1.PI
      | _ => atan (y / x) + Rtrigo1.PI
      end
  end%R.

(** [Math.atan2(y, x)] *)
Definition atan2 (y x : real) : real :=
  match y, x with
  | NaN, _ | _, NaN => NaN
  | Fin y, Fin x => Fin (atan2_fin y x)
  | Fin y, PInf => Fin 0%R
  | Fin y, NInf =>
      match sign y with Lt => Fin (- Rtrigo1.PI)%R | _ => Fin Rtrigo1.PI end
  | PInf, Fin _ => Fin (Rtrigo1.PI / 2)%R
  | NInf, Fin _ => Fin (- (Rtrigo1.PI / 2))%R
  | PInf, PInf => Fin (Rtrigo1.PI / 4)%R
  | NInf, PInf => Fin (- (Rtrigo1.PI / 4))%R
  | PInf, NInf => Fin (3 * Rtrigo1.PI / 4)%R
  | NInf, NInf => Fin (- (3 * Rtrigo1.PI / 4))%R
  end.

(** [Math.round(a)] *)
Definition round (a : real) : real :=
  match a with
  | Fin r => Fin (IZR (Zfloor (r + / 2)))
  | _ => a
  end.

End Real.

(* ================================================================== *)
(** * Global functions of the language *)
(* ================================================================== *)

Module Js.
Import Num.

(** Code that can throw. *)
Inductive result (A : Type) : Type :=
| Ok (a : A)
| Throw (error : string).
Arguments Ok {A} a.
Arguments Throw {A} error.

Definition bind {A B} (x : result A) (f : A -> result B) : result B :=
  match x with
  | Ok a => f a
  | Throw e => Throw e
  end.

Definition digit_val (c : ascii) : option Z :=
  if Str.is_digit c then Some (Z.of_nat (Str.code c - 48))
  else if Str.is_lower c then Some (Z.of_nat (Str.code c - 87))
  else if Str.is_upper c then Some (Z.of_nat (Str.code c - 55))
  else None.

(** The longest run of digits of the radix at the start of [s]: its value,
    its length and what follows it. *)
Fixpoint digits (radix : Z) (s : string) (acc : Z) (n : nat) : Z * nat * string :=
  match s with
  | EmptyString => (acc, n, s)
  | String c s' =>
      match digit_val c with
      | Some d =>
          if (d <? radix)%Z then digits radix s' (radix * acc + d)%Z (S n)
          else (acc, n, s)
      | None => (acc, n, s)
      end
  end.

Definition split_sign (s : string) : bool * string :=
  match s with
  | String "-" s' => (true, s')
  | String "+" s' => (false, s')
  | _ => (false, s)
  end.

Definition signed (negative : bool) (z : Z) : Z :=
  if negative then (- z)%Z else z.

(** The exponent part of a decimal literal, 0 when there is none. *)
Definition exponent (s : string) : Z :=
  match s with
  | String c s' =>
      if Ascii.eqb c "e" || Ascii.eqb c "E" then
        let '(negative, s'') := split_sign s' in
        let '(e, n, _) := digits 10 s'' 0%Z 0 in
        if Nat.eqb n 0 then 0%Z else signed negative e
      else 0%Z
  | EmptyString => 0%Z
  end.

(** [m * 10^e] *)
Definition scale10 (m e : Z) : Q :=
  if (0 <=? e)%Z then inject_Z (m * 10 ^ e)
  else Qmake m (Z.to_pos (10 ^ (- e))).

(** [parseFloat(str)]: leading white space, a sign, then [Infinity] or the
    longest decimal literal; NaN when there is none. *)
Definition parseFloat (str : string) : number :=
  let '(negative, s) := split_sign (Str.trimStart str) in
  if Str.startsWith s "Infinity" then (if negative then NInf else PInf)
  else
    let '(ip, ni, s1) := digits 10 s 0%Z 0 in
    let '(fp, nf, s2) :=
      match s1 with
      | String "." t => digits 10 t 0%Z 0
      | _ => (0%Z, 0, s1)
      end in
    if Nat.eqb (ni + nf) 0 then NaN
    else
      let m := (ip * 10 ^ Z.of_nat nf + fp)%Z in
      fin (scale10 (signed negative m) (exponent s2 - Z.of_nat nf)).

(** [parseInt(str)]: leading white space, a sign, an optional [0x], then
    the longest run of digits; NaN when there is none. *)
Definition parseInt (str : string) : intnum :=
  let '(negative, s) := split_sign (Str.trimStart str) in
  let '(radix, s) :=
    if Str.startsWith s "0x" || Str.startsWith s "0X"
    then (16%Z, Str.drop 2 s) else (10%Z, s) in
  let '(v, n, _) := digits radix s 0%Z 0 in
  if Nat.eqb n 0 then INaN else Int (signed negative v).

Definition digit_char (d : Z) : ascii :=
  if (d <? 10)%Z then ascii_of_nat (48 + Z.to_nat d)
  else ascii_of_nat (87 + Z.to_nat d).

Fixpoint digits_of (fuel : nat) (radix z : Z) (acc : string) : string :=
  match fuel with
  | O => acc
  | S fuel' =>
      let acc' := String (digit_char (z mod radix)) acc in
      if (z / radix =? 0)%Z then acc'
      else digits_of fuel' radix (z / radix) acc'
  end.

Definition Z_toString (radix z : Z) : string :=
  (if (z <? 0)%Z then "-" else "")
  ++ digits_of (S (Z.to_nat (Z.log2 (Z.abs z)))) radix (Z.abs z) "".

(** [n.toString(radix)] on the value of an integer expression. *)
Definition int_toString (radix : Z) (a : intnum) : string :=
  match a with
  | INaN => "NaN"
  | Int z => Z_toString radix z
  end.

End Js.

(* ================================================================== *)
(** * The rendered tree, as the engine reads it *)
(* ================================================================== *)

Module Dom.

(** The properties of [window.getComputedStyle(node)] that the engine
    reads, each as the string the browser serialises. *)
Record ComputedStyle : Type := {
  display : string;
  visibility : string;
  opacity : string;
  zIndex : string;
  transform : string;
  overflow : string;
  backgroundColor : string;
  backgroundImage : string;
  backgroundClip : string;
  webkitBackgroundClip : string;
  borderColor : string;
  borderWidth : string;
  borderRadius : string;
  boxShadow : string;
  filter : string;
  color : string;
  fontFamily : string;
  fontSize : string;
  fontWeight : string;
  fontStyle : string;
  textDecoration : string;
  textTransform : string;
  textAlign : string;
  alignItems : string;
  justifyContent : string;
  paddingTop : string;
  paddingRight : string;
  paddingBottom : string;
  paddingLeft : string
}.

(** [node.getBoundingClientRect()], in viewport pixels. *)
Record DOMRect : Type := {
  x : Q;
  y : Q;
  width : Q;
  height : Q
}.
Definition left (r : DOMRect) : Q := Qmin (x r) (x r + width r).
Definition top (r : DOMRect) : Q := Qmin (y r) (y r + height r).

(** What the engine reads of an element itself.  [offsetWidth] and
    [offsetHeight] are integers, and undefined outside HTML elements;
    [parentStyle] is the computed style of [node.parentElement], absent
    when there is no parent element. *)
Record ElementInfo : Type := {
  nodeName : string;
  style : ComputedStyle;
  rect : DOMRect;
  offsetWidth : option Z;
  offsetHeight : option Z;
  src : string;
  parentStyle : option ComputedStyle
}.

(** A node with its [childNodes]. *)
Inductive Node : Type :=
| Text (nodeValue : string)                          (* nodeType 3 *)
| Comment (nodeValue : string)                       (* nodeType 8 *)
| Elem (el : ElementInfo) (childNodes : list Node).  (* nodeType 1 *)

Definition nodeType (n : Node) : nat :=
  match n with
  | Text _ => 3
  | Comment _ => 8
  | Elem _ _ => 1
  end.

(** [el.tagName] is [el.nodeName]. *)
Definition tagName (el : ElementInfo) : string := nodeName el.

(** The text of the text nodes below an element, in document order. *)
Fixpoint descendantText (n : Node) : string :=
  match n with
  | Text v => v
  | Comment _ => ""
  | Elem _ kids =>
      (fix all (l : list Node) : string :=
         match l with
         | [] => ""
         | k :: l' => descendantText k ++ all l'
         end) kids
  end.

(** [node.textContent] *)
Definition textContent (n : Node) : string :=
  match n with
  | Comment v => v
  | _ => descendantText n
  end.

Definition childNodes_of (n : Node) : list Node :=
  match n with
  | Elem _ kids => kids
  | _ => []
  end.

Definition is_element (n : Node) : bool :=
  match n with Elem _ _ => true | _ => false end.

(** [node.children]: the element children. *)
Definition children (n : Node) : list Node :=
  List.filter is_element (childNodes_of n).

(** A property of every element of a tree. *)
Fixpoint everyElement (p : ElementInfo -> bool) (n : Node) : bool :=
  match n with
  | Elem info kids =>
      p info
      && (fix all (l : list Node) : bool :=
            match l with
            | [] => true
            | k :: l' => everyElement p k && all l'
            end) kids
  | _ => true
  end.

(** Induction on a tree, with the property at hand for every child. *)
Fixpoint Node_tree_ind (P : Node -> Prop)
    (text : forall v, P (Text v))
    (comment : forall v, P (Comment v))
    (elem : forall info kids, Forall P kids -> P (Elem info kids))
    (n : Node) {struct n} : P n :=
  match n with
  | Text v => text v
  | Comment v => comment v
  | Elem info kids =>
      elem info kids
        ((fix all (l : list Node) : Forall P l :=
            match l with
            | [] => Forall_nil P
            | k :: l' =>
                Forall_cons k (Node_tree_ind P text comment elem k) (all l')
            end) kids)
  end.

End Dom.

(* ================================================================== *)
(** * src/utils.js *)
(* ================================================================== *)

Module Utils.
Import Num Js Dom.

(** ** Regular expression literals of the file *)

(** utils.js:12 and 204, with the flag g: a run of digits and dots. *)
Definition re_numbers : Regex.re := Regex.plus Regex.digit_or_dot.

(** utils.js:29: a hash sign and one or two groups of three hex digits. *)
Definition re_hex_color : Regex.re :=
  Regex.Seq (Regex.chr "#")
    (Regex.Rep true 1 (Some 2)
       (Regex.Seq Regex.hexdigit (Regex.Seq Regex.hexdigit Regex.hexdigit))).

(** utils.js:32: rgb or rgba, an opening parenthesis, and lazily up to
    the first closing one. *)
Definition re_rgb_color : Regex.re :=
  Regex.Seq (Regex.lit "rgb")
    (Regex.Seq (Regex.opt (Regex.chr "a"))
       (Regex.Seq (Regex.chr "(")
          (Regex.Seq (Regex.lazy_star Regex.dot) (Regex.chr ")")))).

(** utils.js:50: the blur function with its length in px as group 1. *)
Definition re_blur : Regex.re :=
  Regex.Seq (Regex.lit "blur(")
    (Regex.Seq (Regex.Grp 1 (Regex.plus Regex.digit_or_dot)) (Regex.lit "px)")).

(** utils.js:69, with the flag g: a single or a double quote. *)
Definition re_quote : Regex.re :=
  Regex.Chr (fun c => Ascii.eqb c "'" || Ascii.eqb c (ascii_of_nat 34)).

(** utils.js:154 and 186: a comma, unless a closing parenthesis follows
    it with no opening one in between (negative lookahead). *)
Definition re_comma : Regex.re :=
  Regex.Seq (Regex.chr ",")
    (Regex.NegLook
       (Regex.Seq (Regex.star (Regex.not_chr "(")) (Regex.chr ")"))).

(** utils.js:158: group 1 is an rgb/rgba function or a hash colour, then
    white space and three lengths in px: groups 2 and 3 with an optional
    minus sign, group 4 without. *)
Definition re_shadow : Regex.re :=
  let colour :=
    Regex.Alt
      (Regex.Seq (Regex.lit "rgb")
         (Regex.Seq (Regex.opt (Regex.chr "a"))
            (Regex.Seq (Regex.chr "(")
               (Regex.Seq (Regex.plus (Regex.not_chr ")")) (Regex.chr ")")))))
      (Regex.Seq (Regex.chr "#") (Regex.plus Regex.hexdigit)) in
  let signed_px (i : nat) :=
    Regex.Seq
      (Regex.Grp i
         (Regex.Seq (Regex.opt (Regex.chr "-")) (Regex.plus Regex.digit_or_dot)))
      (Regex.lit "px") in
  Regex.Seq (Regex.Grp 1 colour)
    (Regex.Seq (Regex.plus Regex.space)
       (Regex.Seq (signed_px 2)
          (Regex.Seq (Regex.plus Regex.space)
             (Regex.Seq (signed_px 3)
                (Regex.Seq (Regex.plus Regex.space)
                   (Regex.Seq (Regex.Grp 4 (Regex.plus Regex.digit_or_dot))
                      (Regex.lit "px"))))))).

(** utils.js:183: the function name, and greedily as group 1 what lies
    between its parenthesis and the last closing one of the line. *)
Definition re_linear_gradient : Regex.re :=
  Regex.Seq (Regex.lit "linear-gradient(")
    (Regex.Seq (Regex.Grp 1 (Regex.star Regex.dot)) (Regex.chr ")")).

(** utils.js:200: lazily group 1, white space, and as group 2 at the end
    of the input a number with an optional fraction (group 3) and an
    optional percent sign. *)
Definition re_stop_position : Regex.re :=
  Regex.Seq (Regex.Grp 1 (Regex.lazy_star Regex.dot))
    (Regex.Seq (Regex.plus Regex.space)
       (Regex.Seq
          (Regex.Grp 2
             (Regex.Seq (Regex.plus Regex.digit)
                (Regex.Seq
                   (Regex.opt
                      (Regex.Grp 3 (Regex.Seq (Regex.chr ".") (Regex.plus Regex.digit))))
                   (Regex.opt (Regex.chr "%")))))
          Regex.Eoi)).

(** A capture of a match; the groups read by the source always take part
    in the match. *)
Definition capture (i : nat) (f : Regex.found) : string :=
  match Regex.group i (Regex.groups f) with
  | Some s => s
  | None => ""
  end.

(** ** parseColor *)

Record Color : Type := {
  hex : option string;
  alpha : number                       (* the field [opacity] *)
}.

(** [c.hex] or else the text 000000. *)
Definition hex_or_black (c : Color) : string :=
  match hex c with
  | Some h => Str.or h "000000"
  | None => "000000"
  end.

(** [c.hex] in a boolean position. *)
Definition has_hex (c : Color) : bool :=
  match hex c with
  | Some h => Str.truthy h
  | None => false
  end.

Definition parseColor (str : string) : Color :=
  if negb (Str.truthy str) || String.eqb str "transparent"
     || Str.startsWith str "rgba(0, 0, 0, 0)"
  then {| hex := None; alpha := zero |}
  else if Str.startsWith str "#" then
    let hex := Str.drop 1 str in
    let hex :=
      if Nat.eqb (String.length hex) 3
      then Str.join (List.map (fun c => c ++ c) (Str.chars hex))
      else hex in
    {| hex := Some (Str.toUpperCase hex); alpha := one |}
  else
    match Regex.match_all re_numbers str with
    | Some (m0 :: m1 :: m2 :: rest) =>
        let r := parseInt m0 in
        let g := parseInt m1 in
        let b := parseInt m2 in
        let a := match rest with m3 :: _ => parseFloat m3 | [] => one end in
        let hex :=
          Str.toUpperCase
            (Str.drop 1
               (int_toString 16
                  (iadd (iadd (iadd (shl (Int 1) 24) (shl r 16)) (shl g 8)) b))) in
        {| hex := Some hex; alpha := a |}
    | _ => {| hex := None; alpha := zero |}
    end.

(** ** getGradientFallbackColor *)

Definition getGradientFallbackColor (bgImage : string) : option string :=
  if negb (Str.truthy bgImage) then None
  else
    match Regex.exec re_hex_color bgImage with
    | Some hexMatch => Some (Regex.matched hexMatch)
    | None =>
        match Regex.exec re_rgb_color bgImage with
        | Some rgbMatch => Some (Regex.matched rgbMatch)
        | None => None
        end
    end.

(** ** getPadding *)

Definition pxToInch : number := div one (of_Z 96).

Definition getPadding (style : ComputedStyle) (scale : number) : list number :=
  [ mul (mul (or (parseFloat (paddingTop style)) zero) pxToInch) scale;
    mul (mul (or (parseFloat (paddingRight style)) zero) pxToInch) scale;
    mul (mul (or (parseFloat (paddingBottom style)) zero) pxToInch) scale;
    mul (mul (or (parseFloat (paddingLeft style)) zero) pxToInch) scale ].

(** ** getSoftEdges *)

Definition three_quarters : number := Fin (3 # 4)%Q.

Definition getSoftEdges (filterStr : string) (scale : number) : option number :=
  if negb (Str.truthy filterStr) || String.eqb filterStr "none" then None
  else
    match Regex.exec re_blur filterStr with
    | Some m => Some (mul (mul (parseFloat (capture 1 m)) three_quarters) scale)
    | None => None
    end.

(** ** getTextStyle *)

Record TextStyle : Type := {
  ts_color : string;                   (* the field [color] *)
  fontFace : string;
  ts_fontSize : number;                (* the field [fontSize] *)
  bold : bool;
  italic : bool;
  underline : bool
}.

Definition first_or_empty (l : list string) : string :=
  match l with
  | s :: _ => s
  | [] => ""
  end.

Definition getTextStyle (style : ComputedStyle) (scale : number) : TextStyle :=
  let colorObj := parseColor (color style) in
  let bgClip := Str.or (webkitBackgroundClip style) (backgroundClip style) in
  let colorObj :=
    if eq (alpha colorObj) zero && String.eqb bgClip "text" then
      match getGradientFallbackColor (backgroundImage style) with
      | Some fallback => if Str.truthy fallback then parseColor fallback else colorObj
      | None => colorObj
      end
    else colorObj in
  {| ts_color := hex_or_black colorObj;
     fontFace :=
       Regex.replace_all re_quote ""
         (first_or_empty (Str.split (fontFamily style) ","));
     ts_fontSize := mul (mul (parseFloat (fontSize style)) three_quarters) scale;
     bold := ige (parseInt (fontWeight style)) 600;
     italic := String.eqb (fontStyle style) "italic";
     underline := Str.includes (textDecoration style) "underline" |}.

(** ** isTextContainer *)

Definition inline_tags : list string :=
  ["SPAN"; "B"; "STRONG"; "EM"; "I"; "A"; "SMALL"].

Definition isInline (el : Node) : bool :=
  match el with
  | Elem info _ =>
      Str.includes (display (style info)) "inline"
      || Str.mem (tagName info) inline_tags
  | _ => false
  end.

(** The source calls it on elements only. *)
Definition isTextContainer (node : Node) : bool :=
  let hasText := Nat.ltb 0 (String.length (Str.trim (textContent node))) in
  if negb hasText then false
  else
    let children := children node in
    if Nat.eqb (List.length children) 0 then true
    else forallb isInline children.

(** ** getRotation *)

(** [values[i]] on an array of strings whose length was checked. *)
Definition item (i : nat) (values : list string) : string := nth i values "".

Definition getRotation (transformStr : string) : result real :=
  if negb (Str.truthy transformStr) || String.eqb transformStr "none"
  then Ok (Fin 0%R)
  else
    match Str.split transformStr "(" with
    | _ :: inner :: _ =>
        let values := Str.split (first_or_empty (Str.split inner ")")) "," in
        if Nat.ltb (List.length values) 4 then Ok (Fin 0%R)
        else
          let a := parseFloat (item 0 values) in
          let b := parseFloat (item 1 values) in
          Ok (Real.round
                (Real.mul (Real.atan2 (Real.of_number b) (Real.of_number a))
                   Real.deg_per_rad))
    | _ => Throw "TypeError: Cannot read properties of undefined (reading 'split')"
    end.

(** ** getVisibleShadow *)

Record Shadow : Type := {
  sh_type : string;                    (* the field [type] *)
  angle : real;
  blur : number;
  offset : real;
  sh_color : string;                   (* the field [color] *)
  sh_opacity : number                  (* the field [opacity] *)
}.

(** The conversion of one matched entry (the body of [if (match)]). *)
Definition shadowOfMatch (m : Regex.found) (scale : number) : Shadow :=
  let colorStr := capture 1 m in
  let x := parseFloat (capture 2 m) in
  let y := parseFloat (capture 3 m) in
  let blur := parseFloat (capture 4 m) in
  let distance := Real.sqrt (Real.of_number (add (mul x x) (mul y y))) in
  let angle :=
    Real.mul (Real.atan2 (Real.of_number y) (Real.of_number x)) Real.deg_per_rad in
  let angle :=
    if Real.lt angle (Fin 0%R) then Real.add angle (Fin 360%R) else angle in
  let colorObj := parseColor colorStr in
  {| sh_type := "outer";
     angle := angle;
     blur := mul (mul blur three_quarters) scale;
     offset :=
       Real.mul (Real.mul distance (Real.of_number three_quarters))
         (Real.of_number scale);
     sh_color := hex_or_black colorObj;
     sh_opacity := alpha colorObj |}.

(** The loop over the entries. *)
Fixpoint firstVisibleShadow (shadows : list string) (scale : number) : option Shadow :=
  match shadows with
  | [] => None
  | s :: rest =>
      let s := Str.trim s in
      if Str.startsWith s "rgba(0, 0, 0, 0)" then firstVisibleShadow rest scale
      else
        match Regex.exec re_shadow s with
        | Some m => Some (shadowOfMatch m scale)
        | None => firstVisibleShadow rest scale
        end
  end.

Definition getVisibleShadow (shadowStr : string) (scale : number) : option Shadow :=
  if negb (Str.truthy shadowStr) || String.eqb shadowStr "none" then None
  else firstVisibleShadow (Regex.split re_comma shadowStr) scale.

(** ** [btoa] *)

Definition b64_char (n : nat) : ascii :=
  if Nat.ltb n 26 then ascii_of_nat (65 + n)
  else if Nat.ltb n 52 then ascii_of_nat (97 + (n - 26))
  else if Nat.ltb n 62 then ascii_of_nat (48 + (n - 52))
  else if Nat.eqb n 62 then "+"%char
  else "/"%char.

Fixpoint btoa (s : string) : string :=
  match s with
  | EmptyString => ""
  | String a EmptyString =>
      let a := Str.code a in
      String (b64_char (a / 4)) (String (b64_char (a mod 4 * 16)) "==")
  | String a (String b EmptyString) =>
      let a := Str.code a in
      let b := Str.code b in
      String (b64_char (a / 4))
        (String (b64_char (a mod 4 * 16 + b / 16))
           (String (b64_char (b mod 16 * 4)) "="))
  | String a (String b (String c rest)) =>
      let a := Str.code a in
      let b := Str.code b in
      let c := Str.code c in
      String (b64_char (a / 4))
        (String (b64_char (a mod 4 * 16 + b / 16))
           (String (b64_char (b mod 16 * 4 + c / 64))
              (String (b64_char (c mod 64)) (btoa rest))))
  end.

(** ** Markup *)

Definition dq : string := String (ascii_of_nat 34) "".
Definition nl : string := String (ascii_of_nat 10) "".

(** [name="value"] *)
Definition attr (name value : string) : string := name ++ "=" ++ dq ++ value ++ dq.

Fixpoint spaces (n : nat) : string :=
  match n with
  | O => ""
  | S n' => String " " (spaces n')
  end.

(** ** generateGradientSVG and generateBlurredSVG *)

Record Axis : Type := {
  x1 : string;
  y1 : string;
  x2 : string;
  y2 : string
}.

Record Stop : Type := {
  stop_offset : string;
  stop_color : string;
  stop_opacity : string
}.

Record Border : Type := {
  border_color : string;
  border_width : number
}.

Record Blurred : Type := {
  data : string;
  padding : number
}.

Fixpoint mapi_from {A B} (f : A -> nat -> B) (i : nat) (l : list A) : list B :=
  match l with
  | [] => []
  | a :: l' => f a i :: mapi_from f (S i) l'
  end.
(** [arr.forEach((a, idx) => ...)], collecting what each round appends. *)
Definition mapi {A B} (f : A -> nat -> B) (l : list A) : list B := mapi_from f 0 l.

Section Rendering.

(** The digits that the language prints for a number that is not an
    integer (the shortest decimal that reads back as the same double). *)
Variable fraction_toString : Q -> string.

(** [String(n)], the conversion inside template literals and [n + "%"]. *)
Definition Number_toString (n : number) : string :=
  match n with
  | NaN => "NaN"
  | PInf => "Infinity"
  | NInf => "-Infinity"
  | Fin q =>
      let q' := Qred q in
      if Pos.eqb (Qden q') 1 then Z_toString 10 (Qnum q')
      else fraction_toString q
  end.

(** The direction term: the axis, and the index of the first stop. *)
Definition gradientDirection (first : string) : Axis * nat :=
  if Str.includes first "to right"
  then ({| x1 := "0%"; y1 := "0%"; x2 := "100%"; y2 := "0%" |}, 1)
  else if Str.includes first "to left"
  then ({| x1 := "100%"; y1 := "0%"; x2 := "0%"; y2 := "0%" |}, 1)
  else if Str.includes first "to top"
  then ({| x1 := "0%"; y1 := "100%"; x2 := "0%"; y2 := "0%" |}, 1)
  else if Str.includes first "to bottom"
  then ({| x1 := "0%"; y1 := "0%"; x2 := "0%"; y2 := "100%" |}, 1)
  else ({| x1 := "0%"; y1 := "0%"; x2 := "0%"; y2 := "100%" |}, 0).

(** The offset of the stop [idx] of [count] when it has none of its own. *)
Definition evenOffset (count idx : nat) : string :=
  Number_toString
    (round (mul (div (of_nat idx) (sub (of_nat count) one)) (of_nat 100)))
  ++ "%".

(** One round of [stopParts.forEach]. *)
Definition gradientStop (count : nat) (part : string) (idx : nat) : Stop :=
  let color := part in
  let offset := evenOffset count idx in
  let '(color, offset) :=
    match Regex.exec re_stop_position part with
    | Some posMatch => (capture 1 posMatch, capture 2 posMatch)
    | None => (color, offset)
    end in
  let opacity := Number_toString one in
  let '(color, opacity) :=
    if Str.includes color "rgba" then
      match Regex.match_all re_numbers color with
      | Some (r0 :: r1 :: r2 :: r3 :: _) =>
          ("rgb(" ++ r0 ++ "," ++ r1 ++ "," ++ r2 ++ ")", r3)
      | _ => (color, opacity)
      end
    else (color, opacity) in
  {| stop_offset := offset; stop_color := color; stop_opacity := opacity |}.

(** Lines 183 to 208: the axis and the stops of a gradient string. *)
Definition gradientAxisAndStops (bgString : string) : option (Axis * list Stop) :=
  match Regex.exec re_linear_gradient bgString with
  | None => None
  | Some m =>
      let content := capture 1 m in
      let parts := List.map Str.trim (Regex.split re_comma content) in
      let '(axis, stopsStartIdx) := gradientDirection (first_or_empty parts) in
      let stopParts := List.skipn stopsStartIdx parts in
      Some (axis, mapi (gradientStop (List.length stopParts)) stopParts)
  end.

Definition stopXML (s : Stop) : string :=
  "<stop " ++ attr "offset" (stop_offset s) ++ " "
  ++ attr "stop-color" (stop_color s) ++ " "
  ++ attr "stop-opacity" (stop_opacity s) ++ "/>".

Definition strokeAttr (border : option Border) : string :=
  match border with
  | Some b =>
      attr "stroke" ("#" ++ border_color b) ++ " "
      ++ attr "stroke-width" (Number_toString (border_width b))
  | None => ""
  end.

(** [btoa] accepts every string of 8-bit code units, so the handler of
    the source's [try] is never entered. *)
Definition generateGradientSVG (w h : number) (bgString : string)
    (radius : number) (border : option Border) : option string :=
  match gradientAxisAndStops bgString with
  | None => None
  | Some (axis, stops) =>
      let stopsXML := Str.join (List.map stopXML stops) in
      let w := Number_toString w in
      let h := Number_toString h in
      let radius := Number_toString radius in
      let svg :=
        nl ++ spaces 10 ++ "<svg " ++ attr "xmlns" "http://www.w3.org/2000/svg"
        ++ " " ++ attr "width" w ++ " " ++ attr "height" h
        ++ " " ++ attr "viewBox" ("0 0 " ++ w ++ " " ++ h) ++ ">"
        ++ nl ++ spaces 14 ++ "<defs><linearGradient " ++ attr "id" "grad"
        ++ " " ++ attr "x1" (x1 axis) ++ " " ++ attr "y1" (y1 axis)
        ++ " " ++ attr "x2" (x2 axis) ++ " " ++ attr "y2" (y2 axis) ++ ">"
        ++ stopsXML ++ "</linearGradient></defs>"
        ++ nl ++ spaces 14 ++ "<rect " ++ attr "x" "0" ++ " " ++ attr "y" "0"
        ++ " " ++ attr "width" w ++ " " ++ attr "height" h
        ++ " " ++ attr "rx" radius ++ " " ++ attr "ry" radius
        ++ " " ++ attr "fill" "url(#grad)" ++ " " ++ strokeAttr border ++ " />"
        ++ nl ++ spaces 10 ++ "</svg>" in
      Some ("data:image/svg+xml;base64," ++ btoa svg)
  end.

(** The circle test shared by the blurred background and the shapes. *)
Definition isCircle (radius w h : number) : bool :=
  ge radius (sub (div (min w h) (of_Z 2)) one) && lt (abs (sub w h)) (of_Z 2).

Definition generateBlurredSVG (w h : number) (color : string)
    (radius blurPx : number) : Blurred :=
  let padding := mul blurPx (of_Z 3) in
  let fullW := add w (mul padding (of_Z 2)) in
  let fullH := add h (mul padding (of_Z 2)) in
  let x := padding in
  let y := padding in
  let str := Number_toString in
  let shapeTag :=
    if isCircle radius w h then
      let cx := add x (div w (of_Z 2)) in
      let cy := add y (div h (of_Z 2)) in
      let rx := div w (of_Z 2) in
      let ry := div h (of_Z 2) in
      "<ellipse " ++ attr "cx" (str cx) ++ " " ++ attr "cy" (str cy)
      ++ " " ++ attr "rx" (str rx) ++ " " ++ attr "ry" (str ry)
      ++ " " ++ attr "fill" ("#" ++ color) ++ " " ++ attr "filter" "url(#f1)" ++ " />"
    else
      "<rect " ++ attr "x" (str x) ++ " " ++ attr "y" (str y)
      ++ " " ++ attr "width" (str w) ++ " " ++ attr "height" (str h)
      ++ " " ++ attr "rx" (str radius) ++ " " ++ attr "ry" (str radius)
      ++ " " ++ attr "fill" ("#" ++ color) ++ " " ++ attr "filter" "url(#f1)" ++ " />" in
  let svg :=
    nl ++ spaces 2 ++ "<svg " ++ attr "xmlns" "http://www.w3.org/2000/svg"
    ++ " " ++ attr "width" (str fullW) ++ " " ++ attr "height" (str fullH)
    ++ " " ++ attr "viewBox" ("0 0 " ++ str fullW ++ " " ++ str fullH) ++ ">"
    ++ nl ++ spaces 4 ++ "<defs>"
    ++ nl ++ spaces 6 ++ "<filter " ++ attr "id" "f1" ++ " " ++ attr "x" "-50%"
    ++ " " ++ attr "y" "-50%" ++ " " ++ attr "width" "200%"
    ++ " " ++ attr "height" "200%" ++ ">"
    ++ nl ++ spaces 8 ++ "<feGaussianBlur " ++ attr "in" "SourceGraphic"
    ++ " " ++ attr "stdDeviation" (str blurPx) ++ " />"
    ++ nl ++ spaces 6 ++ "</filter>"
    ++ nl ++ spaces 4 ++ "</defs>"
    ++ nl ++ spaces 4 ++ shapeTag
    ++ nl ++ spaces 2 ++ "</svg>" in
  {| data := "data:image/svg+xml;base64," ++ btoa svg; padding := padding |}.

End Rendering.

End Utils.

(* ================================================================== *)
(** * src/index.js *)
(* ================================================================== *)

Module Index.
Import Num Js Dom Utils.

Notation "x <- e ;; k" := (Js.bind e (fun x => k))
  (at level 61, e at next level, right associativity).

Definition PPI : number := of_Z 96.
Definition PX_TO_INCH : number := div one PPI.

(** ** Render items *)

Record LayoutConfig : Type := {
  rootX : number;
  rootY : number;
  scale : number;
  offX : number;
  offY : number
}.

(** [pptx.ShapeType] *)
Inductive ShapeType : Type := rect | roundRect | ellipse.

Inductive Fill : Type :=
| FillColor (color : string) (transparency : option number)
| FillNone.                                        (* { type: "none" } *)

(** One side of a composite border, and the four of them. *)
Record Side : Type := {
  side_width : number;
  side_color : string
}.
Record Sides : Type := {
  side_top : Side;
  side_right : Side;
  side_bottom : Side;
  side_left : Side
}.

(** A run of text: the bullet of a list item has a colour and a size
    only, every other run the whole style of [getTextStyle]. *)
Inductive RunOptions : Type :=
| BulletRun (color : string) (fontSize : number)
| StyledRun (style : TextStyle).

Record TextPart : Type := {
  text : string;
  run_options : RunOptions
}.

Record TextPayload : Type := {
  payload_text : list TextPart;
  payload_align : string;
  payload_valign : string;
  payload_inset : list number
}.

Record ImageOptions : Type := {
  img_data : string;
  img_x : number;
  img_y : number;
  img_w : number;
  img_h : number;
  img_rotate : real
}.

Section Engine.

(** The options of a uniform border line, as [getBorderInfo] builds them. *)
Context {LineOptions : Type}.

(** The result of [getBorderInfo]. *)
Record BorderInfo : Type := {
  border_type : string;
  border_options : LineOptions;
  border_sides : Sides
}.

(** The options of a shape; an absent property is [None]. *)
Record ShapeOptions : Type := {
  opt_x : number;
  opt_y : number;
  opt_w : number;
  opt_h : number;
  opt_rotate : option real;
  opt_fill : option Fill;
  opt_line : option LineOptions;
  opt_shadow : option Shadow;
  opt_rectRadius : option number
}.

(** The options of a text box: those of the shape it is merged into,
    and the paragraph properties. *)
Record TextOptions : Type := {
  txt_shape : option ShapeType;
  txt_box : ShapeOptions;
  txt_align : string;
  txt_valign : string;
  txt_inset : list number;
  txt_margin : number;
  txt_wrap : bool;
  txt_autoFit : bool
}.

Inductive RenderItem : Type :=
| ShapeItem (zIndex : intnum) (domOrder : nat) (shapeType : ShapeType)
    (options : ShapeOptions)
| ImageItem (zIndex : intnum) (domOrder : nat) (options : ImageOptions)
| TextItem (zIndex : intnum) (domOrder : nat) (textParts : list TextPart)
    (options : TextOptions).

Definition item_zIndex (it : RenderItem) : intnum :=
  match it with
  | ShapeItem z _ _ _ | ImageItem z _ _ | TextItem z _ _ _ => z
  end.

Definition item_domOrder (it : RenderItem) : nat :=
  match it with
  | ShapeItem _ d _ _ | ImageItem _ d _ | TextItem _ d _ _ => d
  end.

(** What [createRenderItem] returns when it does not return null. *)
Record Rendered : Type := {
  items : list RenderItem;
  stopRecursion : bool
}.

(** ** createCompositeBorderItems *)

Definition borderRect (x y w h : number) (color : string) (zIndex : intnum)
    (domOrder : nat) : RenderItem :=
  ShapeItem (iadd zIndex (Int 1)) domOrder rect
    {| opt_x := x; opt_y := y; opt_w := w; opt_h := h;
       opt_rotate := None;
       opt_fill := Some (FillColor color None);
       opt_line := None; opt_shadow := None; opt_rectRadius := None |}.

Definition createCompositeBorderItems (sides : Sides) (x y w h scale : number)
    (zIndex : intnum) (domOrder : nat) : list RenderItem :=
  let pxToInch := div one (of_Z 96) in
  let thickness (s : Side) := mul (mul (side_width s) pxToInch) scale in
  (if gt (side_width (side_top sides)) zero
   then [borderRect x y w (thickness (side_top sides))
           (side_color (side_top sides)) zIndex domOrder]
   else [])
  ++ (if gt (side_width (side_right sides)) zero
      then [borderRect (sub (add x w) (thickness (side_right sides))) y
              (thickness (side_right sides)) h
              (side_color (side_right sides)) zIndex domOrder]
      else [])
  ++ (if gt (side_width (side_bottom sides)) zero
      then [borderRect x (sub (add y h) (thickness (side_bottom sides))) w
              (thickness (side_bottom sides))
              (side_color (side_bottom sides)) zIndex domOrder]
      else [])
  ++ (if gt (side_width (side_left sides)) zero
      then [borderRect x y (thickness (side_left sides)) h
              (side_color (side_left sides)) zIndex domOrder]
      else []).

(** ** The collaborators of the engine

    index.js imports [getBorderInfo] and [generateCompositeBorderSVG]
    from utils.js and [getProcessedImage] from image-processor.js; this
    revision of utils.js defines neither of the first two, and the third
    file is not part of the sources.  [svgToPng] draws on a canvas of the
    browser.  The engine is written over what they return. *)

Variable getBorderInfo : ComputedStyle -> number -> BorderInfo.
Variable generateCompositeBorderSVG : number -> number -> number -> Sides -> option string.
Variable getProcessedImage : string -> number -> number -> number -> option string.
Variable svgToPng : Node -> option string.
Variable fraction_toString : Q -> string.

(** A data URL or null in a boolean position. *)
Definition present (d : option string) : option string :=
  match d with
  | Some s => if Str.truthy s then Some s else None
  | None => None
  end.

(** ** createRenderItem, step by step *)

(** Lines 105 to 109. *)
Definition isHidden (style : ComputedStyle) : bool :=
  String.eqb (display style) "none"
  || String.eqb (visibility style) "hidden"
  || String.eqb (opacity style) "0".

(** Line 113. *)
Definition isEmptyBox (rect : DOMRect) : bool :=
  Qeq_bool (width rect) 0 || Qeq_bool (height rect) 0.

(** Line 115. *)
Definition zIndexOf (style : ComputedStyle) : intnum :=
  if negb (String.eqb (zIndex style) "auto") then parseInt (zIndex style)
  else Int 0.

(** [node.offsetWidth || rect.width] *)
Definition dimension (offset : option Z) (ofRect : Q) : number :=
  match offset with
  | Some z => or (of_Z z) (Fin ofRect)
  | None => Fin ofRect
  end.

Definition widthOf (info : ElementInfo) : number :=
  dimension (offsetWidth info) (width (Dom.rect info)).
Definition heightOf (info : ElementInfo) : number :=
  dimension (offsetHeight info) (height (Dom.rect info)).

(** Lines 119 to 135: the box of the node on the slide, in inches. *)
Record Box : Type := {
  box_x : number;
  box_y : number;
  box_w : number;
  box_h : number
}.

Definition boxOf (info : ElementInfo) (config : LayoutConfig) : Box :=
  let rect := Dom.rect info in
  let widthPx := widthOf info in
  let heightPx := heightOf info in
  let unrotatedW := mul (mul widthPx PX_TO_INCH) (scale config) in
  let unrotatedH := mul (mul heightPx PX_TO_INCH) (scale config) in
  let centerX := add (Fin (left rect)) (div (Fin (width rect)) (of_Z 2)) in
  let centerY := add (Fin (top rect)) (div (Fin (height rect)) (of_Z 2)) in
  {| box_x :=
       sub (add (offX config)
              (mul (mul (sub centerX (rootX config)) PX_TO_INCH) (scale config)))
         (div unrotatedW (of_Z 2));
     box_y :=
       sub (add (offY config)
              (mul (mul (sub centerY (rootY config)) PX_TO_INCH) (scale config)))
         (div unrotatedH (of_Z 2));
     box_w := unrotatedW;
     box_h := unrotatedH |}.

Definition imageItem (zIndex : intnum) (domOrder : nat) (data : string)
    (x y w h : number) (rotation : real) : RenderItem :=
  ImageItem zIndex domOrder
    {| img_data := data; img_x := x; img_y := y; img_w := w; img_h := h;
       img_rotate := rotation |}.

(** [parseFloat(style.borderRadius) || 0] *)
Definition radiusOf (style : ComputedStyle) : number :=
  or (parseFloat (borderRadius style)) zero.

(** Lines 153 to 158: the corner radius of an image. *)
Definition imageRadius (info : ElementInfo) : result number :=
  let borderRadius := radiusOf (style info) in
  if eq borderRadius zero then
    match parentStyle info with
    | None => Throw "TypeError: parameter 1 is not of type 'Element'"
    | Some parentStyle =>
        if negb (String.eqb (overflow parentStyle) "visible")
        then Ok (radiusOf parentStyle)
        else Ok borderRadius
    end
  else Ok borderRadius.

Definition isImg (c : Node) : bool :=
  match c with
  | Elem info _ => String.eqb (tagName info) "IMG"
  | _ => false
  end.

(** Lines 196 to 204. *)
Definition isImageWrapper (node : Node) (widthPx heightPx : number) : bool :=
  match List.find isImg (children node) with
  | Some (Elem imgChild _) =>
      ge (widthOf imgChild) (sub widthPx (of_Z 2))
      && ge (heightOf imgChild) (sub heightPx (of_Z 2))
  | _ => false
  end.

(** ** The text of a text container (lines 209 to 267) *)

(** index.js:232, both with the flag g: a run of line feeds, carriage
    returns and tabs; then two or more white-space characters. *)
Definition re_line_breaks : Regex.re :=
  Regex.plus
    (Regex.Chr (fun c => match Str.code c with 9 | 10 | 13 => true | _ => false end)).
Definition re_spaces : Regex.re := Regex.Rep true 2 None Regex.space.

(** The text of the bullet run, byte for byte as the file has it at
    line 219, and the space after it. *)
Definition bullet : string :=
  String (ascii_of_nat 195) (String (ascii_of_nat 162)
    (String (ascii_of_nat 226) (String (ascii_of_nat 130) (String (ascii_of_nat 172)
      (String (ascii_of_nat 194) (String (ascii_of_nat 162) " ")))))).

(** One round of [node.childNodes.forEach]: the run of a child, or none. *)
Definition textRun (style : ComputedStyle) (config : LayoutConfig) (isList : bool)
    (count : nat) (child : Node) (index : nat) : list TextPart :=
  let textVal :=
    match child with
    | Text nodeValue => nodeValue
    | _ => textContent child
    end in
  let nodeStyle :=
    match child with
    | Elem info _ => Dom.style info
    | _ => style
    end in
  let textVal :=
    Regex.replace_all re_spaces " " (Regex.replace_all re_line_breaks " " textVal) in
  let textVal :=
    if Nat.eqb index 0 && negb isList then Str.trimStart textVal
    else if Nat.eqb index 0 then Str.trimStart textVal
    else textVal in
  let textVal :=
    if Nat.eqb index (count - 1) then Str.trimEnd textVal else textVal in
  let textVal :=
    if String.eqb (textTransform nodeStyle) "uppercase"
    then Str.toUpperCase textVal else textVal in
  let textVal :=
    if String.eqb (textTransform nodeStyle) "lowercase"
    then Str.toLowerCase textVal else textVal in
  if Nat.ltb 0 (String.length textVal)
  then [ {| text := textVal;
            run_options := StyledRun (getTextStyle nodeStyle (scale config)) |} ]
  else [].

(** Lines 213 to 215: how far a list item is widened to the left. *)
Definition bulletShift (style : ComputedStyle) (config : LayoutConfig) : number :=
  mul (mul (mul (or (parseFloat (fontSize style)) (of_Z 16)) PX_TO_INCH)
         (scale config))
    (Fin (3 # 2)%Q).

(** Lines 210 to 247: the runs. *)
Definition textPartsOf (style : ComputedStyle) (config : LayoutConfig)
    (kids : list Node) : list TextPart :=
  let isList := String.eqb (display style) "list-item" in
  (if isList then
     [ {| text := bullet;
          run_options :=
            BulletRun (hex_or_black (parseColor (color style)))
              (mul (mul (parseFloat (fontSize style)) three_quarters) (scale config)) |} ]
   else [])
  ++ List.concat (mapi (textRun style config isList (List.length kids)) kids).

(** Lines 249 to 266: alignment and insets of a non-empty list of runs. *)
Definition textPayloadOf (style : ComputedStyle) (config : LayoutConfig)
    (bgColorObj : Color) (textParts : list TextPart) : TextPayload :=
  let align := Str.or (textAlign style) "left" in
  let align := if String.eqb align "start" then "left" else align in
  let align := if String.eqb align "end" then "right" else align in
  let valign := "top" in
  let valign := if String.eqb (alignItems style) "center" then "middle" else valign in
  let align :=
    if String.eqb (justifyContent style) "center"
       && Str.includes (display style) "flex"
    then "center" else align in
  let pt := or (parseFloat (paddingTop style)) zero in
  let pb := or (parseFloat (paddingBottom style)) zero in
  let valign :=
    if lt (abs (sub pt pb)) (of_Z 2) && has_hex bgColorObj then "middle" else valign in
  let padding := getPadding style (scale config) in
  let padding :=
    if String.eqb align "center" && String.eqb valign "middle"
    then [zero; zero; zero; zero] else padding in
  {| payload_text := textParts; payload_align := align;
     payload_valign := valign; payload_inset := padding |}.

(** Lines 206 to 267: the payload of a text container, null otherwise. *)
Definition textPayload (node : Node) (style : ComputedStyle) (config : LayoutConfig)
    (bgColorObj : Color) : option TextPayload :=
  if isTextContainer node then
    let textParts := textPartsOf style config (childNodes_of node) in
    if Nat.ltb 0 (List.length textParts)
    then Some (textPayloadOf style config bgColorObj textParts)
    else None
  else None.

(** The box after the shift of a list item (lines 216 and 217). *)
Definition shiftedBox (node : Node) (style : ComputedStyle) (config : LayoutConfig)
    (b : Box) : Box :=
  if isTextContainer node && String.eqb (display style) "list-item" then
    {| box_x := sub (box_x b) (bulletShift style config);
       box_y := box_y b;
       box_w := add (box_w b) (bulletShift style config);
       box_h := box_h b |}
  else b.

(** ** The two ways of painting a node (lines 269 to 445) *)

(** [softEdge] in a boolean position. *)
Definition softEdgeOn (softEdge : option number) : option number :=
  match softEdge with
  | Some n => if truthy n then Some n else None
  | None => None
  end.

(** [c.hex] inside a template literal. *)
Definition hex_text (c : Color) : string :=
  match hex c with
  | Some h => h
  | None => "null"
  end.

(** Lines 183 to 185. *)
Definition hasBorder (style : ComputedStyle) : bool :=
  gt (parseFloat (borderWidth style)) zero && has_hex (parseColor (borderColor style)).

(** Lines 178 to 181. *)
Definition hasGradient (style : ComputedStyle) : bool :=
  let bgClip := Str.or (webkitBackgroundClip style) (backgroundClip style) in
  negb (String.eqb bgClip "text")
  && Str.truthy (backgroundImage style)
  && Str.includes (backgroundImage style) "linear-gradient".

(** Lines 191 and 192. *)
Definition hasShadow (style : ComputedStyle) : bool :=
  Str.truthy (boxShadow style) && negb (String.eqb (boxShadow style) "none").

Definition plainBox (b : Box) (rotation : real) : ShapeOptions :=
  {| opt_x := box_x b; opt_y := box_y b; opt_w := box_w b; opt_h := box_h b;
     opt_rotate := Some rotation;
     opt_fill := None; opt_line := None; opt_shadow := None;
     opt_rectRadius := None |}.

(** Lines 270 to 342: a picture of the background, the text above it
    and the sides of a composite border. *)
Definition paintBackground (info : ElementInfo) (config : LayoutConfig)
    (zIndex : intnum) (domOrder : nat) (rotation : real) (b : Box)
    (payload : option TextPayload) : list RenderItem :=
  let style := Dom.style info in
  let bgColorObj := parseColor (backgroundColor style) in
  let borderInfo := getBorderInfo style (scale config) in
  let '(bgData, padIn) :=
    match softEdgeOn (getSoftEdges (filter style) (scale config)) with
    | Some softEdge =>
        let svgInfo :=
          generateBlurredSVG fraction_toString (widthOf info) (heightOf info)
            (hex_text bgColorObj) (radiusOf style) softEdge in
        (Some (data svgInfo), mul (mul (padding svgInfo) PX_TO_INCH) (scale config))
    | None =>
        (generateGradientSVG fraction_toString (widthOf info) (heightOf info)
           (backgroundImage style) (radiusOf style)
           (if hasBorder style
            then Some {| border_color := hex_text (parseColor (borderColor style));
                         border_width := parseFloat (borderWidth style) |}
            else None),
         zero)
    end in
  (match present bgData with
   | Some bgData =>
       [imageItem zIndex domOrder bgData
          (sub (box_x b) padIn) (sub (box_y b) padIn)
          (add (box_w b) (mul padIn (of_Z 2))) (add (box_h b) (mul padIn (of_Z 2)))
          rotation]
   | None => []
   end)
  ++ (match payload with
      | Some p =>
          [TextItem (iadd zIndex (Int 1)) domOrder (payload_text p)
             {| txt_shape := None;
                txt_box := plainBox b rotation;
                txt_align := payload_align p;
                txt_valign := payload_valign p;
                txt_inset := payload_inset p;
                txt_margin := zero; txt_wrap := true; txt_autoFit := false |}]
      | None => []
      end)
  ++ (if String.eqb (border_type borderInfo) "composite"
      then createCompositeBorderItems (border_sides borderInfo)
             (box_x b) (box_y b) (box_w b) (box_h b) (scale config) zIndex domOrder
      else []).

(** Lines 371 to 386: the kind of the shape and, for a rounded
    rectangle, the fraction of its corner radius. *)
Definition shapeKind (borderRadius widthPx heightPx : number) : ShapeType * option number :=
  if isCircle borderRadius widthPx heightPx then (ellipse, None)
  else if gt borderRadius zero then
    (roundRect,
     Some (min one (div borderRadius (div (min widthPx heightPx) (of_Z 2)))))
  else (rect, None).

(** Lines 350 to 386: the options of the shape. *)
Definition shapeOptions (info : ElementInfo) (config : LayoutConfig)
    (rotation : real) (b : Box) (imageWrapper : bool) : ShapeOptions :=
  let style := Dom.style info in
  let bgColorObj := parseColor (backgroundColor style) in
  let borderInfo := getBorderInfo style (scale config) in
  let elementOpacity := parseFloat (opacity style) in
  let finalAlpha := mul elementOpacity (alpha bgColorObj) in
  let transparency := mul (sub one finalAlpha) (of_Z 100) in
  {| opt_x := box_x b; opt_y := box_y b; opt_w := box_w b; opt_h := box_h b;
     opt_rotate := Some rotation;
     opt_fill :=
       Some (if has_hex bgColorObj && negb imageWrapper
             then FillColor (hex_text bgColorObj) (Some transparency)
             else FillNone);
     opt_line :=
       if String.eqb (border_type borderInfo) "uniform"
       then Some (border_options borderInfo) else None;
     opt_shadow :=
       if hasShadow style then getVisibleShadow (boxShadow style) (scale config)
       else None;
     opt_rectRadius := snd (shapeKind (radiusOf style) (widthOf info) (heightOf info)) |}.

(** Lines 388 to 444: the shape, with the text merged into it when
    there is some, and the picture of a composite border above it. *)
Definition paintShape (info : ElementInfo) (config : LayoutConfig)
    (zIndex : intnum) (domOrder : nat) (rotation : real) (b : Box)
    (imageWrapper : bool) (payload : option TextPayload) : list RenderItem :=
  let style := Dom.style info in
  let borderInfo := getBorderInfo style (scale config) in
  let shapeOpts := shapeOptions info config rotation b imageWrapper in
  let shapeType := fst (shapeKind (radiusOf style) (widthOf info) (heightOf info)) in
  (match payload with
   | Some p =>
       [TextItem zIndex domOrder (payload_text p)
          {| txt_shape := Some shapeType;
             txt_box := shapeOpts;
             txt_align := payload_align p;
             txt_valign := payload_valign p;
             txt_inset := payload_inset p;
             txt_margin := zero; txt_wrap := true; txt_autoFit := false |}]
   | None => [ShapeItem zIndex domOrder shapeType shapeOpts]
   end)
  ++ (if String.eqb (border_type borderInfo) "composite" then
        match present (generateCompositeBorderSVG (widthOf info) (heightOf info)
                         (radiusOf style) (border_sides borderInfo)) with
        | Some borderSvgData =>
            [imageItem (iadd zIndex (Int 1)) domOrder borderSvgData
               (box_x b) (box_y b) (box_w b) (box_h b) rotation]
        | None => []
        end
      else []).

(** The test of line 269. *)
Definition paintsBackground (info : ElementInfo) (config : LayoutConfig)
    (imageWrapper : bool) : bool :=
  let style := Dom.style info in
  hasGradient style
  || (match softEdgeOn (getSoftEdges (filter style) (scale config)) with
      | Some _ => true
      | None => false
      end
      && has_hex (parseColor (backgroundColor style))
      && negb imageWrapper).

(** The test of lines 343 to 349. *)
Definition paintsShape (info : ElementInfo) (config : LayoutConfig)
    (imageWrapper : bool) (payload : option TextPayload) : bool :=
  let style := Dom.style info in
  let borderInfo := getBorderInfo style (scale config) in
  (has_hex (parseColor (backgroundColor style)) && negb imageWrapper)
  || String.eqb (border_type borderInfo) "uniform"
  || String.eqb (border_type borderInfo) "composite"
  || hasShadow style
  || match payload with Some _ => true | None => false end.

(** ** createRenderItem *)

Definition createRenderItem (node : Node) (config : LayoutConfig) (domOrder : nat)
    : result (option Rendered) :=
  match node with
  | Elem info kids =>
      let style := Dom.style info in
      if isHidden style then Ok None
      else if isEmptyBox (Dom.rect info) then Ok None
      else
        let zIndex := zIndexOf style in
        rotation <- getRotation (transform style) ;;
        let b := boxOf info config in
        if String.eqb (Str.toUpperCase (nodeName info)) "SVG" then
          Ok (Some
                {| items :=
                     match present (svgToPng node) with
                     | Some pngData =>
                         [imageItem zIndex domOrder pngData
                            (box_x b) (box_y b) (box_w b) (box_h b) rotation]
                     | None => []
                     end;
                   stopRecursion := true |})
        else if String.eqb (tagName info) "IMG" then
          borderRadius <- imageRadius info ;;
          Ok (Some
                {| items :=
                     match present (getProcessedImage (src info) (widthOf info)
                                      (heightOf info) borderRadius) with
                     | Some processed =>
                         [imageItem zIndex domOrder processed
                            (box_x b) (box_y b) (box_w b) (box_h b) rotation]
                     | None => []
                     end;
                   stopRecursion := true |})
        else
          let bgColorObj := parseColor (backgroundColor style) in
          let imageWrapper := isImageWrapper node (widthOf info) (heightOf info) in
          let payload := textPayload node style config bgColorObj in
          let b := shiftedBox node style config b in
          Ok (Some
                {| items :=
                     if paintsBackground info config imageWrapper
                     then paintBackground info config zIndex domOrder rotation b payload
                     else if paintsShape info config imageWrapper payload
                     then paintShape info config zIndex domOrder rotation b
                            imageWrapper payload
                     else [];
                   stopRecursion :=
                     match payload with Some _ => true | None => false end |})
  | _ => Ok None
  end.

(** ** processSlide *)

(** The calls made on a slide, in the order they are made. *)
Inductive SlideCall : Type :=
| addShape (shapeType : ShapeType) (options : ShapeOptions)
| addImage (options : ImageOptions)
| addText (textParts : list TextPart) (options : TextOptions).

Definition Slide : Type := list SlideCall.

Definition PPTX_WIDTH_IN : number := of_Z 10.
Definition PPTX_HEIGHT_IN : number := Fin (45 # 8)%Q.

(** Lines 56 to 73. *)
Definition layoutConfigOf (rootRect : DOMRect) : LayoutConfig :=
  let contentWidthIn := mul (Fin (width rootRect)) PX_TO_INCH in
  let contentHeightIn := mul (Fin (height rootRect)) PX_TO_INCH in
  let scale :=
    min (div PPTX_WIDTH_IN contentWidthIn) (div PPTX_HEIGHT_IN contentHeightIn) in
  {| rootX := Fin (x rootRect);
     rootY := Fin (y rootRect);
     scale := scale;
     offX := div (sub PPTX_WIDTH_IN (mul contentWidthIn scale)) (of_Z 2);
     offY := div (sub PPTX_HEIGHT_IN (mul contentHeightIn scale)) (of_Z 2) |}.

(** The variables that [collect] closes over: the queue and the counter. *)
Record Collected : Type := {
  renderQueue : list RenderItem;
  domOrderCounter : nat
}.

(** [collect(node)]; [node.children] are the elements among the child
    nodes, and a node that is not an element has none to iterate. *)
Fixpoint collect (config : LayoutConfig) (node : Node) (st : Collected)
    {struct node} : result Collected :=
  let order := domOrderCounter st in
  result_ <- createRenderItem node config order ;;
  let queue :=
    match result_ with
    | Some r => (renderQueue st ++ items r)%list
    | None => renderQueue st
    end in
  let st := {| renderQueue := queue; domOrderCounter := S order |} in
  if match result_ with Some r => stopRecursion r | None => false end then Ok st
  else
    match node with
    | Elem _ kids =>
        (fix each (l : list Node) (st : Collected) {struct l} : result Collected :=
           match l with
           | [] => Ok st
           | child :: l' =>
               if is_element child
               then st' <- collect config child st ;; each l' st'
               else each l' st
           end) kids st
    | _ => Throw "TypeError: node.children is not iterable"
    end.

(** The loop of line 85 on its own. *)
Fixpoint collectChildren (config : LayoutConfig) (l : list Node) (st : Collected)
    {struct l} : result Collected :=
  match l with
  | [] => Ok st
  | child :: l' =>
      if is_element child
      then st' <- collect config child st ;; collectChildren config l' st'
      else collectChildren config l' st
  end.

(** The shape that an item draws: its kind and the fraction of its
    corner radius.  A picture draws none, nor does a text box that is
    not merged into a shape. *)
Definition shapeOf (it : RenderItem) : option (ShapeType * option number) :=
  match it with
  | ShapeItem _ _ shapeType options => Some (shapeType, opt_rectRadius options)
  | ImageItem _ _ _ => None
  | TextItem _ _ _ options =>
      match txt_shape options with
      | Some shapeType => Some (shapeType, opt_rectRadius (txt_box options))
      | None => None
      end
  end.

(** Lines 90 to 93: the comparator. *)
Definition compareItems (a b : RenderItem) : intnum :=
  if ineq (item_zIndex a) (item_zIndex b)
  then isub (item_zIndex a) (item_zIndex b)
  else Int (Z.of_nat (item_domOrder a) - Z.of_nat (item_domOrder b)).

(** [Array.prototype.sort] reads a NaN of the comparator as 0. *)
Definition sortCompare (a b : RenderItem) : Z :=
  match compareItems a b with
  | INaN => 0%Z
  | Int z => z
  end.

(** [renderQueue.sort(...)].  The sort of the language is stable, and
    under a comparator that is an order the stable arrangement is unique;
    inserting from the right computes it. *)
Fixpoint insert (it : RenderItem) (l : list RenderItem) : list RenderItem :=
  match l with
  | [] => [it]
  | b :: l' =>
      if (sortCompare it b <=? 0)%Z then it :: l else b :: insert it l'
  end.
Definition sort (l : list RenderItem) : list RenderItem := fold_right insert [] l.

(** Lines 95 to 99. *)
Definition draw (it : RenderItem) : SlideCall :=
  match it with
  | ShapeItem _ _ shapeType options => addShape shapeType options
  | ImageItem _ _ options => addImage options
  | TextItem _ _ textParts options => addText textParts options
  end.

(** The sorted queue of a slide root. *)
Definition renderQueueOf (root : Node) : result (list RenderItem) :=
  match root with
  | Elem info _ =>
      st <- collect (layoutConfigOf (Dom.rect info)) root
              {| renderQueue := []; domOrderCounter := 0 |} ;;
      Ok (sort (renderQueue st))
  | _ => Throw "TypeError: root.getBoundingClientRect is not a function"
  end.

Definition processSlide (root : Node) : result Slide :=
  queue <- renderQueueOf root ;;
  Ok (List.map draw queue).

(** ** exportToPptx *)

(** A slide root as the caller names it: a selector, an element, or
    nothing (null or undefined). *)
Inductive Target : Type :=
| Selector (selector : string)
| Element (node : Node)
| Missing.

(** [document.querySelector]: the first element that matches, null when
    none does; a selector that is not valid makes it throw. *)
Variable querySelector : string -> result (option Node).

(** What is left of a run: the layout, the slides in the order of
    [addSlide], the roots reported by [console.warn], and the name
    handed to [writeFile]. *)
Record Export : Type := {
  layout : string;
  slides : list Slide;
  warnings : list Target;
  fileName : string
}.

(** Line 35. *)
Definition resolve (el : Target) : result (option Node) :=
  match el with
  | Selector s => querySelector s
  | Element node => Ok (Some node)
  | Missing => Ok None
  end.

(** The loop of lines 34 to 43. *)
Fixpoint eachRoot (elements : list Target) (slides : list Slide)
    (warnings : list Target) : result (list Slide * list Target) :=
  match elements with
  | [] => Ok (slides, warnings)
  | el :: rest =>
      root <- resolve el ;;
      match root with
      | None => eachRoot rest slides (warnings ++ [el])
      | Some root =>
          slide <- processSlide root ;;
          eachRoot rest (slides ++ [slide]) warnings
      end
  end.

(** [target] is one root or an array of roots; [givenName] is
    [options.fileName], empty when it is not given. *)
Definition exportToPptx (target : Target + list Target) (givenName : string)
    : result Export :=
  let elements :=
    match target with
    | inl single => [single]
    | inr several => several
    end in
  done <- eachRoot elements [] [] ;;
  Ok {| layout := "LAYOUT_16x9";
        slides := fst done;
        warnings := snd done;
        fileName := Str.or givenName "export.pptx" |}.

End Engine.

Arguments BorderInfo LineOptions : clear implicits.
Arguments ShapeOptions LineOptions : clear implicits.
Arguments TextOptions LineOptions : clear implicits.
Arguments RenderItem LineOptions : clear implicits.
Arguments Rendered LineOptions : clear implicits.
Arguments SlideCall LineOptions : clear implicits.
Arguments Slide LineOptions : clear implicits.
Arguments Collected LineOptions : clear implicits.
Arguments Export LineOptions : clear implicits.

End Index.

(* ================================================================== *)
(** * Sample trees *)
(* ================================================================== *)

Module Samples.
Import Num Js Dom Utils Index.

(** The computed style of an unstyled block with the given display,
    visibility, opacity, background colour, text colour and radius. *)
Definition styled (display visibility opacity backgroundColor color borderRadius : string)
    : ComputedStyle :=
  {| display := display; visibility := visibility; opacity := opacity;
     zIndex := "auto"; transform := "none"; overflow := "visible";
     backgroundColor := backgroundColor; backgroundImage := "none";
     backgroundClip := "border-box"; webkitBackgroundClip := "border-box";
     borderColor := "rgb(0, 0, 0)"; borderWidth := "0px";
     borderRadius := borderRadius; boxShadow := "none"; filter := "none";
     color := color; fontFamily := "Arial, sans-serif"; fontSize := "16px";
     fontWeight := "400"; fontStyle := "normal";
     textDecoration := "none solid rgb(0, 0, 0)"; textTransform := "none";
     textAlign := "start"; alignItems := "normal"; justifyContent := "normal";
     paddingTop := "0px"; paddingRight := "0px"; paddingBottom := "0px";
     paddingLeft := "0px" |}.

Definition transparent : string := "rgba(0, 0, 0, 0)".
Definition black : string := "rgb(0, 0, 0)".

Definition plain : ComputedStyle := styled "block" "visible" "1" transparent black "0px".
Definition filled (backgroundColor borderRadius : string) : ComputedStyle :=
  styled "block" "visible" "1" backgroundColor black borderRadius.

(** An HTML element of the given box, in whole pixels. *)
Definition element (name : string) (style : ComputedStyle) (x y w h : Z) : ElementInfo :=
  {| nodeName := name; Dom.style := style;
     Dom.rect := {| Dom.x := inject_Z x; Dom.y := inject_Z y;
                    width := inject_Z w; height := inject_Z h |};
     offsetWidth := Some w; offsetHeight := Some h;
     src := ""; parentStyle := Some plain |}.

(** A paragraph with a badge: the span has a red background of its own. *)
Definition badge : Node :=
  Elem (element "SPAN" (filled "rgb(255, 0, 0)" "4px") 40 0 60 20) [Text "Vashi"].
Definition paragraph : Node :=
  Elem (element "P" plain 0 0 200 50) [Text "Pune "; badge].

(** A slide of 960 by 540 pixels with a square, a pill and a disc. *)
Definition square : Node := Elem (element "DIV" (filled "rgb(0, 0, 255)" "0px") 10 10 100 100) [].
Definition pillInfo : ElementInfo :=
  element "DIV" (filled "rgb(0, 128, 0)" "999px") 10 120 200 40.
Definition pill : Node := Elem pillInfo [].
Definition disc : Node := Elem (element "DIV" (filled "rgb(255, 0, 0)" "50px") 300 10 100 100) [].
Definition canvas : Node :=
  Elem (element "DIV" (filled "rgb(255, 255, 255)" "0px") 0 0 960 540)
    [square; pill; disc; paragraph].

Definition hiddenInfo : ElementInfo :=
  element "DIV" (styled "none" "visible" "1" "rgb(0, 0, 255)" black "0px") 0 0 100 100.
Definition flatInfo : ElementInfo :=
  element "DIV" (filled "rgb(0, 0, 255)" "0px") 0 0 100 0.
Definition hiddenBox : Node := Elem hiddenInfo [].
Definition flatBox : Node := Elem flatInfo [].

(** Collaborators that find no border and produce no picture. *)
Definition noSide : Side := {| side_width := zero; side_color := "" |}.
Definition noBorder (_ : ComputedStyle) (_ : number) : BorderInfo unit :=
  {| border_type := "none"; border_options := tt;
     border_sides := {| side_top := noSide; side_right := noSide;
                        side_bottom := noSide; side_left := noSide |} |}.
Definition noBorderSVG (_ _ _ : number) (_ : Sides) : option string := None.
Definition noImage (_ : string) (_ _ _ : number) : option string := None.
Definition noPng (_ : Node) : option string := None.
Definition noFraction (_ : Q) : string := "".

(** A document with one element, of the id [slide]. *)
Definition document (selector : string) : result (option Node) :=
  if String.eqb selector "#slide" then Ok (Some canvas) else Ok None.

(** The same document, which rejects the selector that is a lone hash
    sign as the browser does. *)
Definition strictDocument (selector : string) : result (option Node) :=
  if String.eqb selector "#"
  then Throw "SyntaxError: '#' is not a valid selector"
  else document selector.

(** The layout of the slide [canvas]. *)
Definition layout : LayoutConfig :=
  layoutConfigOf {| Dom.x := 0; Dom.y := 0; width := inject_Z 960; height := inject_Z 540 |}.

(** A picture of a given zIndex and domOrder. *)
Definition picture (z : Z) (d : nat) : RenderItem unit :=
  imageItem (Int z) d "data:," zero zero one one (Fin 0%R).

(** Three roots, of which the second alone resolves. *)
Definition batch : list Target := [Selector "#title"; Selector "#slide"; Missing].

(** The computed style of a heading: orange, bold, 24 pixels, padded,
    below the page (z-index -3) and blurred by 4 pixels. *)
Definition heading : ComputedStyle :=
  {| display := "block"; visibility := "visible"; opacity := "1";
     zIndex := "-3"; transform := "none"; overflow := "visible";
     backgroundColor := "rgb(0, 0, 255)"; backgroundImage := "none";
     backgroundClip := "border-box"; webkitBackgroundClip := "border-box";
     borderColor := "rgb(0, 0, 0)"; borderWidth := "0px";
     borderRadius := "0px"; boxShadow := "none"; filter := "blur(4px)";
     color := "rgb(255, 128, 0)"; fontFamily := "Georgia, serif"; fontSize := "24px";
     fontWeight := "700"; fontStyle := "normal";
     textDecoration := "none solid rgb(255, 128, 0)"; textTransform := "none";
     textAlign := "start"; alignItems := "normal"; justifyContent := "normal";
     paddingTop := "8px"; paddingRight := "16px"; paddingBottom := "8px";
     paddingLeft := "16px" |}.
Definition headingInfo : ElementInfo := element "H1" heading 0 0 400 60.


(** An image, and a block without paint of its own around a square. *)
Definition photoInfo : ElementInfo := element "IMG" plain 0 0 100 50.
Definition photo : Node := Elem photoInfo [].
Definition wrapperInfo : ElementInfo := element "DIV" plain 0 0 200 200.
Definition wrapper : Node := Elem wrapperInfo [square].

(** A red disc of 200 pixels across, made round by a radius of 50%. *)
Definition coinInfo : ElementInfo :=
  element "DIV" (filled "rgb(255, 0, 0)" "50%") 0 0 200 200.
Definition coin : Node := Elem coinInfo [].

(** A border of two pixels above and below, none at the sides. *)
Definition ruled : Sides :=
  {| side_top := {| side_width := of_Z 2; side_color := "000000" |};
     side_right := noSide;
     side_bottom := {| side_width := of_Z 2; side_color := "000000" |};
     side_left := noSide |}.

End Samples.

(* ================================================================== *)
(** * Notions of the specification *)
(* ================================================================== *)

Module Spec.
Import Num Js Dom Utils Index.

(** A child with a visible background or border of its own, in the words
    of the changelog entry of 1.0.7 on styled inline spans. *)
Definition carriesOwnPaint (child : Node) : bool :=
  match child with
  | Elem info _ =>
      has_hex (parseColor (backgroundColor (style info))) || hasBorder (style info)
  | _ => false
  end.

(** The text of a node is more than white space. *)
Definition hasText (node : Node) : bool :=
  Nat.ltb 0 (String.length (Str.trim (textContent node))).

(** The style sends transparent text to the first colour of a gradient:
    the background is clipped to the text and has a colour to offer. *)
Definition usesGradientFallback (style : ComputedStyle) : bool :=
  String.eqb (Str.or (webkitBackgroundClip style) (backgroundClip style)) "text"
  && match getGradientFallbackColor (backgroundImage style) with
     | Some _ => true
     | None => false
     end.

(** The order of the queue: by zIndex, then by domOrder. *)
Definition precedes {L : Type} (a b : RenderItem L) : Prop :=
  match item_zIndex a, item_zIndex b with
  | Int x, Int y => (x < y)%Z \/ (x = y /\ item_domOrder a <= item_domOrder b)
  | _, _ => False
  end.

(** The zIndex of an item is a number. *)
Definition numbered {L : Type} (it : RenderItem L) : Prop := item_zIndex it <> INaN.

(** The items of a given zIndex and domOrder. *)
Definition hasKey {L : Type} (z : Z) (d : nat) (it : RenderItem L) : bool :=
  match item_zIndex it with
  | Int x => Z.eqb x z && Nat.eqb (item_domOrder it) d
  | INaN => false
  end.

(** The computed z-index of the element is [auto] or starts with an
    integer, as every computed z-index does. *)
Definition hasNumericZIndex (info : ElementInfo) : bool :=
  match zIndexOf (style info) with
  | Int _ => true
  | INaN => false
  end.

(** What a root of the batch stands for, read off the root and the
    document alone: an element stands for itself; a selector stands for
    the first element of the document that matches it, for no node when
    no element matches, and for nothing at all when the document rejects
    it as a selector that is not valid; null and undefined stand for no
    node. *)
Inductive Resolution : Type :=
| isNode (node : Node)
| noNode
| syntaxError (error : string).

Definition rootOf (querySelector : string -> result (option Node)) (el : Target)
    : Resolution :=
  match el with
  | Element node => isNode node
  | Missing => noNode
  | Selector selector =>
      match querySelector selector with
      | Ok (Some node) => isNode node
      | Ok None => noNode
      | Throw error => syntaxError error
      end
  end.

(** An unresolvable root: an element or a selector that does not
    resolve to a node. *)
Definition unresolvable (querySelector : string -> result (option Node))
    (el : Target) : bool :=
  match rootOf querySelector el with
  | isNode _ => false
  | _ => true
  end.

(** A root that is not found: it is null or undefined, or a selector
    that no element of the document matches. *)
Definition notFound (querySelector : string -> result (option Node))
    (el : Target) : bool :=
  match rootOf querySelector el with
  | noNode => true
  | _ => false
  end.

(** The slides of a run, or how it failed. *)
Definition slidesOf {L : Type} (r : result (Export L)) : result (list (Slide L)) :=
  Js.bind r (fun e => Ok (slides e)).

(** The array that [exportToPptx] goes through. *)
Definition elementsOf (target : Target + list Target) : list Target :=
  match target with
  | inl single => [single]
  | inr several => several
  end.

(** The slide of a root that resolves to a node: what [processSlide]
    makes of that node. *)
Definition slideOfRoot {L : Type} (processSlide : Node -> result (Slide L))
    (querySelector : string -> result (option Node))
    (el : Target) (slide : Slide L) : Prop :=
  exists root, rootOf querySelector el = isNode root /\ processSlide root = Ok slide.

(** The character [c] does not occur in [s]. *)
Fixpoint lacks (c : ascii) (s : string) : bool :=
  match s with
  | EmptyString => true
  | String a s' => negb (Ascii.eqb a c) && lacks c s'
  end.

(** The entries of a list, with a separator between them. *)
Fixpoint joinWith (sep : ascii) (l : list string) : string :=
  match l with
  | [] => ""
  | [v] => v
  | v :: l' => v ++ String sep (joinWith sep l')
  end.

(** An entry of the list of a function notation: free of parentheses
    and commas. *)
Definition plainValue (v : string) : bool :=
  lacks "(" v && lacks ")" v && lacks "," v.

(** The match of an entry of a box-shadow list that the converter
    takes: the entry, trimmed, does not start with the transparent black
    of computed styles and holds a colour followed by three lengths in
    px. *)
Definition visibleEntry (entry : string) : option Regex.found :=
  let s := Str.trim entry in
  if Str.startsWith s "rgba(0, 0, 0, 0)" then None
  else Regex.exec re_shadow s.

(** An item made for the node of the given zIndex and domOrder: it has
    the domOrder of the node, and its zIndex or the next one. *)
Definition ofNode {L : Type} (z : intnum) (d : nat) (it : RenderItem L) : Prop :=
  item_domOrder it = d /\ (item_zIndex it = z \/ item_zIndex it = iadd z (Int 1)).

(** Document order: the order of the numbers that [collect] hands out. *)
Definition inDocumentOrder {L : Type} (a b : RenderItem L) : Prop :=
  item_domOrder a <= item_domOrder b.

(** The items that carry text, and the picture items. *)
Definition isTextItem {L : Type} (it : RenderItem L) : bool :=
  match it with TextItem _ _ _ _ => true | _ => false end.
Definition isImageItem {L : Type} (it : RenderItem L) : bool :=
  match it with ImageItem _ _ _ => true | _ => false end.

(** The four edges of a box, and the side of a border at each. *)
Inductive Edge : Type := atTop | atRight | atBottom | atLeft.

Definition sideAt (sides : Sides) (edge : Edge) : Side :=
  match edge with
  | atTop => side_top sides
  | atRight => side_right sides
  | atBottom => side_bottom sides
  | atLeft => side_left sides
  end.

(** The strip of the thickness [t] along an edge of the box
    [x, y, w, h]: it spans the box along that edge, lies inside it, and
    touches the edge. *)
Definition stripAt {L : Type} (edge : Edge) (x y w h t : Q) (o : ShapeOptions L) : Prop :=
  exists ox oy ow oh : Q,
    opt_x o = Fin ox /\ opt_y o = Fin oy /\ opt_w o = Fin ow /\ opt_h o = Fin oh /\
    match edge with
    | atTop => ox == x /\ oy == y /\ ow == w /\ oh == t
    | atRight => ox + ow == x + w /\ oy == y /\ ow == t /\ oh == h
    | atBottom => ox == x /\ oy + oh == y + h /\ ow == w /\ oh == t
    | atLeft => ox == x /\ oy == y /\ ow == t /\ oh == h
    end%Q.

(** The item that draws the side of a border at an edge of the box of
    an element of the zIndex [z] and the domOrder [d], under the scale
    [s]: a rectangle one zIndex above the element, filled with the colour
    of the side, as thick as the side is wide (in inches, scaled), along
    that edge, with no line, shadow, rotation or rounding of its own. *)
Definition borderStrip {L : Type} (sides : Sides) (x y w h s : Q) (z : intnum) (d : nat)
    (edge : Edge) (it : RenderItem L) : Prop :=
  exists (o : ShapeOptions L) (q : Q),
    it = ShapeItem (iadd z (Int 1)) d Index.rect o
    /\ side_width (sideAt sides edge) = Fin q
    /\ stripAt edge x y w h (q / 96 * s) o
    /\ opt_fill o = Some (FillColor (side_color (sideAt sides edge)) None)
    /\ opt_rotate o = None /\ opt_line o = None /\ opt_shadow o = None
    /\ opt_rectRadius o = None.

(** The edges at which the border has a width, in the order top, right,
    bottom, left. *)
Definition edgesDrawn (sides : Sides) : list Edge :=
  List.filter (fun edge => gt (side_width (sideAt sides edge)) zero)
    [atTop; atRight; atBottom; atLeft].

(** Every character of [s] is in the class [p]. *)
Fixpoint every (p : ascii -> bool) (s : string) : bool :=
  match s with
  | EmptyString => true
  | String a s' => p a && every p s'
  end.

(** [s] does not go on with a character of the class [p]. *)
Definition stopsAt (p : ascii -> bool) (s : string) : bool :=
  match s with
  | EmptyString => true
  | String a _ => negb (p a)
  end.

(** The length of the longest prefix of [s] within the class [p]. *)
Fixpoint spanLength (p : ascii -> bool) (s : string) : nat :=
  match s with
  | EmptyString => 0
  | String a s' => if p a then S (spanLength p s') else 0
  end.

(** The class of the pattern for numbers: digits and the dot. *)
Definition numeric (c : ascii) : bool := Str.is_digit c || Ascii.eqb c ".".

(** The decimal numeral of an integer, as the browser serialises it. *)
Definition numeral (z : Z) : string := Z_toString 10 z.

(** A length in pixels, and an rgb colour, as computed styles have them. *)
Definition px (n : Z) : string := numeral n ++ "px".
Definition rgbText (r g b : Z) : string :=
  "rgb(" ++ numeral r ++ ", " ++ numeral g ++ ", " ++ numeral b ++ ")".

Definition rgbaText (r g b : Z) (a : string) : string :=
  "rgba(" ++ numeral r ++ ", " ++ numeral g ++ ", " ++ numeral b ++ ", " ++ a ++ ")".

Definition percent (n : Z) : string := numeral n ++ "%".

(** The radius of the corners in pixels that a computed border-radius
    of one value stands for on a box of the width [w]: a percentage is
    that part of the width, a length in px is its number of pixels. *)
Definition radiusInPixels (borderRadius : string) (w : number) : number :=
  if String.eqb (Str.drop (String.length borderRadius - 1) borderRadius) "%"
  then mul (div (parseFloat borderRadius) (of_Z 100)) w
  else parseFloat borderRadius.

(** The condition under which the specification calls for an ellipse:
    the radius is at least half the smaller side less one, and width and
    height differ by less than two. *)
Definition callsForEllipse (radius w h : number) : bool :=
  ge radius (sub (div (min w h) (of_Z 2)) one) && lt (abs (sub w h)) (of_Z 2).

(** The two hexadecimal digits of a byte, in capitals. *)
Definition hexDigit (d : Z) : ascii :=
  nth (Z.to_nat d) (list_ascii_of_string "0123456789ABCDEF") "0"%char.
Definition hexByte (v : Z) : string :=
  String (hexDigit (v / 16)) (String (hexDigit (v mod 16)) "").

(** Line feeds, carriage returns and tabs. *)
Definition is_break (c : ascii) : bool :=
  match Str.code c with 9 | 10 | 13 => true | _ => false end.

(** No two white-space characters of [s] are next to each other;
    [afterSpace] tells whether a white-space character comes before. *)
Fixpoint spacedOnce (afterSpace : bool) (s : string) : bool :=
  match s with
  | EmptyString => true
  | String a s' => negb (afterSpace && Str.is_space a) && spacedOnce (Str.is_space a) s'
  end.

(** A text is tidy when it has no line feed, carriage return or tab and
    no two white-space characters in a row. *)
Definition tidy (s : string) : bool :=
  every (fun c => negb (is_break c)) s && spacedOnce false s.

(** The state after a walk that started on an empty queue, with the
    queue that was there put in front of it. *)
Definition onto {L : Type} (queue : list (RenderItem L)) (st : Collected L)
    : result (Collected L) :=
  Ok {| renderQueue := (queue ++ renderQueue st)%list;
        domOrderCounter := domOrderCounter st |}.

End Spec.

(* ================================================================== *)
(** * Properties *)
(* ================================================================== *)

Import Num Js Dom Utils Index.

(** ** Text containers *)

Lemma isTextContainer_all_inline (node : Node) :
  Spec.hasText node = true ->
  forallb isInline (children node) = true ->
  isTextContainer node = true.
Proof.
  unfold isTextContainer, Spec.hasText.
  intros Htext Hinline. rewrite Htext. simpl.
  destruct (Nat.eqb (List.length (children node)) 0); [reflexivity | exact Hinline].
Qed.

(** C1.  The paragraph [Pune <span>Vashi</span>], whose span has a red
    background of its own: every element child is inline, one of them
    carries its own paint, and [isTextContainer] still answers true, so
    that the span is flattened into a run of the paragraph's text box
    and recursion stops before it could become a shape. *)
Theorem isTextContainer_flattens_painted_child :
  forallb isInline (children Samples.paragraph) = true
  /\ existsb Spec.carriesOwnPaint (children Samples.paragraph) = true
  /\ isTextContainer Samples.paragraph = true
  /\ option_map (fun r => (List.length (items r), stopRecursion r))
       (match createRenderItem Samples.noBorder Samples.noBorderSVG
                Samples.noImage Samples.noPng Samples.noFraction
                Samples.paragraph (layoutConfigOf (Dom.rect (Samples.element "DIV" Samples.plain 0 0 960 540))) 1 with
        | Ok r => r
        | Throw _ => None
        end) = Some (1, true).
Proof. repeat split; vm_compute; reflexivity. Qed.

(** ** Colours *)

Lemma parseColor_null_hex (str : string) :
  hex (parseColor str) = None -> parseColor str = {| hex := None; alpha := zero |}.
Proof.
  unfold parseColor.
  destruct (negb (Str.truthy str) || String.eqb str "transparent"
            || Str.startsWith str "rgba(0, 0, 0, 0)"); [reflexivity |].
  destruct (Str.startsWith str "#"); [discriminate |].
  destruct (Regex.match_all re_numbers str) as [[|m0 [|m1 [|m2 rest]]]|];
    intros H; try reflexivity.
  cbn [hex] in H. discriminate H.
Qed.

(** C2, as stated, fails: without the spaces of a computed style the
    transparent black is parsed like any other rgba colour. *)
Lemma parseColor_unspaced_transparent :
  parseColor "rgba(0,0,0,0)" = {| hex := Some "000000"; alpha := zero |}
  /\ parseColor "rgba(0,0,0,0)" <> {| hex := None; alpha := zero |}.
Proof. split; [vm_compute; reflexivity | vm_compute; discriminate]. Qed.

(** C2, amended.  [parseColor("#fff")] is FFFFFF with opacity 1; the
    transparent black of a computed style, [rgba(0, 0, 0, 0)], parses to a
    null hex with opacity 0, and so does every string that is empty, is
    [transparent] or starts with that text; and a null hex always comes
    with opacity 0. *)
Theorem parseColor_transparent :
  parseColor "#fff" = {| hex := Some "FFFFFF"; alpha := one |}
  /\ parseColor "rgba(0, 0, 0, 0)" = {| hex := None; alpha := zero |}
  /\ (forall str,
        str = "" \/ str = "transparent" \/ Str.startsWith str "rgba(0, 0, 0, 0)" = true ->
        parseColor str = {| hex := None; alpha := zero |})
  /\ (forall str, hex (parseColor str) = None -> alpha (parseColor str) = zero).
Proof.
  split; [vm_compute; reflexivity |].
  split; [vm_compute; reflexivity |].
  split.
  - intros str [-> | [-> | H]].
    + vm_compute; reflexivity.
    + vm_compute; reflexivity.
    + unfold parseColor. rewrite H.
      rewrite orb_true_r. reflexivity.
  - intros str H. rewrite (parseColor_null_hex _ H). reflexivity.
Qed.

Lemma parseColor_transparent_witness :
  parseColor "rgba(0, 0, 0, 0) none" = {| hex := None; alpha := zero |}
  /\ alpha (parseColor "none") = zero.
Proof.
  split.
  - apply (proj1 (proj2 (proj2 parseColor_transparent))).
    right; right; vm_compute; reflexivity.
  - apply (proj2 (proj2 (proj2 parseColor_transparent))).
    vm_compute; reflexivity.
Defined.

(** ** Text styles *)

Lemma hex_or_black_not_empty (c : Color) : hex_or_black c <> "".
Proof.
  unfold hex_or_black, Str.or.
  destruct (hex c) as [h|]; [| discriminate].
  destruct h; simpl; discriminate.
Qed.

(** C10.  The colour of a run is never empty; and when the computed
    colour parses to a null hex and the style does not use the gradient
    fallback, the run is black. *)
Theorem getTextStyle_null_hex_is_black (style : ComputedStyle) (scale : number) :
  ts_color (getTextStyle style scale) <> ""
  /\ (hex (parseColor (color style)) = None ->
      Spec.usesGradientFallback style = false ->
      ts_color (getTextStyle style scale) = "000000").
Proof.
  split.
  - apply hex_or_black_not_empty.
  - intros Hnull Hno.
    unfold getTextStyle. cbn [ts_color].
    unfold Spec.usesGradientFallback in Hno.
    destruct (String.eqb (Str.or (webkitBackgroundClip style) (backgroundClip style)) "text").
    + rewrite andb_true_r.
      destruct (getGradientFallbackColor (backgroundImage style)); [discriminate |].
      destruct (eq (alpha (parseColor (color style))) zero);
        unfold hex_or_black; rewrite Hnull; reflexivity.
    + rewrite andb_false_r. unfold hex_or_black. rewrite Hnull. reflexivity.
Qed.

Lemma getTextStyle_null_hex_is_black_witness :
  ts_color (getTextStyle
              (Samples.styled "block" "visible" "1" Samples.transparent
                 Samples.transparent "0px") one) = "000000".
Proof.
  apply (proj2 (getTextStyle_null_hex_is_black _ _)); vm_compute; reflexivity.
Defined.

(** ** The matcher of regular expressions *)

Lemma repeat_continuation (body : string -> Regex.caps -> Regex.cont -> option Regex.state)
    (greedy : bool) :
  Regex.local body ->
  forall fuel lo hi s c k k',
    (forall s' c', String.length s' <= String.length s -> k s' c' = k' s' c') ->
    Regex.repeat body k greedy fuel lo hi s c = Regex.repeat body k' greedy fuel lo hi s c.
Proof.
  intros Hbody. induction fuel as [| fuel IH]; intros lo hi s c k k' Hk; [reflexivity |].
  cbn [Regex.repeat].
  assert (Hhere : k s c = k' s c) by (apply Hk; apply Nat.le_refl).
  assert (Hmore :
    body s c (fun s' c' =>
      if Nat.eqb lo 0 && Nat.eqb (String.length s') (String.length s) then None
      else Regex.repeat body k greedy fuel (Nat.pred lo) (Regex.pred_opt hi) s' c')
    = body s c (fun s' c' =>
      if Nat.eqb lo 0 && Nat.eqb (String.length s') (String.length s) then None
      else Regex.repeat body k' greedy fuel (Nat.pred lo) (Regex.pred_opt hi) s' c')).
  { apply Hbody. intros s' c' Hlen.
    destruct (Nat.eqb lo 0 && Nat.eqb (String.length s') (String.length s));
      [reflexivity |].
    apply IH. intros s'' c'' Hlen'. apply Hk. lia. }
  destruct hi as [[| h] |]; [exact Hhere | |]; rewrite Hmore, Hhere; reflexivity.
Qed.

Lemma run_local (r : Regex.re) : Regex.local (Regex.run r).
Proof.
  induction r as [| p | r1 IH1 r2 IH2 | r1 IH1 r2 IH2 | greedy lo hi r IH | i r IH | r IH |];
    intros s c k k' Hk; cbn [Regex.run].
  - apply Hk. apply Nat.le_refl.
  - destruct s as [| a s]; [reflexivity |].
    destruct (p a); [| reflexivity]. apply Hk. cbn. lia.
  - apply IH1. intros s' c' Hlen. apply IH2. intros s'' c'' Hlen'. apply Hk. lia.
  - rewrite (IH1 s c k k' Hk), (IH2 s c k k' Hk). reflexivity.
  - apply repeat_continuation; [| exact Hk].
    intros s0 c0 d d' Hd. apply IH. exact Hd.
  - apply IH. intros s' c' Hlen. apply Hk. exact Hlen.
  - destruct (Regex.run r s c Regex.done); [reflexivity |]. apply Hk. apply Nat.le_refl.
  - destruct s; [apply Hk; apply Nat.le_refl | reflexivity].
Qed.

(** The fuel of a quantifier is never used up: any more of it gives
    the same result. *)
Lemma repeat_fuel (body : string -> Regex.caps -> Regex.cont -> option Regex.state)
    (k : Regex.cont) (greedy : bool) :
  Regex.local body ->
  forall fuel1 fuel2 lo hi s c,
    lo + String.length s < fuel1 -> lo + String.length s < fuel2 ->
    Regex.repeat body k greedy fuel1 lo hi s c = Regex.repeat body k greedy fuel2 lo hi s c.
Proof.
  intros Hbody. induction fuel1 as [| fuel1 IH]; intros fuel2 lo hi s c H1 H2; [lia |].
  destruct fuel2 as [| fuel2]; [lia |].
  cbn [Regex.repeat].
  assert (Hmore :
    body s c (fun s' c' =>
      if Nat.eqb lo 0 && Nat.eqb (String.length s') (String.length s) then None
      else Regex.repeat body k greedy fuel1 (Nat.pred lo) (Regex.pred_opt hi) s' c')
    = body s c (fun s' c' =>
      if Nat.eqb lo 0 && Nat.eqb (String.length s') (String.length s) then None
      else Regex.repeat body k greedy fuel2 (Nat.pred lo) (Regex.pred_opt hi) s' c')).
  { apply Hbody. intros s' c' Hlen.
    destruct (Nat.eqb_spec lo 0) as [-> | Hlo]; cbn [andb].
    - destruct (Nat.eqb_spec (String.length s') (String.length s)) as [_ | Hne];
        [reflexivity |].
      apply IH; cbn; lia.
    - apply IH; lia. }
  destruct hi as [[| h] |]; [reflexivity | |]; rewrite Hmore; reflexivity.
Qed.

Lemma run_fuel (greedy : bool) (lo : nat) (hi : option nat) (r : Regex.re)
    (s : string) (c : Regex.caps) (k : Regex.cont) (extra : nat) :
  Regex.run (Regex.Rep greedy lo hi r) s c k
  = Regex.repeat (fun s' c' d => Regex.run r s' (Regex.clear (Regex.groups_of r) c') d)
      k greedy (lo + String.length s + 1 + extra) lo hi s c.
Proof.
  cbn [Regex.run]. apply repeat_fuel; [| lia | lia].
  intros s0 c0 d d' Hd. apply run_local. exact Hd.
Qed.

Lemma orelse_some {A : Type} (a b : option A) (x : A) :
  Regex.orelse a b = Some x -> a = Some x \/ b = Some x.
Proof. destruct a; cbn; intros H; [left | right]; exact H. Qed.

Lemma repeat_inward (body : string -> Regex.caps -> Regex.cont -> option Regex.state)
    (k : Regex.cont) (greedy : bool) :
  Regex.inward body ->
  forall fuel lo hi s c x,
    Regex.repeat body k greedy fuel lo hi s c = Some x ->
    exists s' c', String.length s' <= String.length s /\ k s' c' = Some x.
Proof.
  intros Hbody. induction fuel as [| fuel IH]; intros lo hi s c x H; [discriminate |].
  cbn [Regex.repeat] in H.
  assert (Hhere : k s c = Some x ->
            exists s' c', String.length s' <= String.length s /\ k s' c' = Some x).
  { intros Hk. exists s, c. split; [apply Nat.le_refl | exact Hk]. }
  assert (Hmore : forall hi',
    body s c (fun s' c' =>
      if Nat.eqb lo 0 && Nat.eqb (String.length s') (String.length s) then None
      else Regex.repeat body k greedy fuel (Nat.pred lo) hi' s' c') = Some x ->
    exists s' c', String.length s' <= String.length s /\ k s' c' = Some x).
  { intros hi' Hb. apply Hbody in Hb. destruct Hb as [s1 [c1 [Hlen Hd]]].
    destruct (Nat.eqb lo 0 && Nat.eqb (String.length s1) (String.length s));
      [discriminate |].
    apply IH in Hd. destruct Hd as [s2 [c2 [Hlen' Hk]]].
    exists s2, c2. split; [lia | exact Hk]. }
  destruct hi as [[| h] |]; [apply Hhere; exact H | |];
    (destruct (Nat.eqb lo 0); [| eapply Hmore; exact H]);
    (destruct greedy; apply orelse_some in H; destruct H as [H | H];
     solve [apply Hhere; exact H | eapply Hmore; exact H]).
Qed.

Lemma run_inward (r : Regex.re) : Regex.inward (Regex.run r).
Proof.
  induction r as [| p | r1 IH1 r2 IH2 | r1 IH1 r2 IH2 | greedy lo hi r IH | i r IH | r IH |];
    intros s c k x H; cbn [Regex.run] in H.
  - exists s, c. split; [apply Nat.le_refl | exact H].
  - destruct s as [| a s]; [discriminate |].
    destruct (p a); [| discriminate]. exists s, c. split; [cbn; lia | exact H].
  - apply IH1 in H. destruct H as [s1 [c1 [Hlen H]]].
    apply IH2 in H. destruct H as [s2 [c2 [Hlen' H]]].
    exists s2, c2. split; [lia | exact H].
  - apply orelse_some in H. destruct H as [H | H];
      [exact (IH1 _ _ _ _ H) | exact (IH2 _ _ _ _ H)].
  - eapply repeat_inward; [| exact H].
    intros s0 c0 d y Hd. apply IH in Hd. exact Hd.
  - apply IH in H. destruct H as [s1 [c1 [Hlen H]]]. eauto.
  - destruct (Regex.run r s c Regex.done); [discriminate |].
    exists s, c. split; [apply Nat.le_refl | exact H].
  - destruct s; [| discriminate]. exists "", c. split; [apply Nat.le_refl | exact H].
Qed.

(** What is left after a match is not longer than the input. *)
Lemma run_rest (r : Regex.re) (s rest : string) (c c' : Regex.caps) :
  Regex.run r s c Regex.done = Some (rest, c') -> String.length rest <= String.length s.
Proof.
  intros H. apply run_inward in H. destruct H as [s1 [c1 [Hlen H]]].
  injection H as -> _. exact Hlen.
Qed.

Lemma take_length (n : nat) (s : string) :
  n <= String.length s -> String.length (Str.take n s) = n.
Proof.
  revert s. induction n as [| n IH]; intros s H; [reflexivity |].
  destruct s as [| a s]; cbn in *; [lia |]. rewrite IH; lia.
Qed.

Lemma exec_here_lengths (r : Regex.re) (pos : nat) (s : string) (f : Regex.found) :
  Regex.exec_here r pos s = Some f ->
  String.length (Regex.matched f) + String.length (Regex.after f) <= String.length s.
Proof.
  unfold Regex.exec_here.
  destruct (Regex.run r s [] Regex.done) as [[rest c] |] eqn:Hrun; [| discriminate].
  intros H. injection H as <-. cbn [Regex.matched Regex.after].
  apply run_rest in Hrun. rewrite take_length; lia.
Qed.

Lemma exec_from_lengths (r : Regex.re) (s : string) :
  forall pos f,
    Regex.exec_from r pos s = Some f ->
    String.length (Regex.matched f) + String.length (Regex.after f) <= String.length s.
Proof.
  induction s as [| a s IH]; intros pos f; cbn [Regex.exec_from].
  - destruct (Regex.exec_here r pos "") as [g |] eqn:Hg; [| discriminate].
    intros H. injection H as <-. exact (exec_here_lengths _ _ _ _ Hg).
  - destruct (Regex.exec_here r pos (String a s)) as [g |] eqn:Hg.
    + intros H. injection H as <-. exact (exec_here_lengths _ _ _ _ Hg).
    + intros H. apply IH in H.
      change (String.length (String a s)) with (S (String.length s)). lia.
Qed.

(** The fuel of [match_all], of [split] and of [replace_all] is never
    used up either. *)
Lemma match_all_fuel (r : Regex.re) :
  forall fuel1 fuel2 s,
    String.length s < fuel1 -> String.length s < fuel2 ->
    Regex.match_all_from fuel1 r s = Regex.match_all_from fuel2 r s.
Proof.
  induction fuel1 as [| fuel1 IH]; intros fuel2 s H1 H2; [lia |].
  destruct fuel2 as [| fuel2]; [lia |].
  cbn [Regex.match_all_from]. unfold Regex.exec.
  destruct (Regex.exec_from r 0 s) as [f |] eqn:Hf; [| reflexivity].
  apply exec_from_lengths in Hf. f_equal.
  destruct (Regex.matched f) as [| a m]; cbn [String.length] in Hf.
  - destruct (Regex.after f) as [| b t]; [reflexivity |].
    cbn [String.length] in Hf. apply IH; lia.
  - apply IH; lia.
Qed.

Lemma split_fuel (r : Regex.re) :
  forall fuel1 fuel2 cur s,
    Regex.split_rounds cur s < fuel1 -> Regex.split_rounds cur s < fuel2 ->
    Regex.split_from fuel1 r cur s = Regex.split_from fuel2 r cur s.
Proof.
  unfold Regex.split_rounds.
  induction fuel1 as [| fuel1 IH]; intros fuel2 cur s H1 H2; [lia |].
  destruct fuel2 as [| fuel2]; [lia |].
  cbn [Regex.split_from]. destruct s as [| a s]; [reflexivity |].
  cbn [String.length] in H1, H2.
  destruct (Regex.run r (String a s) [] Regex.done) as [[rest c] |] eqn:Hrun.
  - apply run_rest in Hrun. cbn [String.length] in Hrun.
    destruct (Nat.eqb_spec (String.length rest) (String.length (String a s))) as [E | E];
      cbn [String.length] in E.
    + destruct (Str.truthy cur) eqn:Hcur; cbn [negb andb].
      * f_equal. apply IH; cbn [Str.truthy]; lia.
      * apply IH; cbn [Str.truthy]; lia.
    + cbn [andb]. f_equal. apply IH; cbn [Str.truthy]; lia.
  - apply IH; cbn [Str.truthy]; lia.
Qed.

Lemma replace_fuel (r : Regex.re) (by_ : string) :
  forall fuel1 fuel2 s,
    String.length s < fuel1 -> String.length s < fuel2 ->
    Regex.replace_from fuel1 r by_ s = Regex.replace_from fuel2 r by_ s.
Proof.
  induction fuel1 as [| fuel1 IH]; intros fuel2 s H1 H2; [lia |].
  destruct fuel2 as [| fuel2]; [lia |].
  cbn [Regex.replace_from]. destruct s as [| a s]; [reflexivity |].
  cbn [String.length] in H1, H2.
  destruct (Regex.run r (String a s) [] Regex.done) as [[rest c] |] eqn:Hrun.
  - apply run_rest in Hrun. cbn [String.length] in Hrun.
    destruct (Nat.eqb_spec (String.length rest) (String.length (String a s))) as [E | E];
      cbn [String.length] in E; f_equal; apply IH; lia.
  - f_equal. apply IH; lia.
Qed.

(** ** Splitting strings *)

Lemma append_empty_r (s : string) : s ++ "" = s.
Proof. induction s as [| a s IH]; cbn; [reflexivity | rewrite IH; reflexivity]. Qed.

Lemma rev_onto_twice (u a b : string) :
  Str.rev_onto (Str.rev_onto u a) b = Str.rev_onto a (u ++ b).
Proof.
  revert a b. induction u as [| c u IH]; intros a b; cbn; [reflexivity |].
  rewrite IH. reflexivity.
Qed.

Lemma rev_rev_onto (u : string) : Str.rev (Str.rev_onto u "") = u.
Proof. unfold Str.rev. rewrite rev_onto_twice. cbn. apply append_empty_r. Qed.

Lemma lacks_app (c : ascii) (u v : string) :
  Spec.lacks c (u ++ v) = Spec.lacks c u && Spec.lacks c v.
Proof.
  induction u as [| a u IH]; cbn; [reflexivity |].
  rewrite IH, andb_assoc. reflexivity.
Qed.

Lemma lacks_at (c : ascii) (u v : string) : Spec.lacks c (u ++ String c v) = false.
Proof.
  rewrite lacks_app. cbn. rewrite Ascii.eqb_refl. cbn. apply andb_false_r.
Qed.

Lemma includes_char (c : ascii) (s : string) :
  Str.includes s (String c "") = negb (Spec.lacks c s).
Proof.
  induction s as [| a s IH]; [reflexivity |].
  cbn [Str.includes Str.startsWith Spec.lacks]. rewrite IH.
  rewrite (Ascii.eqb_sym c a).
  destruct (Ascii.eqb a c), s; reflexivity.
Qed.

Lemma lacks_decompose (c : ascii) (s : string) :
  Spec.lacks c s = false ->
  exists u v, s = u ++ String c v /\ Spec.lacks c u = true.
Proof.
  induction s as [| a s IH]; cbn; [discriminate |].
  destruct (Ascii.eqb_spec a c) as [-> | Hne]; cbn.
  - intros _. exists "", s. split; reflexivity.
  - intros H. destruct (IH H) as [u [v [-> Hu]]].
    exists (String a u), v. cbn.
    destruct (Ascii.eqb_spec a c); [contradiction |]. cbn. split; [reflexivity | exact Hu].
Qed.

Lemma split_on_lacks (sep : ascii) (u cur : string) :
  Spec.lacks sep u = true ->
  Str.split_on sep cur u = [Str.rev (Str.rev_onto u cur)].
Proof.
  revert cur. induction u as [| a u IH]; intros cur; cbn; [reflexivity |].
  destruct (Ascii.eqb a sep); cbn; [discriminate | apply IH].
Qed.

Lemma split_on_at (sep : ascii) (u v cur : string) :
  Spec.lacks sep u = true ->
  Str.split_on sep cur (u ++ String sep v)
  = Str.rev (Str.rev_onto u cur) :: Str.split_on sep "" v.
Proof.
  revert cur. induction u as [| a u IH]; intros cur; cbn.
  - rewrite Ascii.eqb_refl. reflexivity.
  - destruct (Ascii.eqb a sep); cbn; [discriminate | apply IH].
Qed.

Lemma split_lacks (sep : ascii) (u : string) :
  Spec.lacks sep u = true -> Str.split u sep = [u].
Proof.
  intros H. unfold Str.split. rewrite split_on_lacks by exact H.
  rewrite rev_rev_onto. reflexivity.
Qed.

Lemma split_at (sep : ascii) (u v : string) :
  Spec.lacks sep u = true ->
  Str.split (u ++ String sep v) sep = u :: Str.split v sep.
Proof.
  intros H. unfold Str.split. rewrite split_on_at by exact H.
  rewrite rev_rev_onto. reflexivity.
Qed.

Lemma split_on_not_empty (sep : ascii) (s cur : string) :
  exists piece pieces, Str.split_on sep cur s = piece :: pieces.
Proof.
  revert cur. induction s as [| a s IH]; intros cur; cbn; [eauto |].
  destruct (Ascii.eqb a sep); [eauto | apply IH].
Qed.

Lemma split_joinWith (sep : ascii) (l : list string) :
  l <> [] -> Forall (fun v => Spec.lacks sep v = true) l ->
  Str.split (Spec.joinWith sep l) sep = l.
Proof.
  induction l as [| v l IH]; [congruence |]. intros _ Hall.
  inversion Hall as [| ? ? Hv Hl]; subst.
  destruct l as [| w l]; cbn [Spec.joinWith].
  - apply split_lacks. exact Hv.
  - rewrite split_at by exact Hv. f_equal. apply IH; [discriminate | exact Hl].
Qed.

Lemma lacks_joinWith (c sep : ascii) (l : list string) :
  Ascii.eqb sep c = false ->
  Forall (fun v => Spec.lacks c v = true) l ->
  Spec.lacks c (Spec.joinWith sep l) = true.
Proof.
  intros Hsep. induction 1 as [| v l Hv Hl IH]; [reflexivity |].
  destruct l as [| w l]; cbn [Spec.joinWith]; [exact Hv |].
  rewrite lacks_app, Hv. cbn [Spec.lacks andb]. rewrite Hsep. cbn [negb andb]. exact IH.
Qed.

(** ** Numbers *)

Lemma or_zero_not_NaN (a : number) : or a zero <> NaN.
Proof.
  unfold or. destruct (truthy a) eqn:H; [| discriminate].
  destruct a; simpl in H; discriminate.
Qed.

Lemma dimension_fin (offset : option Z) (ofRect : Q) :
  exists q, dimension offset ofRect = Fin q.
Proof.
  unfold dimension, or, of_Z. destruct offset as [z|]; [| eauto].
  destruct (truthy (Fin (inject_Z z))); eauto.
Qed.

Lemma min_fin (p q : Q) : exists m, min (Fin p) (Fin q) = Fin m.
Proof. unfold min. destruct (lt (Fin q) (Fin p)); eauto. Qed.

Lemma half_fin (q : Q) : exists m, div (Fin q) (of_Z 2) = Fin m.
Proof. unfold div, of_Z, fin. cbn. eauto. Qed.

Lemma div_positive_not_NaN (r : number) (q : Q) :
  gt r zero = true -> div r (Fin q) <> NaN.
Proof.
  unfold gt, lt, zero, of_Z.
  destruct r as [| | | p]; try discriminate; intros Hpos.
  - cbn. destruct (sign q); discriminate.
  - assert (Hp : sign p = Gt).
    { unfold sign. destruct (Qcompare (inject_Z 0) p) eqn:Hc; try discriminate.
      apply Qlt_alt in Hc. apply Qgt_alt. exact Hc. }
    cbn. rewrite Hp. destruct (sign q); discriminate.
Qed.

Lemma min_one_le_one (a : number) : a <> NaN -> le (min one a) one = true.
Proof.
  intros Ha. unfold min.
  assert (H1 : le one one = true) by reflexivity.
  destruct a as [| | | q]; [congruence | reflexivity | reflexivity |].
  change (le (if lt (Fin q) one then Fin q else one) one = true).
  destruct (lt (Fin q) one) eqn:Hlt; [| exact H1].
  unfold le. rewrite Hlt. reflexivity.
Qed.

(** The three cases of [shapeKind], and the bound on the fraction. *)
Lemma shapeKind_cases (radius : number) (w h : Q) :
  radius <> NaN ->
  let kind := fst (shapeKind radius (Fin w) (Fin h)) in
  let fraction := snd (shapeKind radius (Fin w) (Fin h)) in
  if ge radius (sub (div (min (Fin w) (Fin h)) (of_Z 2)) one)
     && lt (abs (sub (Fin w) (Fin h))) (of_Z 2)
  then kind = ellipse
  else if gt radius zero
       then kind = roundRect
            /\ fraction = Some (min one (div radius (div (min (Fin w) (Fin h)) (of_Z 2))))
            /\ exists f, fraction = Some f /\ le f one = true
       else kind = rect.
Proof.
  intros Hr. unfold shapeKind, isCircle.
  destruct (ge radius (sub (div (min (Fin w) (Fin h)) (of_Z 2)) one)
            && lt (abs (sub (Fin w) (Fin h))) (of_Z 2)); [reflexivity |].
  destruct (gt radius zero) eqn:Hpos; [| reflexivity].
  cbn [fst snd]. split; [reflexivity |]. split; [reflexivity |].
  eexists; split; [reflexivity |].
  apply min_one_le_one.
  destruct (min_fin w h) as [m ->]. destruct (half_fin m) as [m' ->].
  apply div_positive_not_NaN; exact Hpos.
Qed.

(** ** Real numbers *)

Lemma sign_positive (r : R) : (0 < r)%R -> Real.sign r = Gt.
Proof. intros H. unfold Real.sign. destruct (Rlt_dec 0 r); [reflexivity | contradiction]. Qed.

Lemma sign_negative (r : R) : (r < 0)%R -> Real.sign r = Lt.
Proof.
  intros H. unfold Real.sign.
  destruct (Rlt_dec 0 r); [lra |]. destruct (Rlt_dec r 0); [reflexivity | contradiction].
Qed.

Lemma sign_zero : Real.sign 0%R = Eq.
Proof.
  unfold Real.sign. destruct (Rlt_dec 0 0); [lra |]. destruct (Rlt_dec 0 0); [lra | reflexivity].
Qed.

Lemma round_integer (z : Z) : Real.round (Fin (IZR z)) = Fin (IZR z).
Proof.
  cbn [Real.round]. f_equal. f_equal. apply Zfloor_eq. lra.
Qed.

Lemma Q2R_integer (z : Z) : Q2R (inject_Z z) = IZR z.
Proof. unfold Q2R, inject_Z. cbn. lra. Qed.

(** ** Rotation *)

Lemma getRotation_absent (transformStr : string) :
  transformStr = "" \/ transformStr = "none" -> getRotation transformStr = Ok (Fin 0%R).
Proof. intros [-> | ->]; reflexivity. Qed.

(** With an opening parenthesis in the string, [getRotation] returns. *)
Lemma getRotation_returns (transformStr : string) :
  Str.includes transformStr "(" = true -> exists r, getRotation transformStr = Ok r.
Proof.
  rewrite includes_char, negb_true_iff. intros H.
  destruct (lacks_decompose _ _ H) as [u [v [-> Hu]]].
  unfold getRotation.
  destruct (negb (Str.truthy (u ++ String "(" v)) || String.eqb (u ++ String "(" v) "none");
    [eauto |].
  rewrite split_at by exact Hu.
  destruct (split_on_not_empty "(" v "") as [piece [pieces E]].
  unfold Str.split at 1. rewrite E.
  destruct (Nat.ltb _ 4); eauto.
Qed.

(** Without one, it returns for the empty string and for [none] only. *)
Lemma getRotation_throws (transformStr : string) :
  Str.truthy transformStr = true -> transformStr <> "none" ->
  Str.includes transformStr "(" = false ->
  getRotation transformStr
  = Throw "TypeError: Cannot read properties of undefined (reading 'split')".
Proof.
  rewrite includes_char, negb_false_iff. intros Ht Hn Hl.
  unfold getRotation. rewrite Ht.
  destruct (String.eqb_spec transformStr "none") as [E | _]; [contradiction |].
  cbn [negb orb]. rewrite split_lacks by exact Hl. reflexivity.
Qed.

(** A function notation: a name, and between parentheses entries that
    are separated by commas. *)
Lemma getRotation_notation (name : string) (values : list string) :
  Spec.lacks "(" name = true ->
  values <> [] ->
  Forall (fun v => Spec.plainValue v = true) values ->
  getRotation (name ++ "(" ++ Spec.joinWith "," values ++ ")")
  = Ok (if Nat.ltb (List.length values) 4 then Fin 0%R
        else Real.round
               (Real.mul
                  (Real.atan2 (Real.of_number (parseFloat (item 1 values)))
                     (Real.of_number (parseFloat (item 0 values))))
                  Real.deg_per_rad)).
Proof.
  intros Hname Hne Hall.
  assert (Hopen : Forall (fun v => Spec.lacks "(" v = true) values).
  { eapply Forall_impl; [| exact Hall]. intros v. unfold Spec.plainValue.
    rewrite !andb_true_iff. tauto. }
  assert (Hclose : Forall (fun v => Spec.lacks ")" v = true) values).
  { eapply Forall_impl; [| exact Hall]. intros v. unfold Spec.plainValue.
    rewrite !andb_true_iff. tauto. }
  assert (Hcomma : Forall (fun v => Spec.lacks "," v = true) values).
  { eapply Forall_impl; [| exact Hall]. intros v. unfold Spec.plainValue.
    rewrite !andb_true_iff. tauto. }
  set (args := Spec.joinWith "," values).
  assert (Hargs_open : Spec.lacks "(" args = true)
    by (apply lacks_joinWith; [reflexivity | exact Hopen]).
  assert (Hargs_close : Spec.lacks ")" args = true)
    by (apply lacks_joinWith; [reflexivity | exact Hclose]).
  change (name ++ "(" ++ args ++ ")") with (name ++ String "(" (args ++ ")")).
  unfold getRotation.
  assert (Htruthy : Str.truthy (name ++ String "(" (args ++ ")")) = true)
    by (destruct name; reflexivity).
  rewrite Htruthy.
  destruct (String.eqb_spec (name ++ String "(" (args ++ ")")) "none") as [E | _].
  { pose proof (lacks_at "(" name (args ++ ")")) as Hat. rewrite E in Hat. discriminate. }
  cbn [negb orb].
  rewrite split_at by exact Hname.
  rewrite split_lacks by (rewrite lacks_app, Hargs_open; reflexivity).
  change (args ++ ")") with (args ++ String ")" "").
  rewrite split_at by exact Hargs_close.
  cbn [first_or_empty].
  unfold args. rewrite split_joinWith by assumption.
  destruct (Nat.ltb (List.length values) 4); reflexivity.
Qed.

(** A quarter turn: [atan2(1, 0)] is 90 degrees. *)
Lemma getRotation_quarter_turn :
  getRotation "matrix(0, 1, -1, 0, 0, 0)" = Ok (Fin 90%R).
Proof.
  change "matrix(0, 1, -1, 0, 0, 0)"
    with ("matrix" ++ "(" ++ Spec.joinWith "," ["0"; " 1"; " -1"; " 0"; " 0"; " 0"] ++ ")").
  rewrite getRotation_notation;
    [| reflexivity | discriminate | repeat constructor].
  cbn [List.length Nat.ltb Nat.leb item nth].
  replace (parseFloat " 1") with (of_Z 1) by (vm_compute; reflexivity).
  replace (parseFloat "0") with (of_Z 0) by (vm_compute; reflexivity).
  cbn [Real.of_number of_Z Real.atan2]. rewrite !Q2R_integer.
  unfold Real.atan2_fin. rewrite sign_zero, (sign_positive 1) by lra.
  cbn [Real.mul Real.deg_per_rad].
  replace (PI / 2 * (180 / PI))%R with 90%R by (field; apply PI_neq0).
  rewrite round_integer. reflexivity.
Qed.

(** Entries that are not numbers give NaN, not 0. *)
Lemma getRotation_not_a_number :
  getRotation "matrix(a, b, c, d)" = Ok NaN.
Proof.
  change "matrix(a, b, c, d)"
    with ("matrix" ++ "(" ++ Spec.joinWith "," ["a"; " b"; " c"; " d"] ++ ")").
  rewrite getRotation_notation;
    [| reflexivity | discriminate | repeat constructor].
  cbn [List.length Nat.ltb Nat.leb item nth].
  replace (parseFloat " b") with (@NaN Q) by (vm_compute; reflexivity).
  reflexivity.
Qed.

(** C7, as stated, fails: a string without parentheses makes
    [getRotation] throw. *)
Lemma getRotation_throws_on_rotate :
  getRotation "rotate"
  = Throw "TypeError: Cannot read properties of undefined (reading 'split')"
  /\ getRotation "rotate" <> Ok (Fin 0%R).
Proof. split; [reflexivity | discriminate]. Qed.

(** C7, amended.  For an absent transform (empty or [none])
    [getRotation] returns 0; for every string with an opening
    parenthesis it returns a number; for a function notation with plain
    entries it returns 0 when there are fewer than four entries, and
    otherwise [atan2(b, a)] in degrees, rounded, where [a] and [b] are the
    two leading entries as [parseFloat] reads them; and the matrix of a
    quarter turn gives 90. *)
Theorem getRotation_of_computed_transform :
  (forall transformStr,
     transformStr = "" \/ transformStr = "none" ->
     getRotation transformStr = Ok (Fin 0%R))
  /\ (forall transformStr,
        Str.includes transformStr "(" = true ->
        exists r, getRotation transformStr = Ok r)
  /\ (forall name values,
        Spec.lacks "(" name = true ->
        values <> [] ->
        Forall (fun v => Spec.plainValue v = true) values ->
        getRotation (name ++ "(" ++ Spec.joinWith "," values ++ ")")
        = Ok (if Nat.ltb (List.length values) 4 then Fin 0%R
              else Real.round
                     (Real.mul
                        (Real.atan2 (Real.of_number (parseFloat (item 1 values)))
                           (Real.of_number (parseFloat (item 0 values))))
                        Real.deg_per_rad)))
  /\ getRotation "matrix(0, 1, -1, 0, 0, 0)" = Ok (Fin 90%R).
Proof.
  split; [exact getRotation_absent |].
  split; [exact getRotation_returns |].
  split; [exact getRotation_notation |].
  exact getRotation_quarter_turn.
Qed.

Lemma getRotation_of_computed_transform_witness :
  getRotation "none" = Ok (Fin 0%R)
  /\ (exists r, getRotation "matrix(1, 0, 0, 1, 0, 0)" = Ok r)
  /\ getRotation ("rotate" ++ "(" ++ Spec.joinWith "," ["45deg"] ++ ")") = Ok (Fin 0%R).
Proof.
  destruct getRotation_of_computed_transform as [Habsent [Hreturns [Hnotation _]]].
  split; [apply Habsent; right; reflexivity |].
  split; [apply Hreturns; vm_compute; reflexivity |].
  apply (Hnotation "rotate" ["45deg"]);
    [vm_compute; reflexivity | discriminate | repeat constructor].
Defined.

(** ** Shadows *)

Lemma firstVisibleShadow_cons (e : string) (entries : list string) (scale : number) :
  firstVisibleShadow (e :: entries) scale
  = match Spec.visibleEntry e with
    | Some m => Some (shadowOfMatch m scale)
    | None => firstVisibleShadow entries scale
    end.
Proof.
  cbn [firstVisibleShadow]. unfold Spec.visibleEntry.
  destruct (Str.startsWith (Str.trim e) "rgba(0, 0, 0, 0)"); reflexivity.
Qed.

Lemma firstVisibleShadow_some (entries : list string) (scale : number) (sh : Shadow) :
  firstVisibleShadow entries scale = Some sh ->
  exists before entry after m,
    entries = (before ++ entry :: after)%list
    /\ Forall (fun e => Spec.visibleEntry e = None) before
    /\ Spec.visibleEntry entry = Some m
    /\ sh = shadowOfMatch m scale.
Proof.
  induction entries as [| e entries IH]; [discriminate |].
  rewrite firstVisibleShadow_cons.
  destruct (Spec.visibleEntry e) as [m |] eqn:Hv.
  - intros H. injection H as <-.
    exists [], e, entries, m. repeat split; [constructor | exact Hv].
  - intros H.
    destruct (IH H) as [before [entry [after [m [-> [Hb [He ->]]]]]]].
    exists (e :: before), entry, after, m.
    repeat split; [constructor; assumption | exact He].
Qed.

Lemma firstVisibleShadow_none (entries : list string) (scale : number) :
  Forall (fun e => Spec.visibleEntry e = None) entries ->
  firstVisibleShadow entries scale = None.
Proof.
  induction 1 as [| e entries He _ IH]; [reflexivity |].
  rewrite firstVisibleShadow_cons, He. exact IH.
Qed.

Lemma firstVisibleShadow_first (before : list string) (entry : string)
    (after : list string) (m : Regex.found) (scale : number) :
  Forall (fun e => Spec.visibleEntry e = None) before ->
  Spec.visibleEntry entry = Some m ->
  firstVisibleShadow (before ++ entry :: after) scale = Some (shadowOfMatch m scale).
Proof.
  intros Hbefore Hentry. induction Hbefore as [| e before He _ IH]; cbn [app];
    rewrite firstVisibleShadow_cons.
  - rewrite Hentry. reflexivity.
  - rewrite He. exact IH.
Qed.

Lemma sign_cases (r : R) :
  (Real.sign r = Gt /\ (0 < r)%R) \/ (Real.sign r = Eq /\ r = 0%R)
  \/ (Real.sign r = Lt /\ (r < 0)%R).
Proof.
  destruct (Rtotal_order r 0) as [H | [H | H]].
  - right; right. split; [apply sign_negative | ]; exact H.
  - right; left. subst. split; [apply sign_zero | reflexivity].
  - left. split; [apply sign_positive | ]; exact H.
Qed.

Lemma atan_positive (t : R) : (0 < t)%R -> (0 < atan t)%R.
Proof. intros H. rewrite <- atan_0. apply atan_increasing. exact H. Qed.

Lemma atan_not_positive (t : R) : (t <= 0)%R -> (atan t <= 0)%R.
Proof.
  intros [H | ->]; [| rewrite atan_0; lra].
  apply Rlt_le. rewrite <- atan_0. apply atan_increasing. exact H.
Qed.

(** [atan2] lies in the half-open turn from minus pi to pi. *)
Lemma atan2_fin_range (y x : R) :
  (- PI < Real.atan2_fin y x <= PI)%R.
Proof.
  pose proof PI_RGT_0 as Hpi.
  pose proof (atan_bound (y / x)) as Hb.
  unfold Real.atan2_fin.
  destruct (sign_cases x) as [[-> Hx] | [[-> Hx] | [-> Hx]]].
  - lra.
  - destruct (sign_cases y) as [[-> Hy] | [[-> Hy] | [-> Hy]]]; lra.
  - assert (Hinv : (/ x < 0)%R) by (apply Rinv_lt_0_compat; exact Hx).
    destruct (sign_cases y) as [[-> Hy] | [[-> Hy] | [-> Hy]]].
    + assert (Hq : (y / x <= 0)%R) by (unfold Rdiv; nra).
      pose proof (atan_not_positive _ Hq). lra.
    + assert (Hq : (y / x <= 0)%R) by (unfold Rdiv; nra).
      pose proof (atan_not_positive _ Hq). lra.
    + assert (Hq : (0 < y / x)%R) by (unfold Rdiv; nra).
      pose proof (atan_positive _ Hq). lra.
Qed.

Lemma degrees_range (a : R) :
  (- PI < a <= PI)%R -> (-180 < a * (180 / PI) <= 180)%R.
Proof.
  intros [Hlo Hhi]. pose proof PI_RGT_0 as Hpi.
  assert (Hk : (0 < 180 / PI)%R) by (apply Rdiv_lt_0_compat; lra).
  assert (H180 : (PI * (180 / PI) = 180)%R) by (field; lra).
  split.
  - replace (-180)%R with (- PI * (180 / PI))%R by lra.
    apply Rmult_lt_compat_r; assumption.
  - apply Rle_trans with (PI * (180 / PI))%R; [| lra].
    apply Rmult_le_compat_r; lra.
Qed.

(** The angle of a shadow with finite offsets: [atan2(y, x)] in
    degrees, plus a turn when that is negative; it lies in [0, 360). *)
Lemma shadow_angle (m : Regex.found) (scale : number) (qx qy : Q) :
  parseFloat (capture 2 m) = Fin qx ->
  parseFloat (capture 3 m) = Fin qy ->
  let degrees := (Real.atan2_fin (Q2R qy) (Q2R qx) * (180 / PI))%R in
  exists a,
    angle (shadowOfMatch m scale) = Fin a
    /\ (0 <= a < 360)%R
    /\ a = if Rlt_dec degrees 0 then (degrees + 360)%R else degrees.
Proof.
  intros Hx Hy degrees.
  pose proof (degrees_range _ (atan2_fin_range (Q2R qy) (Q2R qx))) as Hrange.
  fold degrees in Hrange.
  unfold shadowOfMatch. cbn [angle]. rewrite Hx, Hy.
  cbn [Real.of_number Real.atan2 Real.mul Real.deg_per_rad Real.lt].
  fold degrees.
  destruct (Rlt_dec degrees 0) as [Hneg | Hpos]; cbn [Real.add].
  - exists (degrees + 360)%R. repeat split; lra.
  - exists degrees. repeat split; lra.
Qed.

Lemma Q2R_fin (q : Q) : Q2R (Qred q) = Q2R q.
Proof. apply Qeq_eqR. apply Qred_correct. Qed.

(** The distance of a shadow with finite offsets, scaled. *)
Lemma shadow_offset (m : Regex.found) (scale : number) (qx qy : Q) :
  parseFloat (capture 2 m) = Fin qx ->
  parseFloat (capture 3 m) = Fin qy ->
  offset (shadowOfMatch m scale)
  = Real.mul
      (Real.mul (Fin (sqrt (Q2R qx * Q2R qx + Q2R qy * Q2R qy)))
         (Real.of_number three_quarters))
      (Real.of_number scale).
Proof.
  intros Hx Hy. unfold shadowOfMatch. cbn [offset]. rewrite Hx, Hy.
  cbn [mul add fin Real.of_number Real.sqrt].
  rewrite Q2R_fin, Q2R_plus, !Q2R_fin, !Q2R_mult.
  destruct (Rlt_dec (Q2R qx * Q2R qx + Q2R qy * Q2R qy) 0) as [Hneg | _];
    [| reflexivity].
  exfalso. nra.
Qed.

(** *** The angle of the offsets 4 and 3 *)

(** The series of the arc tangent encloses it, for an argument between
    0 and 1. *)
Lemma atan_series_bounds (x : R) (N : nat) :
  (0 < x < 1)%R ->
  (sum_f_R0 (tg_alt (Ratan_seq x)) (S (2 * N)) <= atan x
   <= sum_f_R0 (tg_alt (Ratan_seq x)) (2 * N))%R.
Proof.
  intros Hx. rewrite atan_eq_ps_atan by exact Hx. unfold ps_atan.
  destruct (in_int x) as [Hin | Hout]; [| exfalso; apply Hout; lra].
  destruct (ps_atan_exists_1 x Hin) as [v Pv].
  apply alternated_series_ineq;
    [apply Ratan_seq_decreasing; lra | apply Ratan_seq_converging; lra | exact Pv].
Qed.

Lemma atan_seventh_bounds :
  (141885 / 1000000 < atan (/ 7) < 141898 / 1000000)%R.
Proof.
  pose proof (atan_series_bounds (/ 7) 1 ltac:(lra)) as [Hlo Hhi].
  unfold tg_alt, Ratan_seq in Hlo, Hhi. simpl in Hlo, Hhi.
  split; lra.
Qed.

Lemma PI_bounds : (31415 / 10000 < PI < 31421 / 10000)%R.
Proof.
  pose proof (PI_2_3_7_ineq 1) as [Hlo Hhi].
  unfold PI_2_3_7_tg, tg_alt, Ratan_seq in Hlo, Hhi. simpl in Hlo, Hhi.
  split; lra.
Qed.

Lemma atan_three_quarters : (atan (3 / 4) = PI / 4 - atan (/ 7))%R.
Proof.
  rewrite <- atan_1.
  pose proof (atan_bound 1) as H1. pose proof (atan_bound (3 / 4)) as H2.
  pose proof (atan_bound (/ 7)) as H3.
  assert (Hinc : (atan (3 / 4) < atan 1)%R) by (apply atan_increasing; lra).
  assert (Hpos : (0 < atan (3 / 4))%R) by (apply atan_positive; lra).
  assert (Hsub : atan_sub 1 (3 / 4) = (/ 7)%R) by (unfold atan_sub; field).
  rewrite (atan_sub_correct 1 (3 / 4)); rewrite ?Hsub; [ring | lra | lra | exact H3].
Qed.

(** [atan2(3, 4)] is 36.87 degrees, to two places. *)
Lemma angle_of_4_3 : (3686 / 100 < atan (3 / 4) * (180 / PI) < 3688 / 100)%R.
Proof.
  rewrite atan_three_quarters.
  pose proof atan_seventh_bounds as [Alo Ahi].
  pose proof PI_bounds as [Plo Phi].
  assert (Hpi : (0 < PI)%R) by lra.
  replace ((PI / 4 - atan (/ 7)) * (180 / PI))%R
    with (45 - 180 * atan (/ 7) / PI)%R by (field; lra).
  assert (Hscale : (180 * atan (/ 7) / PI * PI = 180 * atan (/ 7))%R) by (field; lra).
  assert (Hlo : (812 / 100 < 180 * atan (/ 7) / PI)%R).
  { apply (Rmult_lt_reg_r PI); [exact Hpi |]. rewrite Hscale. lra. }
  assert (Hhi : (180 * atan (/ 7) / PI < 814 / 100)%R).
  { apply (Rmult_lt_reg_r PI); [exact Hpi |]. rewrite Hscale. lra. }
  lra.
Qed.

Lemma shadow_eta (sh : Shadow) :
  sh = {| sh_type := sh_type sh; angle := angle sh; blur := blur sh;
          offset := offset sh; sh_color := sh_color sh; sh_opacity := sh_opacity sh |}.
Proof. destruct sh; reflexivity. Qed.

(** The shadow of the specification's example, at any scale. *)
Lemma shadow_of_4_3_5 (scale : number) :
  getVisibleShadow "rgba(0,0,0,0.5) 4px 3px 5px" scale
  = Some {| sh_type := "outer";
            angle := Fin (atan (3 / 4) * (180 / PI))%R;
            blur := mul (mul (of_Z 5) three_quarters) scale;
            offset :=
              Real.mul (Real.mul (Fin 5%R) (Real.of_number three_quarters))
                (Real.of_number scale);
            sh_color := "000000";
            sh_opacity := Fin (1 # 2)%Q |}.
Proof.
  set (m := {| Regex.index := 0;
               Regex.matched := "rgba(0,0,0,0.5) 4px 3px 5px";
               Regex.groups := [(4, "5"); (3, "3"); (2, "4"); (1, "rgba(0,0,0,0.5)")];
               Regex.after := "" |}).
  assert (Hrun : getVisibleShadow "rgba(0,0,0,0.5) 4px 3px 5px" scale
                 = Some (shadowOfMatch m scale)).
  { unfold getVisibleShadow.
    replace (Regex.split re_comma "rgba(0,0,0,0.5) 4px 3px 5px")
      with ["rgba(0,0,0,0.5) 4px 3px 5px"] by (vm_compute; reflexivity).
    rewrite firstVisibleShadow_cons.
    replace (Spec.visibleEntry "rgba(0,0,0,0.5) 4px 3px 5px") with (Some m)
      by (vm_compute; reflexivity).
    reflexivity. }
  rewrite Hrun. f_equal.
  assert (Hx : parseFloat (capture 2 m) = Fin (inject_Z 4)) by (vm_compute; reflexivity).
  assert (Hy : parseFloat (capture 3 m) = Fin (inject_Z 3)) by (vm_compute; reflexivity).
  rewrite (shadow_eta (shadowOfMatch m scale)).
  rewrite (shadow_offset m scale _ _ Hx Hy).
  destruct (shadow_angle m scale _ _ Hx Hy) as [a [-> [_ ->]]].
  rewrite !Q2R_integer.
  replace (sqrt (4 * 4 + 3 * 3)) with 5%R
    by (symmetry; apply sqrt_lem_1; lra).
  unfold Real.atan2_fin. rewrite (sign_positive 4) by lra.
  pose proof angle_of_4_3 as [Hlo _].
  destruct (Rlt_dec (atan (3 / 4) * (180 / PI)) 0) as [Hneg | _]; [lra |].
  unfold shadowOfMatch. cbn [sh_type blur sh_color sh_opacity].
  replace (parseFloat (capture 4 m)) with (of_Z 5) by (vm_compute; reflexivity).
  replace (parseColor (capture 1 m))
    with {| hex := Some "000000"; alpha := Fin (1 # 2)%Q |} by (vm_compute; reflexivity).
  reflexivity.
Qed.

(** C3, as stated, fails: an inset entry is taken like any other, here
    ahead of the red shadow that is not inset; and so is an entry whose
    colour is fully transparent but is not the transparent black, here
    ahead of the blue shadow that can be seen. *)
Lemma getVisibleShadow_takes_inset :
  option_map sh_color
    (getVisibleShadow
       "rgba(0, 0, 0, 0.5) 4px 3px 5px 0px inset, rgb(255, 0, 0) 1px 1px 2px 0px" one)
  = Some "000000"
  /\ option_map sh_color
       (getVisibleShadow
          "rgba(0, 0, 0, 0.5) 4px 3px 5px 0px inset, rgb(255, 0, 0) 1px 1px 2px 0px" one)
     <> Some "FF0000"
  /\ option_map (fun sh => (sh_color sh, sh_opacity sh))
       (getVisibleShadow
          "rgba(255, 0, 0, 0) 1px 1px 2px 0px, rgb(0, 0, 255) 4px 3px 5px 0px" one)
     = Some ("FF0000", zero).
Proof. split; [lazy; reflexivity | split; [lazy; discriminate | lazy; reflexivity]]. Qed.

(** C3, amended.  The converter returns null for the empty string and
    for [none].  For every other string it returns the descriptor of the
    first entry of the list (the string split at the commas outside
    parentheses) that, trimmed, does not start with the transparent black
    of computed styles and holds a colour followed by three lengths in
    px, and null when the list has no such entry.  Nothing but the text
    of the transparent black makes an entry be passed over: another
    colour of opacity 0 is converted, with the opacity 0, and whether the
    entry says [inset] is not looked at.  For finite offsets [x] and [y]
    the angle is [atan2(y, x)] in degrees, plus 360 when that is
    negative, and lies in [0, 360); the distance is [sqrt(x*x + y*y)],
    and blur and distance are scaled by 0.75 and by the scale.  The entry
    [rgba(0,0,0,0.5) 4px 3px 5px] gives the distance 5 and the angle
    [atan2(3, 4)], which is 36.87 degrees to two places. *)
Theorem getVisibleShadow_first_visible_entry :
  (forall scale,
     getVisibleShadow "" scale = None /\ getVisibleShadow "none" scale = None)
  /\ (forall shadowStr scale before entry after m,
        shadowStr <> "" -> shadowStr <> "none" ->
        Regex.split re_comma shadowStr = (before ++ entry :: after)%list ->
        Forall (fun e => Spec.visibleEntry e = None) before ->
        Spec.visibleEntry entry = Some m ->
        getVisibleShadow shadowStr scale = Some (shadowOfMatch m scale))
  /\ (forall shadowStr scale,
        Forall (fun e => Spec.visibleEntry e = None) (Regex.split re_comma shadowStr) ->
        getVisibleShadow shadowStr scale = None)
  /\ (forall shadowStr scale sh,
        getVisibleShadow shadowStr scale = Some sh ->
        exists before entry after m,
          Regex.split re_comma shadowStr = (before ++ entry :: after)%list
          /\ Forall (fun e => Spec.visibleEntry e = None) before
          /\ Spec.visibleEntry entry = Some m
          /\ sh = shadowOfMatch m scale)
  /\ (forall m scale qx qy,
        parseFloat (capture 2 m) = Fin qx ->
        parseFloat (capture 3 m) = Fin qy ->
        let sh := shadowOfMatch m scale in
        let degrees := (Real.atan2_fin (Q2R qy) (Q2R qx) * (180 / PI))%R in
        (exists a,
           angle sh = Fin a /\ (0 <= a < 360)%R
           /\ a = if Rlt_dec degrees 0 then (degrees + 360)%R else degrees)
        /\ offset sh
           = Real.mul
               (Real.mul (Fin (sqrt (Q2R qx * Q2R qx + Q2R qy * Q2R qy)))
                  (Real.of_number three_quarters))
               (Real.of_number scale)
        /\ blur sh = mul (mul (parseFloat (capture 4 m)) three_quarters) scale)
  /\ (forall scale,
        getVisibleShadow "rgba(0,0,0,0.5) 4px 3px 5px" scale
        = Some {| sh_type := "outer";
                  angle := Fin (atan (3 / 4) * (180 / PI))%R;
                  blur := mul (mul (of_Z 5) three_quarters) scale;
                  offset :=
                    Real.mul (Real.mul (Fin 5%R) (Real.of_number three_quarters))
                      (Real.of_number scale);
                  sh_color := "000000";
                  sh_opacity := Fin (1 # 2)%Q |})
  /\ (3686 / 100 < atan (3 / 4) * (180 / PI) < 3688 / 100)%R
  /\ Spec.visibleEntry "rgba(0, 0, 0, 0) 1px 1px 2px 0px" = None
  /\ option_map (fun m => (capture 1 m, capture 2 m, capture 3 m, capture 4 m))
       (Spec.visibleEntry "rgba(255, 0, 0, 0) 1px 1px 2px 0px")
     = Some ("rgba(255, 0, 0, 0)", "1", "1", "2")
  /\ option_map (fun m => (capture 1 m, capture 2 m, capture 3 m, capture 4 m))
       (Spec.visibleEntry " rgb(0, 0, 255) -4px 3px 5px 0px inset")
     = Some ("rgb(0, 0, 255)", "-4", "3", "5").
Proof.
  split.
  { intros scale. split; reflexivity. }
  split.
  { intros shadowStr scale before entry after m Hne Hnone Hsplit Hbefore Hentry.
    unfold getVisibleShadow.
    assert (Hguard : negb (Str.truthy shadowStr) || String.eqb shadowStr "none" = false).
    { apply String.eqb_neq in Hnone. rewrite Hnone.
      destruct shadowStr; [congruence | reflexivity]. }
    rewrite Hguard, Hsplit. apply firstVisibleShadow_first; assumption. }
  split.
  { intros shadowStr scale Hall. unfold getVisibleShadow.
    destruct (negb (Str.truthy shadowStr) || String.eqb shadowStr "none");
      [reflexivity | apply firstVisibleShadow_none; exact Hall]. }
  split.
  { intros shadowStr scale sh H. unfold getVisibleShadow in H.
    destruct (negb (Str.truthy shadowStr) || String.eqb shadowStr "none");
      [discriminate |].
    apply firstVisibleShadow_some. exact H. }
  split.
  { intros m scale qx qy Hx Hy sh degrees.
    split; [apply shadow_angle; assumption |].
    split; [apply shadow_offset; assumption | reflexivity]. }
  split; [exact shadow_of_4_3_5 |]. split; [exact angle_of_4_3 |].
  split; [vm_compute; reflexivity |]. split; vm_compute; reflexivity.
Qed.

Lemma getVisibleShadow_first_visible_entry_witness :
  (exists m,
     Spec.visibleEntry "rgba(0,0,0,0.5) 4px 3px 5px" = Some m
     /\ getVisibleShadow "rgba(0,0,0,0.5) 4px 3px 5px" one = Some (shadowOfMatch m one))
  /\ getVisibleShadow "inset 0 0 4px" one = None
  /\ (exists before entry after m,
        Regex.split re_comma "rgba(0,0,0,0.5) 4px 3px 5px" = (before ++ entry :: after)%list
        /\ Forall (fun e => Spec.visibleEntry e = None) before
        /\ Spec.visibleEntry entry = Some m
        /\ {| sh_type := "outer";
              angle := Fin (atan (3 / 4) * (180 / PI))%R;
              blur := mul (mul (of_Z 5) three_quarters) one;
              offset :=
                Real.mul (Real.mul (Fin 5%R) (Real.of_number three_quarters))
                  (Real.of_number one);
              sh_color := "000000";
              sh_opacity := Fin (1 # 2)%Q |} = shadowOfMatch m one)
  /\ blur (shadowOfMatch
             {| Regex.index := 0; Regex.matched := "#000 1px -2px 3px";
                Regex.groups := [(4, "3"); (3, "-2"); (2, "1"); (1, "#000")];
                Regex.after := "" |} one)
     = mul (mul (parseFloat "3") three_quarters) one.
Proof.
  destruct getVisibleShadow_first_visible_entry
    as [_ [Htakes [Hnull [Hfirst [Hconv [Hex _]]]]]].
  split; [| split; [| split]].
  - destruct (Spec.visibleEntry "rgba(0,0,0,0.5) 4px 3px 5px") as [m |] eqn:Hm;
      [| vm_compute in Hm; discriminate].
    exists m. split; [reflexivity |].
    apply (Htakes "rgba(0,0,0,0.5) 4px 3px 5px" one [] "rgba(0,0,0,0.5) 4px 3px 5px" [] m);
      [discriminate | discriminate | vm_compute; reflexivity | constructor | exact Hm].
  - apply (Hnull "inset 0 0 4px" one). vm_compute. repeat constructor.
  - apply (Hfirst _ one). apply Hex.
  - refine (proj2 (proj2 (Hconv _ one (inject_Z 1) (inject_Z (-2)) _ _)));
      vm_compute; reflexivity.
Defined.

(** ** Gradients *)

(** The four direction keywords and the axes they stand for. *)
Lemma gradientDirection_keywords :
  gradientDirection "to right" = ({| x1 := "0%"; y1 := "0%"; x2 := "100%"; y2 := "0%" |}, 1)
  /\ gradientDirection "to left" = ({| x1 := "100%"; y1 := "0%"; x2 := "0%"; y2 := "0%" |}, 1)
  /\ gradientDirection "to top" = ({| x1 := "0%"; y1 := "100%"; x2 := "0%"; y2 := "0%" |}, 1)
  /\ gradientDirection "to bottom" = ({| x1 := "0%"; y1 := "0%"; x2 := "0%"; y2 := "100%" |}, 1).
Proof. repeat split; vm_compute; reflexivity. Qed.

(** Without a keyword the axis runs from top to bottom, and the first
    term is a stop. *)
Lemma gradientDirection_default (first : string) :
  Str.includes first "to right" = false -> Str.includes first "to left" = false ->
  Str.includes first "to top" = false -> Str.includes first "to bottom" = false ->
  gradientDirection first = ({| x1 := "0%"; y1 := "0%"; x2 := "0%"; y2 := "100%" |}, 0).
Proof. unfold gradientDirection. intros -> -> -> ->. reflexivity. Qed.

(** The example of the specification. *)
Lemma gradient_to_right (fraction_toString : Q -> string) :
  gradientAxisAndStops fraction_toString "linear-gradient(to right, #000 0%, #fff 100%)"
  = Some ({| x1 := "0%"; y1 := "0%"; x2 := "100%"; y2 := "0%" |},
          [ {| stop_offset := "0%"; stop_color := "#000"; stop_opacity := "1" |};
            {| stop_offset := "100%"; stop_color := "#fff"; stop_opacity := "1" |} ]).
Proof. vm_compute. reflexivity. Qed.

(** Stops without an offset of their own, four of them: 0, 33, 67 and
    100 percent. *)
Lemma gradient_four_stops (fraction_toString : Q -> string) :
  List.map stop_offset
    (match gradientAxisAndStops fraction_toString
             "linear-gradient(rgb(255, 0, 0), rgba(0, 0, 255, 0.5), green, blue)" with
     | Some (_, stops) => stops
     | None => []
     end)
  = ["0%"; "33%"; "67%"; "100%"].
Proof. vm_compute. reflexivity. Qed.

Lemma Qred_inject_Z (k : Z) : Qred (inject_Z k) = inject_Z k.
Proof.
  unfold Qred, inject_Z.
  pose proof (Z.ggcd_correct_divisors k 1) as Hd.
  pose proof (Z.ggcd_gcd k 1) as Hg.
  destruct (Z.ggcd k 1) as [g [aa bb]]. cbn [fst snd] in *.
  rewrite Z.gcd_1_r in Hg. subst g. destruct Hd as [Ha Hb].
  rewrite Z.mul_1_l in Ha, Hb. subst. reflexivity.
Qed.

Lemma Number_toString_integer (fraction_toString : Q -> string) (k : Z) :
  Number_toString fraction_toString (of_Z k) = Z_toString 10 k.
Proof. unfold Number_toString, of_Z. rewrite Qred_inject_Z. reflexivity. Qed.

Lemma sign_of_positive (q : Q) : (0 < q)%Q -> Num.sign q = Gt.
Proof. intros H. unfold Num.sign. apply Qgt_alt. exact H. Qed.

(** With two stops or more, the offset of a stop without one of its own
    is a whole number of percent from 0 to 100. *)
Lemma evenOffset_percent (fraction_toString : Q -> string) (count idx : nat) :
  2 <= count -> idx < count ->
  exists k, (0 <= k <= 100)%Z
            /\ evenOffset fraction_toString count idx = Z_toString 10 k ++ "%".
Proof.
  intros Hcount Hidx. unfold evenOffset.
  set (d := Qred (inject_Z (Z.of_nat count) + Qred (- inject_Z 1))%Q).
  assert (Hd : (d == inject_Z (Z.of_nat count - 1))%Q).
  { unfold d. rewrite !Qred_correct. unfold inject_Z, Qplus, Qopp, Qeq. cbn. lia. }
  assert (Hdpos : (0 < d)%Q).
  { rewrite Hd. unfold Qlt, inject_Z. cbn. lia. }
  assert (Hsub : sub (of_nat count) one = Fin d) by reflexivity.
  rewrite Hsub. unfold of_nat at 1. unfold of_Z at 1. cbn [div].
  rewrite (sign_of_positive d Hdpos). unfold of_nat, of_Z. cbn [mul fin round].
  set (q := (Qred (Qred (inject_Z (Z.of_nat idx) / d) * inject_Z (Z.of_nat 100)))%Q).
  assert (Hq : (q == inject_Z (Z.of_nat idx) * inject_Z 100
                     / inject_Z (Z.of_nat count - 1))%Q).
  { unfold q. rewrite !Qred_correct, Hd. cbn. field.
    unfold inject_Z, Qeq. cbn. lia. }
  clearbody d q.
  assert (Hq0 : (0 <= q)%Q).
  { rewrite Hq. apply Qle_shift_div_l; [unfold Qlt, inject_Z; cbn; lia |].
    unfold Qle, inject_Z, Qmult. cbn [Qnum Qden]. lia. }
  assert (Hq100 : (q <= inject_Z 100)%Q).
  { rewrite Hq. apply Qle_shift_div_r; [unfold Qlt, inject_Z; cbn; lia |].
    unfold Qle, inject_Z, Qmult. cbn [Qnum Qden]. lia. }
  exists (Qfloor (q + (1 # 2))). split.
  - split.
    + change 0%Z with (Qfloor 0). apply Qfloor_resp_le.
      apply Qle_trans with q; [exact Hq0 |].
      rewrite <- (Qplus_0_r q) at 1. apply Qplus_le_r. discriminate.
    + change 100%Z with (Qfloor (inject_Z 100 + (1 # 2))). apply Qfloor_resp_le.
      apply Qplus_le_l. exact Hq100.
  - rewrite Number_toString_integer. reflexivity.
Qed.

(** C5.  A gradient with a single stop, as a computed style serialises
    [linear-gradient(red)]: the stop has no offset of its own, its index
    0 is divided by the number of stops less one, which is 0, and the
    offset that is written is [NaN%], outside of 0% to 100%. *)
Theorem gradient_single_stop_offset (fraction_toString : Q -> string) :
  gradientAxisAndStops fraction_toString "linear-gradient(rgb(255, 0, 0))"
  = Some ({| x1 := "0%"; y1 := "0%"; x2 := "0%"; y2 := "100%" |},
          [ {| stop_offset := "NaN%"; stop_color := "rgb(255, 0, 0)";
               stop_opacity := "1" |} ]).
Proof. vm_compute. reflexivity. Qed.

(** ** The engine, over any collaborators *)

Section Engine_properties.

Context {LineOptions : Type}.
Variable getBorderInfo : ComputedStyle -> number -> BorderInfo LineOptions.
Variable generateCompositeBorderSVG : number -> number -> number -> Sides -> option string.
Variable getProcessedImage : string -> number -> number -> number -> option string.
Variable svgToPng : Node -> option string.
Variable fraction_toString : Q -> string.
Variable querySelector : string -> result (option Node).

Local Abbreviation createRenderItem' :=
  (createRenderItem getBorderInfo generateCompositeBorderSVG getProcessedImage
     svgToPng fraction_toString).
Local Abbreviation collect' :=
  (collect getBorderInfo generateCompositeBorderSVG getProcessedImage
     svgToPng fraction_toString).
Local Abbreviation collectChildren' :=
  (collectChildren getBorderInfo generateCompositeBorderSVG getProcessedImage
     svgToPng fraction_toString).

Lemma collect_unfold (config : LayoutConfig) (node : Node) (st : Collected LineOptions) :
  collect' config node st =
  Js.bind (createRenderItem' node config (domOrderCounter st)) (fun result_ =>
    let st' :=
      {| renderQueue :=
           match result_ with
           | Some r => (renderQueue st ++ items r)%list
           | None => renderQueue st
           end;
         domOrderCounter := S (domOrderCounter st) |} in
    if match result_ with Some r => stopRecursion r | None => false end then Ok st'
    else
      match node with
      | Elem _ kids => collectChildren' config kids st'
      | _ => Throw "TypeError: node.children is not iterable"
      end).
Proof.
  destruct node as [v | v | info kids]; try reflexivity.
  unfold collect; fold collect'. cbv zeta.
  assert (Heach : forall l st0,
    (fix each (l : list Node) (st0 : Collected LineOptions) {struct l} :=
       match l with
       | [] => Ok st0
       | child :: l' =>
           if is_element child
           then Js.bind (collect' config child st0) (fun st' => each l' st')
           else each l' st0
       end) l st0 = collectChildren' config l st0).
  { induction l as [| child l IH]; intros st0; [reflexivity |].
    cbn [collectChildren]. destruct (is_element child); [| apply IH].
    destruct (collect' config child st0); cbn [Js.bind]; [apply IH | reflexivity]. }
  destruct (createRenderItem' (Elem info kids) config (domOrderCounter st))
    as [[r|]|]; cbn [Js.bind]; try reflexivity.
  - destruct (stopRecursion r); [reflexivity | apply Heach].
  - apply Heach.
Qed.

(** ** Nodes that are skipped *)

Lemma isHidden_true (style : ComputedStyle) :
  display style = "none" \/ visibility style = "hidden" \/ opacity style = "0" ->
  isHidden style = true.
Proof.
  unfold isHidden. intros [H | [H | H]]; rewrite H; cbn [String.eqb];
    rewrite ?orb_true_r; reflexivity.
Qed.

Lemma isEmptyBox_true (rect : DOMRect) :
  (width rect == 0)%Q \/ (height rect == 0)%Q -> isEmptyBox rect = true.
Proof.
  unfold isEmptyBox. intros [H | H]; apply Qeq_bool_iff in H; rewrite H;
    rewrite ?orb_true_r; reflexivity.
Qed.

(** C6.  An element with [display:none], [visibility:hidden] or
    [opacity:0], or whose box has no width or no height, makes
    [createRenderItem] return null, whatever its transform and before
    any geometry; the traversal then adds nothing to the queue for it
    and goes on with its children. *)
Theorem createRenderItem_skips_invisible (info : ElementInfo) (kids : list Node)
    (config : LayoutConfig) (st : Collected LineOptions) :
  display (style info) = "none" \/ visibility (style info) = "hidden"
  \/ opacity (style info) = "0"
  \/ (width (Dom.rect info) == 0)%Q \/ (height (Dom.rect info) == 0)%Q ->
  createRenderItem' (Elem info kids) config (domOrderCounter st) = Ok None
  /\ collect' config (Elem info kids) st =
     collectChildren' config kids
       {| renderQueue := renderQueue st; domOrderCounter := S (domOrderCounter st) |}.
Proof.
  intros H.
  assert (Hnull : createRenderItem' (Elem info kids) config (domOrderCounter st) = Ok None).
  { unfold createRenderItem.
    destruct (isHidden (style info)) eqn:Hh; [reflexivity |].
    destruct (isEmptyBox (Dom.rect info)) eqn:He; [reflexivity |].
    exfalso.
    destruct H as [H | [H | [H | H]]];
      try (rewrite isHidden_true in Hh; [discriminate | tauto]).
    rewrite isEmptyBox_true in He; [discriminate | tauto]. }
  split; [exact Hnull |].
  rewrite collect_unfold, Hnull. reflexivity.
Qed.

(** ** The order of the render queue *)

Lemma sortCompare_precedes (a b : RenderItem LineOptions) :
  Spec.numbered a -> Spec.numbered b ->
  ((sortCompare a b <=? 0)%Z = true <-> Spec.precedes a b).
Proof.
  unfold Spec.numbered, Spec.precedes, sortCompare, compareItems.
  destruct (item_zIndex a) as [| x]; [congruence |].
  destruct (item_zIndex b) as [| y]; [congruence |].
  intros _ _. cbn [ineq isub].
  destruct (Z.eqb_spec x y) as [-> | Hne]; cbn [negb]; rewrite Z.leb_le; lia.
Qed.

Lemma precedes_total (a b : RenderItem LineOptions) :
  Spec.numbered a -> Spec.numbered b ->
  (sortCompare a b <=? 0)%Z = false -> Spec.precedes b a.
Proof.
  unfold Spec.numbered, Spec.precedes, sortCompare, compareItems.
  destruct (item_zIndex a) as [| x]; [congruence |].
  destruct (item_zIndex b) as [| y]; [congruence |].
  intros _ _. cbn [ineq isub].
  destruct (Z.eqb_spec x y) as [-> | Hne]; cbn [negb]; rewrite Z.leb_gt; lia.
Qed.

Lemma precedes_trans (a b c : RenderItem LineOptions) :
  Spec.precedes a b -> Spec.precedes b c -> Spec.precedes a c.
Proof.
  unfold Spec.precedes.
  destruct (item_zIndex a), (item_zIndex b), (item_zIndex c); try tauto; lia.
Qed.

Lemma insert_permutation (it : RenderItem LineOptions) (l : list (RenderItem LineOptions)) :
  Permutation (it :: l) (insert it l).
Proof.
  induction l as [| b l IH]; cbn [insert]; [reflexivity |].
  destruct (sortCompare it b <=? 0)%Z; [reflexivity |].
  rewrite perm_swap. apply perm_skip. exact IH.
Qed.

Lemma sort_permutation (l : list (RenderItem LineOptions)) : Permutation l (sort l).
Proof.
  induction l as [| it l IH]; cbn [sort fold_right]; [reflexivity |].
  rewrite <- insert_permutation. apply perm_skip. exact IH.
Qed.

Lemma insert_sorted (it : RenderItem LineOptions) (l : list (RenderItem LineOptions)) :
  Spec.numbered it -> Forall Spec.numbered l ->
  StronglySorted Spec.precedes l -> StronglySorted Spec.precedes (insert it l).
Proof.
  intros Hit Hl Hs. induction Hs as [| b l Hs IH Hb]; cbn [insert].
  - constructor; constructor.
  - inversion Hl as [| ? ? Hnb Hl']; subst.
    destruct (sortCompare it b <=? 0)%Z eqn:Hc.
    + apply sortCompare_precedes in Hc; [| assumption | assumption].
      constructor; [constructor; assumption |].
      constructor; [exact Hc |].
      eapply Forall_impl; [| exact Hb]. intros c Hbc.
      eapply precedes_trans; eassumption.
    + apply precedes_total in Hc; [| assumption | assumption].
      constructor; [apply IH; assumption |].
      apply (Permutation_Forall (insert_permutation it l)).
      constructor; assumption.
Qed.

Lemma sort_sorted (l : list (RenderItem LineOptions)) :
  Forall Spec.numbered l -> StronglySorted Spec.precedes (sort l).
Proof.
  induction 1 as [| it l Hit Hl IH]; cbn [sort fold_right]; [constructor |].
  apply insert_sorted; [exact Hit | | exact IH].
  apply (Permutation_Forall (sort_permutation l)). exact Hl.
Qed.

(** Two items of one key compare as equal. *)
Lemma hasKey_compare (z : Z) (d : nat) (a b : RenderItem LineOptions) :
  Spec.hasKey z d a = true -> Spec.hasKey z d b = true ->
  (sortCompare a b <=? 0)%Z = true.
Proof.
  unfold Spec.hasKey, sortCompare, compareItems.
  destruct (item_zIndex a) as [| x]; [discriminate |].
  destruct (item_zIndex b) as [| y]; [discriminate |].
  rewrite !andb_true_iff, !Z.eqb_eq, !Nat.eqb_eq.
  intros [-> ->] [-> ->]. cbn [ineq]. rewrite Z.eqb_refl. cbn [negb].
  rewrite Z.leb_le. lia.
Qed.

(** The sort is stable: the items of one key keep their order. *)
Lemma insert_stable (z : Z) (d : nat) (it : RenderItem LineOptions)
    (l : list (RenderItem LineOptions)) :
  List.filter (Spec.hasKey z d) (insert it l) = List.filter (Spec.hasKey z d) (it :: l).
Proof.
  induction l as [| b l IH]; cbn [insert]; [reflexivity |].
  destruct (sortCompare it b <=? 0)%Z eqn:Hc; [reflexivity |].
  cbn [List.filter] in *. rewrite IH.
  destruct (Spec.hasKey z d it) eqn:Hit; [| reflexivity].
  destruct (Spec.hasKey z d b) eqn:Hb; [| reflexivity].
  rewrite (hasKey_compare z d it b Hit Hb) in Hc. discriminate.
Qed.

Lemma sort_stable (z : Z) (d : nat) (l : list (RenderItem LineOptions)) :
  List.filter (Spec.hasKey z d) (sort l) = List.filter (Spec.hasKey z d) l.
Proof.
  induction l as [| it l IH]; cbn [sort fold_right]; [reflexivity |].
  rewrite insert_stable. cbn [List.filter]. fold (sort l). rewrite IH. reflexivity.
Qed.

(** In a sorted queue, of two items of one zIndex the earlier has the
    smaller domOrder. *)
Lemma sorted_ties (l1 l2 l3 : list (RenderItem LineOptions)) (a b : RenderItem LineOptions) :
  StronglySorted Spec.precedes (l1 ++ a :: l2 ++ b :: l3) ->
  item_zIndex a = item_zIndex b -> item_domOrder a <= item_domOrder b.
Proof.
  intros Hs Hz.
  induction l1 as [| c l1 IH]; cbn [app] in Hs.
  - apply StronglySorted_inv in Hs. destruct Hs as [_ Hall].
    rewrite Forall_forall in Hall.
    assert (Hab : Spec.precedes a b).
    { apply Hall. apply in_or_app. right. left. reflexivity. }
    unfold Spec.precedes in Hab. rewrite Hz in Hab.
    destruct (item_zIndex b); [tauto | lia].
  - apply StronglySorted_inv in Hs. apply IH. tauto.
Qed.

Lemma precedes_refl (a : RenderItem LineOptions) : Spec.numbered a -> Spec.precedes a a.
Proof.
  unfold Spec.numbered, Spec.precedes. destruct (item_zIndex a); [congruence | lia].
Qed.

(** Two items that precede one another have one key. *)
Lemma precedes_antisym (a b : RenderItem LineOptions) (z : Z) (d : nat) :
  Spec.precedes a b -> Spec.precedes b a ->
  Spec.hasKey z d a = true -> Spec.hasKey z d b = true.
Proof.
  unfold Spec.precedes, Spec.hasKey.
  destruct (item_zIndex a) as [| x]; [tauto |].
  destruct (item_zIndex b) as [| y]; [tauto |].
  rewrite !andb_true_iff, !Z.eqb_eq, !Nat.eqb_eq. lia.
Qed.

Lemma hasKey_own (a : RenderItem LineOptions) :
  Spec.numbered a -> exists z, Spec.hasKey z (item_domOrder a) a = true.
Proof.
  unfold Spec.numbered, Spec.hasKey. destruct (item_zIndex a) as [| x]; [congruence |].
  intros _. exists x. rewrite Z.eqb_refl, Nat.eqb_refl. reflexivity.
Qed.

(** There is one sorted and stable arrangement of a queue only, so that
    it is what any stable sort returns. *)
Lemma sorted_stable_unique (l1 : list (RenderItem LineOptions)) :
  forall l2,
    Forall Spec.numbered l1 ->
    Permutation l1 l2 ->
    StronglySorted Spec.precedes l1 ->
    StronglySorted Spec.precedes l2 ->
    (forall z d, List.filter (Spec.hasKey z d) l1 = List.filter (Spec.hasKey z d) l2) ->
    l1 = l2.
Proof.
  induction l1 as [| a l1 IH]; intros l2 Hnum Hperm Hs1 Hs2 Hkeys.
  - apply Permutation_nil in Hperm. symmetry. exact Hperm.
  - destruct l2 as [| b l2].
    { apply Permutation_sym, Permutation_nil in Hperm. discriminate. }
    inversion Hnum as [| ? ? Ha Hnum']; subst.
    apply StronglySorted_inv in Hs1. destruct Hs1 as [Hs1 Hall1].
    apply StronglySorted_inv in Hs2. destruct Hs2 as [Hs2 Hall2].
    rewrite Forall_forall in Hall1, Hall2.
    assert (Hab : Spec.precedes a b).
    { assert (Hin : In b (a :: l1)).
      { apply (Permutation_in b (Permutation_sym Hperm)). left. reflexivity. }
      destruct Hin as [<- | Hin]; [apply precedes_refl; exact Ha | apply Hall1; exact Hin]. }
    assert (Hba : Spec.precedes b a).
    { assert (Hin : In a (b :: l2)).
      { apply (Permutation_in a Hperm). left. reflexivity. }
      destruct Hin as [<- | Hin]; [apply precedes_refl; exact Ha | apply Hall2; exact Hin]. }
    destruct (hasKey_own a Ha) as [z Hka].
    pose proof (precedes_antisym a b z _ Hab Hba Hka) as Hkb.
    pose proof (Hkeys z (item_domOrder a)) as Hhead.
    cbn [List.filter] in Hhead. rewrite Hka, Hkb in Hhead.
    injection Hhead as <- _.
    f_equal. apply IH; try assumption.
    + apply Permutation_cons_inv with a. exact Hperm.
    + intros z' d'. pose proof (Hkeys z' d') as Hk. cbn [List.filter] in Hk.
      destruct (Spec.hasKey z' d' a); [injection Hk as Hk |]; exact Hk.
Qed.

Lemma sort_unique (l l' : list (RenderItem LineOptions)) :
  Forall Spec.numbered l ->
  Permutation l l' ->
  StronglySorted Spec.precedes l' ->
  (forall z d, List.filter (Spec.hasKey z d) l' = List.filter (Spec.hasKey z d) l) ->
  l' = sort l.
Proof.
  intros Hnum Hperm Hs Hkeys. symmetry. apply sorted_stable_unique.
  - apply (Permutation_Forall (sort_permutation l)). exact Hnum.
  - apply Permutation_trans with l; [apply Permutation_sym, sort_permutation | exact Hperm].
  - apply sort_sorted. exact Hnum.
  - exact Hs.
  - intros z d. rewrite sort_stable. symmetry. apply Hkeys.
Qed.

(** *** The items of a tree have a zIndex *)

Lemma everyElement_elem (p : ElementInfo -> bool) (info : ElementInfo) (kids : list Node) :
  everyElement p (Elem info kids) = p info && forallb (everyElement p) kids.
Proof.
  reflexivity.
Qed.

Lemma next_zIndex_numbered (z : intnum) : z <> INaN -> iadd z (Int 1) <> INaN.
Proof. destruct z; [congruence | discriminate]. Qed.

Lemma createCompositeBorderItems_numbered (sides : Sides) (x y w h scale : number)
    (z : intnum) (d : nat) :
  z <> INaN ->
  Forall (Spec.numbered (L := LineOptions))
    (createCompositeBorderItems sides x y w h scale z d).
Proof.
  intros Hz. pose proof (next_zIndex_numbered z Hz) as Hz'.
  unfold createCompositeBorderItems.
  repeat (apply Forall_app; split);
    match goal with
    | |- Forall _ (if ?b then _ else _) => destruct b
    end; repeat constructor; exact Hz'.
Qed.

Lemma paintBackground_numbered (info : ElementInfo) (config : LayoutConfig)
    (z : intnum) (d : nat) (rotation : real) (b : Box) (payload : option TextPayload) :
  z <> INaN ->
  Forall Spec.numbered
    (paintBackground getBorderInfo fraction_toString info config z d rotation b payload).
Proof.
  intros Hz. pose proof (next_zIndex_numbered z Hz) as Hz'.
  unfold paintBackground.
  match goal with
  | |- context [let '(_, _) := ?pair in _] => destruct pair as [bgData padIn]
  end.
  repeat (apply Forall_app; split).
  - destruct (present bgData); repeat constructor. exact Hz.
  - destruct payload; repeat constructor. exact Hz'.
  - destruct (String.eqb _ "composite"); [| constructor].
    apply createCompositeBorderItems_numbered. exact Hz.
Qed.

Lemma paintShape_numbered (info : ElementInfo) (config : LayoutConfig)
    (z : intnum) (d : nat) (rotation : real) (b : Box) (imageWrapper : bool)
    (payload : option TextPayload) :
  z <> INaN ->
  Forall Spec.numbered
    (paintShape getBorderInfo generateCompositeBorderSVG info config z d rotation b
       imageWrapper payload).
Proof.
  intros Hz. pose proof (next_zIndex_numbered z Hz) as Hz'.
  unfold paintShape. apply Forall_app; split.
  - destruct payload; repeat constructor; exact Hz.
  - destruct (String.eqb _ "composite"); [| constructor].
    destruct (present _); repeat constructor. exact Hz'.
Qed.

Lemma createRenderItem_numbered (info : ElementInfo) (kids : list Node)
    (config : LayoutConfig) (d : nat) (r : Rendered LineOptions) :
  Spec.hasNumericZIndex info = true ->
  createRenderItem' (Elem info kids) config d = Ok (Some r) ->
  Forall Spec.numbered (items r).
Proof.
  unfold Spec.hasNumericZIndex. intros Hnum H.
  assert (Hz : zIndexOf (style info) <> INaN)
    by (destruct (zIndexOf (style info)); [discriminate | discriminate]).
  unfold createRenderItem in H.
  destruct (isHidden (style info)); [discriminate |].
  destruct (isEmptyBox (Dom.rect info)); [discriminate |].
  destruct (getRotation (transform (style info))) as [rotation |];
    cbn [Js.bind] in H; [| discriminate].
  destruct (String.eqb (Str.toUpperCase (nodeName info)) "SVG").
  { injection H as <-. cbn [items]. destruct (present _); repeat constructor. exact Hz. }
  destruct (String.eqb (tagName info) "IMG").
  { destruct (imageRadius info); cbn [Js.bind] in H; [| discriminate].
    injection H as <-. cbn [items]. destruct (present _); repeat constructor. exact Hz. }
  injection H as <-. cbn [items].
  destruct (paintsBackground _ _ _); [apply paintBackground_numbered; exact Hz |].
  destruct (paintsShape _ _ _ _ _); [apply paintShape_numbered; exact Hz | constructor].
Qed.

Lemma collect_numbered (config : LayoutConfig) (node : Node) :
  everyElement Spec.hasNumericZIndex node = true ->
  forall st st',
    Forall Spec.numbered (renderQueue st) ->
    collect' config node st = Ok st' ->
    Forall Spec.numbered (renderQueue st').
Proof.
  induction node as [v | v | info kids IH] using Node_tree_ind;
    intros Hall st st' Hst H; rewrite collect_unfold in H.
  - cbn in H. discriminate.
  - cbn in H. discriminate.
  - rewrite everyElement_elem, andb_true_iff in Hall. destruct Hall as [Hinfo Hkids].
    destruct (createRenderItem' (Elem info kids) config (domOrderCounter st))
      as [result_ |] eqn:Hr; cbn [Js.bind] in H; [| discriminate].
    set (st1 := {| renderQueue :=
                     match result_ with
                     | Some r => (renderQueue st ++ items r)%list
                     | None => renderQueue st
                     end;
                   domOrderCounter := S (domOrderCounter st) |}) in H.
    assert (Hst1 : Forall Spec.numbered (renderQueue st1)).
    { unfold st1. cbn [renderQueue]. destruct result_ as [r |]; [| exact Hst].
      apply Forall_app. split; [exact Hst |].
      eapply createRenderItem_numbered; eassumption. }
    destruct (match result_ with Some r => stopRecursion r | None => false end).
    { injection H as <-. exact Hst1. }
    clear Hr. clearbody st1. clear Hst st.
    revert st1 Hst1 H.
    induction IH as [| k kids Hk _ IHkids]; intros st1 Hst1 H; cbn [collectChildren] in H.
    + injection H as <-. exact Hst1.
    + cbn [forallb] in Hkids. rewrite andb_true_iff in Hkids. destruct Hkids as [Hk' Hkids].
      destruct (is_element k).
      * destruct (collect' config k st1) as [st2 |] eqn:Hc; cbn [Js.bind] in H;
          [| discriminate].
        apply (IHkids Hkids st2); [| exact H].
        eapply Hk; eassumption.
      * apply (IHkids Hkids st1); assumption.
Qed.

Lemma zIndexOf_auto (style : ComputedStyle) :
  zIndex style = "auto" -> zIndexOf style = Int 0.
Proof. unfold zIndexOf. intros ->. reflexivity. Qed.

(** C4.  The queue handed to the slide is the collected queue, sorted:
    a permutation of it, in ascending order of zIndex and then of
    domOrder, with the items of one zIndex and domOrder in the order
    they were collected in; so two items of one zIndex come in ascending
    domOrder wherever they stood in the collected queue.  The zIndex of
    an element whose computed z-index is [auto] is 0.  And for a tree
    whose elements all have a computed z-index that is [auto] or a
    number, every collected item has a zIndex that is a number, and the
    calls on the slide are those of the sorted queue, in its order. *)
Theorem render_queue_order :
  (forall queue : list (RenderItem LineOptions),
     Forall Spec.numbered queue ->
     Permutation queue (sort queue)
     /\ StronglySorted Spec.precedes (sort queue)
     /\ (forall z d,
           List.filter (Spec.hasKey z d) (sort queue)
           = List.filter (Spec.hasKey z d) queue)
     /\ (forall l1 a l2 b l3,
           sort queue = (l1 ++ a :: l2 ++ b :: l3)%list ->
           item_zIndex a = item_zIndex b -> item_domOrder a <= item_domOrder b))
  /\ (forall style, zIndex style = "auto" -> zIndexOf style = Int 0)
  /\ (forall root slide,
        everyElement Spec.hasNumericZIndex root = true ->
        processSlide getBorderInfo generateCompositeBorderSVG getProcessedImage
          svgToPng fraction_toString root = Ok slide ->
        exists info kids st,
          root = Elem info kids
          /\ collect' (layoutConfigOf (Dom.rect info)) root
               {| renderQueue := []; domOrderCounter := 0 |} = Ok st
          /\ Forall Spec.numbered (renderQueue st)
          /\ slide = List.map draw (sort (renderQueue st))).
Proof.
  split; [| split].
  - intros queue Hq.
    split; [apply sort_permutation |].
    split; [apply sort_sorted; exact Hq |].
    split; [intros z d; apply sort_stable |].
    intros l1 a l2 b l3 Heq. apply sorted_ties with (l1 := l1) (l2 := l2) (l3 := l3).
    rewrite <- Heq. apply sort_sorted. exact Hq.
  - exact zIndexOf_auto.
  - intros root slide Hall H. unfold processSlide, renderQueueOf in H.
    destruct root as [v | v | info kids]; try discriminate.
    destruct (collect' (layoutConfigOf (Dom.rect info)) (Elem info kids)
                {| renderQueue := []; domOrderCounter := 0 |}) as [st |] eqn:Hc;
      cbn [Js.bind] in H; [| discriminate].
    injection H as <-.
    exists info, kids, st.
    split; [reflexivity |]. split; [exact Hc |]. split; [| reflexivity].
    eapply collect_numbered; [exact Hall | | exact Hc]. constructor.
Qed.

(** ** Shapes *)

(** C8, amended.  The radius that the engine goes by is the number that
    [parseFloat] reads at the start of the computed border-radius, and 0
    when there is none: the pixels of a length in px, but the bare figure
    of a percentage.  A node that is painted as a shape (neither a
    picture of its own nor one of its background) puts first in its
    items a shape, or a text box merged into one, whose kind is an
    ellipse when that radius is at least [min(w,h)/2 - 1] and
    [|w - h| < 2]; otherwise a rounded rectangle when the radius is
    positive, with the fraction [min(1, radius / (min(w,h)/2))], which is
    at most 1; otherwise a rectangle. *)
Theorem shape_kind_selection (info : ElementInfo) (kids : list Node)
    (config : LayoutConfig) (domOrder : nat) (r : Rendered LineOptions)
    (it : RenderItem LineOptions) (rest : list (RenderItem LineOptions)) :
  String.eqb (Str.toUpperCase (nodeName info)) "SVG" = false ->
  String.eqb (tagName info) "IMG" = false ->
  paintsBackground info config
    (isImageWrapper (Elem info kids) (widthOf info) (heightOf info)) = false ->
  createRenderItem' (Elem info kids) config domOrder = Ok (Some r) ->
  items r = it :: rest ->
  let radius := radiusOf (style info) in
  let w := widthOf info in
  let h := heightOf info in
  exists kind fraction,
    shapeOf it = Some (kind, fraction)
    /\ if ge radius (sub (div (min w h) (of_Z 2)) one) && lt (abs (sub w h)) (of_Z 2)
       then kind = ellipse
       else if gt radius zero
            then kind = roundRect
                 /\ fraction = Some (min one (div radius (div (min w h) (of_Z 2))))
                 /\ exists f, fraction = Some f /\ le f one = true
            else kind = rect.
Proof.
  intros Hsvg Himg Hbg Hr Hitems radius w h.
  unfold createRenderItem in Hr.
  destruct (isHidden (style info)); [discriminate |].
  destruct (isEmptyBox (Dom.rect info)); [discriminate |].
  destruct (getRotation (transform (style info))) as [rotation |];
    cbn [Js.bind] in Hr; [| discriminate].
  rewrite Hsvg, Himg, Hbg in Hr.
  injection Hr as <-. cbn [items] in Hitems.
  destruct (paintsShape _ _ _ _ _); [| discriminate].
  exists (fst (shapeKind radius w h)), (snd (shapeKind radius w h)).
  split.
  - unfold paintShape in Hitems.
    destruct (textPayload _ _ _ _) as [p |];
      cbn [app] in Hitems; injection Hitems as <- _; reflexivity.
  - subst radius w h. unfold widthOf, heightOf.
    destruct (dimension_fin (offsetWidth info) (width (Dom.rect info))) as [qw ->].
    destruct (dimension_fin (offsetHeight info) (height (Dom.rect info))) as [qh ->].
    apply shapeKind_cases. apply or_zero_not_NaN.
Qed.

(** ** Batches of slide roots *)

Local Abbreviation processSlide' :=
  (processSlide getBorderInfo generateCompositeBorderSVG getProcessedImage
     svgToPng fraction_toString).
Local Abbreviation eachRoot' :=
  (eachRoot getBorderInfo generateCompositeBorderSVG getProcessedImage
     svgToPng fraction_toString querySelector).
Local Abbreviation exportToPptx' :=
  (exportToPptx getBorderInfo generateCompositeBorderSVG getProcessedImage
     svgToPng fraction_toString querySelector).
Local Abbreviation found :=
  (fun el => negb (Spec.notFound querySelector el)).

Local Abbreviation slideOfRoot := (Spec.slideOfRoot processSlide' querySelector).

(** Line 35, against what the root stands for. *)
Lemma resolve_rootOf (el : Target) :
  resolve querySelector el
  = match Spec.rootOf querySelector el with
    | Spec.isNode node => Ok (Some node)
    | Spec.noNode => Ok None
    | Spec.syntaxError error => Throw error
    end.
Proof.
  destruct el as [selector | node |]; cbn [resolve Spec.rootOf]; try reflexivity.
  destruct (querySelector selector) as [[node |] | error]; reflexivity.
Qed.

Lemma eachRoot_result (l : list Target) :
  forall slides warnings slides' warnings',
  eachRoot' l slides warnings = Ok (slides', warnings') ->
  warnings' = (warnings ++ List.filter (Spec.notFound querySelector) l)%list
  /\ exists new,
       slides' = (slides ++ new)%list
       /\ Forall2 slideOfRoot (List.filter found l) new.
Proof.
  induction l as [| el l IH]; intros slides warnings slides' warnings' H; cbn [eachRoot] in H.
  - injection H as <- <-. cbn [List.filter]. rewrite !app_nil_r.
    split; [reflexivity |]. exists []. rewrite app_nil_r. split; [reflexivity | constructor].
  - rewrite resolve_rootOf in H. unfold Spec.notFound. cbn [List.filter].
    unfold Spec.notFound in IH.
    destruct (Spec.rootOf querySelector el) as [root | | error] eqn:Hres;
      cbn [Js.bind negb] in H |- *.
    + destruct (processSlide' root) as [slide |] eqn:Hslide; cbn [Js.bind] in H; [| discriminate].
      apply IH in H. destruct H as [Hw [new [-> Hnew]]].
      split; [exact Hw |].
      exists (slide :: new). rewrite <- app_assoc. split; [reflexivity |].
      constructor; [| exact Hnew]. exists root. split; assumption.
    + apply IH in H. destruct H as [-> Hs].
      rewrite <- app_assoc. split; [reflexivity | exact Hs].
    + discriminate.
Qed.

(** The warnings do not bear on the slides. *)
Lemma eachRoot_slides_warnings (l : list Target) :
  forall slides w1 w2,
  Js.bind (eachRoot' l slides w1) (fun r => Ok (fst r))
  = Js.bind (eachRoot' l slides w2) (fun r => Ok (fst r)).
Proof.
  induction l as [| el l IH]; intros slides w1 w2; cbn [eachRoot]; [reflexivity |].
  destruct (resolve querySelector el) as [[root |] |]; cbn [Js.bind]; [| apply IH | reflexivity].
  destruct (processSlide' root) as [slide |]; cbn [Js.bind]; [apply IH | reflexivity].
Qed.

Lemma eachRoot_skips (l : list Target) :
  forall slides warnings,
  Js.bind (eachRoot' l slides warnings) (fun r => Ok (fst r))
  = Js.bind (eachRoot' (List.filter found l) slides warnings) (fun r => Ok (fst r)).
Proof.
  induction l as [| el l IH]; intros slides warnings; [reflexivity |].
  cbn [List.filter]. unfold Spec.notFound.
  destruct (Spec.rootOf querySelector el) as [root | | error] eqn:Hres;
    cbn [negb eachRoot]; rewrite !resolve_rootOf, ?Hres; cbn [Js.bind].
  - destruct (processSlide' root) as [slide |]; cbn [Js.bind]; [apply IH | reflexivity].
  - rewrite <- IH. apply eachRoot_slides_warnings.
  - reflexivity.
Qed.

Lemma eachRoot_succeeds (l : list Target) :
  (forall el, In el l ->
     Spec.notFound querySelector el = true \/ exists slide, slideOfRoot el slide) ->
  forall slides warnings, exists r, eachRoot' l slides warnings = Ok r.
Proof.
  induction l as [| el l IH]; intros Hall slides warnings; cbn [eachRoot]; [eauto |].
  assert (Hl : forall el', In el' l ->
            Spec.notFound querySelector el' = true \/ exists slide, slideOfRoot el' slide).
  { intros el' Hin. apply Hall. right. exact Hin. }
  rewrite resolve_rootOf.
  destruct (Hall el (or_introl eq_refl)) as [Hun | [slide [root [Hres Hslide]]]].
  - unfold Spec.notFound in Hun.
    destruct (Spec.rootOf querySelector el) as [root | | error]; try discriminate.
    cbn [Js.bind]. apply IH. exact Hl.
  - rewrite Hres. cbn [Js.bind]. rewrite Hslide. cbn [Js.bind]. apply IH. exact Hl.
Qed.

(** A selector that the document rejects ends the loop with its error,
    once the roots before it are through. *)
Lemma eachRoot_aborts (before : list Target) (el : Target) (after : list Target)
    (error : string) :
  Spec.rootOf querySelector el = Spec.syntaxError error ->
  (forall el', In el' before ->
     Spec.notFound querySelector el' = true \/ exists slide, slideOfRoot el' slide) ->
  forall slides warnings,
    eachRoot' (before ++ el :: after) slides warnings = Throw error.
Proof.
  intros Hel. induction before as [| b before IH]; intros Hall slides warnings;
    cbn [app eachRoot]; rewrite resolve_rootOf.
  - rewrite Hel. reflexivity.
  - assert (Hrest : forall el', In el' before ->
              Spec.notFound querySelector el' = true \/ exists slide, slideOfRoot el' slide).
    { intros el' Hin. apply Hall. right. exact Hin. }
    destruct (Hall b (or_introl eq_refl)) as [Hun | [slide [root [Hres Hslide]]]].
    + unfold Spec.notFound in Hun.
      destruct (Spec.rootOf querySelector b) as [root | | e]; try discriminate.
      cbn [Js.bind]. apply IH. exact Hrest.
    + rewrite Hres. cbn [Js.bind]. rewrite Hslide. cbn [Js.bind]. apply IH. exact Hrest.
Qed.

(** C9, amended.  A root is not found when it is null or undefined or a
    selector that no element matches.  A run that ends has one slide for
    each root that is found, in the order of the roots (the slide that
    [processSlide] makes of the element itself, or of the element that
    the selector finds), and has warned of each root that is not found;
    the roots that are not found have no part in the slides nor in a
    failure: the run goes as if they had been left out, and it ends when
    every root that is found makes a slide.  A selector that the document
    rejects is not skipped: the run fails with the error of the
    document, whatever comes after that root. *)
Theorem exportToPptx_skips_roots_not_found (target : Target + list Target)
    (givenName : string) :
  let elements := Spec.elementsOf target in
  (forall e, exportToPptx' target givenName = Ok e ->
     warnings e = List.filter (Spec.notFound querySelector) elements
     /\ Forall2 slideOfRoot (List.filter found elements) (slides e))
  /\ Spec.slidesOf (exportToPptx' target givenName)
     = Spec.slidesOf (exportToPptx' (inr (List.filter found elements)) givenName)
  /\ ((forall el, In el elements ->
         Spec.notFound querySelector el = true \/ exists slide, slideOfRoot el slide) ->
      exists e, exportToPptx' target givenName = Ok e)
  /\ (forall before el after error,
        elements = (before ++ el :: after)%list ->
        Spec.rootOf querySelector el = Spec.syntaxError error ->
        (forall el', In el' before ->
           Spec.notFound querySelector el' = true \/ exists slide, slideOfRoot el' slide) ->
        exportToPptx' target givenName = Throw error).
Proof.
  intros elements. unfold exportToPptx. fold (Spec.elementsOf target). fold elements.
  cbn [Spec.elementsOf].
  split; [| split; [| split]].
  - intros e H.
    destruct (eachRoot' elements [] []) as [[slides' warnings'] |] eqn:Hrun;
      cbn [Js.bind] in H; [| discriminate].
    injection H as <-. cbn [warnings slides fst snd].
    apply eachRoot_result in Hrun. destruct Hrun as [-> [new [-> Hnew]]].
    split; [reflexivity | exact Hnew].
  - unfold Spec.slidesOf.
    pose proof (eachRoot_skips elements [] []) as Hskip.
    destruct (eachRoot' elements [] []) as [r1 |];
      destruct (eachRoot' (List.filter found elements) [] []) as [r2 |];
      cbn [Js.bind slides] in *; congruence.
  - intros Hall.
    destruct (eachRoot_succeeds elements Hall [] []) as [r ->].
    cbn [Js.bind]. eauto.
  - intros before el after error -> Hel Hbefore.
    rewrite (eachRoot_aborts before el after error Hel Hbefore). reflexivity.
Qed.

End Engine_properties.

(** ** The properties above, on the sample trees *)

Lemma createRenderItem_skips_invisible_witness :
  createRenderItem Samples.noBorder Samples.noBorderSVG Samples.noImage
    Samples.noPng Samples.noFraction Samples.hiddenBox Samples.layout 0 = Ok None
  /\ createRenderItem Samples.noBorder Samples.noBorderSVG Samples.noImage
       Samples.noPng Samples.noFraction Samples.flatBox Samples.layout 0 = Ok None.
Proof.
  split.
  - apply (proj1 (createRenderItem_skips_invisible Samples.noBorder
                    Samples.noBorderSVG Samples.noImage Samples.noPng
                    Samples.noFraction Samples.hiddenInfo [] Samples.layout
                    {| renderQueue := []; domOrderCounter := 0 |}
                    (or_introl eq_refl))).
  - apply (proj1 (createRenderItem_skips_invisible Samples.noBorder
                    Samples.noBorderSVG Samples.noImage Samples.noPng
                    Samples.noFraction Samples.flatInfo [] Samples.layout
                    {| renderQueue := []; domOrderCounter := 0 |}
                    (or_intror (or_intror (or_intror (or_intror (Qeq_refl 0))))))).
Defined.

Lemma render_queue_order_witness :
  StronglySorted Spec.precedes
    (sort [Samples.picture 1 0; Samples.picture 0 2; Samples.picture 0 1])
  /\ sort [Samples.picture 1 0; Samples.picture 0 2; Samples.picture 0 1]
     = [Samples.picture 0 1; Samples.picture 0 2; Samples.picture 1 0]
  /\ exists queue : list (RenderItem unit),
       Forall Spec.numbered queue
       /\ processSlide Samples.noBorder Samples.noBorderSVG Samples.noImage
            Samples.noPng Samples.noFraction Samples.canvas
          = Ok (List.map draw (sort queue)).
Proof.
  destruct (render_queue_order Samples.noBorder Samples.noBorderSVG
              Samples.noImage Samples.noPng Samples.noFraction)
    as [Hsort [_ Hslide]].
  split; [| split].
  - apply (Hsort [Samples.picture 1 0; Samples.picture 0 2; Samples.picture 0 1]).
    repeat constructor; discriminate.
  - reflexivity.
  - destruct (processSlide Samples.noBorder Samples.noBorderSVG Samples.noImage
                Samples.noPng Samples.noFraction Samples.canvas) as [slide |] eqn:Hrun;
      [| lazy in Hrun; discriminate].
    destruct (Hslide Samples.canvas slide eq_refl Hrun)
      as [info [kids [st [_ [_ [Hnum ->]]]]]].
    exists (renderQueue st). split; [exact Hnum | reflexivity].
Defined.

Lemma shape_kind_selection_witness :
  exists it kind fraction,
    shapeOf (LineOptions := unit) it = Some (kind, fraction)
    /\ kind = roundRect
    /\ exists f, fraction = Some f /\ le f one = true.
Proof.
  eassert (H : _).
  { eapply (shape_kind_selection Samples.noBorder Samples.noBorderSVG Samples.noImage
              Samples.noPng Samples.noFraction
              Samples.pillInfo [] Samples.layout 2).
    - lazy; reflexivity.
    - lazy; reflexivity.
    - lazy; reflexivity.
    - lazy; reflexivity.
    - lazy; reflexivity. }
  lazy zeta in H. destruct H as [kind [fraction [Hshape Hkind]]].
  eexists. exists kind, fraction. split; [exact Hshape |].
  lazy in Hkind. destruct Hkind as [Hk [_ Hf]]. split; [exact Hk | exact Hf].
Defined.

(** C8, as stated, fails: a square of 200 pixels with the computed
    border-radius 50% has corners of 100 pixels, which calls for an
    ellipse; the engine reads the radius as 50 and emits a rounded
    rectangle of the fraction one half. *)
Lemma shape_kind_of_percent_radius :
  Spec.radiusInPixels (borderRadius (Dom.style Samples.coinInfo))
    (widthOf Samples.coinInfo) = of_Z 100
  /\ Spec.callsForEllipse (of_Z 100) (widthOf Samples.coinInfo) (heightOf Samples.coinInfo)
     = true
  /\ exists r : Rendered unit,
       createRenderItem Samples.noBorder Samples.noBorderSVG Samples.noImage Samples.noPng
         Samples.noFraction Samples.coin Samples.layout 0 = Ok (Some r)
       /\ List.map shapeOf (items r) = [Some (roundRect, Some (Fin (1 # 2)%Q))].
Proof.
  split; [vm_compute; reflexivity |]. split; [vm_compute; reflexivity |].
  eexists. split; lazy; reflexivity.
Qed.

(** C9, as stated, fails: a selector that is not valid does not resolve
    to a node, and yet it is not skipped; the run ends with the error of
    the document although the root after it would make a slide. *)
Lemma exportToPptx_aborts_on_invalid_selector :
  Spec.unresolvable Samples.strictDocument (Selector "#") = true
  /\ Spec.unresolvable Samples.strictDocument (Selector "#slide") = false
  /\ (exists slide,
        processSlide Samples.noBorder Samples.noBorderSVG Samples.noImage Samples.noPng
          Samples.noFraction Samples.canvas = Ok slide)
  /\ exportToPptx Samples.noBorder Samples.noBorderSVG Samples.noImage Samples.noPng
       Samples.noFraction Samples.strictDocument
       (inr [Selector "#"; Selector "#slide"]) ""
     = Throw "SyntaxError: '#' is not a valid selector".
Proof.
  split; [reflexivity |]. split; [reflexivity |]. split; [| reflexivity].
  destruct (processSlide Samples.noBorder Samples.noBorderSVG Samples.noImage
              Samples.noPng Samples.noFraction Samples.canvas) as [slide |] eqn:Hrun;
    [exists slide; reflexivity | lazy in Hrun; discriminate].
Qed.

Lemma exportToPptx_skips_roots_not_found_witness :
  (exists e,
     exportToPptx Samples.noBorder Samples.noBorderSVG Samples.noImage Samples.noPng
       Samples.noFraction Samples.document (inr Samples.batch) "" = Ok e
     /\ warnings e = [Selector "#title"; Missing]
     /\ List.length (slides e) = 1)
  /\ exportToPptx Samples.noBorder Samples.noBorderSVG Samples.noImage Samples.noPng
       Samples.noFraction Samples.strictDocument
       (inr [Missing; Selector "#"; Selector "#slide"]) ""
     = Throw "SyntaxError: '#' is not a valid selector".
Proof.
  destruct (exportToPptx_skips_roots_not_found Samples.noBorder Samples.noBorderSVG
              Samples.noImage Samples.noPng Samples.noFraction Samples.document
              (inr Samples.batch) "") as [Hends [_ [Hruns _]]].
  destruct (exportToPptx_skips_roots_not_found Samples.noBorder Samples.noBorderSVG
              Samples.noImage Samples.noPng Samples.noFraction Samples.strictDocument
              (inr [Missing; Selector "#"; Selector "#slide"]) "") as [_ [_ [_ Haborts]]].
  split.
  - destruct Hruns as [e He].
    { intros el [<- | [<- | [<- | []]]].
      - left; reflexivity.
      - right. eexists. exists Samples.canvas. split; [reflexivity | lazy; reflexivity].
      - left; reflexivity. }
    exists e. split; [exact He |].
    destruct (Hends e He) as [Hw Hs]. split; [exact Hw |].
    apply Forall2_length in Hs. symmetry. exact Hs.
  - apply (Haborts [Missing] (Selector "#") [Selector "#slide"]);
      [reflexivity | reflexivity |].
    intros el [<- | []]. left. reflexivity.
Defined.

(* ================================================================== *)
(** * Further properties of the engine *)
(* ================================================================== *)

(** ** Lists in order *)

Lemma StronglySorted_app {A : Type} (R : A -> A -> Prop) (l1 l2 : list A) :
  StronglySorted R l1 ->
  StronglySorted R l2 ->
  (forall a b, In a l1 -> In b l2 -> R a b) ->
  StronglySorted R (l1 ++ l2).
Proof.
  intros H1 H2 H12. induction H1 as [| a l1 Hs IH Hall]; [exact H2 |].
  cbn [app]. constructor.
  - apply IH. intros x y Hx Hy. apply H12; [right; exact Hx | exact Hy].
  - apply Forall_app. split; [exact Hall |].
    apply Forall_forall. intros b Hb. apply H12; [left; reflexivity | exact Hb].
Qed.

Lemma StronglySorted_weaken {A : Type} (R R' : A -> A -> Prop) (l : list A) :
  (forall a b, In a l -> In b l -> R a b -> R' a b) ->
  StronglySorted R l ->
  StronglySorted R' l.
Proof.
  intros Himp Hs. induction Hs as [| a l Hs IH Hall]; constructor.
  - apply IH. intros x y Hx Hy. apply Himp; right; assumption.
  - rewrite Forall_forall in *. intros b Hb.
    apply Himp; [left; reflexivity | right; exact Hb | apply Hall; exact Hb].
Qed.

Lemma same_domOrder_sorted {L : Type} (d : nat) (l : list (RenderItem L)) :
  Forall (fun it => item_domOrder it = d) l ->
  StronglySorted Spec.inDocumentOrder l.
Proof.
  induction 1 as [| a l Ha Hl IH]; constructor; [exact IH |].
  apply Forall_forall. intros b Hb. rewrite Forall_forall in Hl.
  unfold Spec.inDocumentOrder. rewrite Ha, (Hl b Hb). apply Nat.le_refl.
Qed.

(** ** The sort leaves a sorted queue alone *)

Lemma sort_sorted_id {L : Type} (l : list (RenderItem L)) :
  Forall Spec.numbered l ->
  StronglySorted Spec.precedes l ->
  sort l = l.
Proof.
  intros Hnum Hs. symmetry. apply sort_unique.
  - exact Hnum.
  - apply Permutation_refl.
  - exact Hs.
  - intros z d. reflexivity.
Qed.

(** X1.  Sorting is idempotent: a queue that went through the sort of
    lines 90 to 93 comes out of a second pass as it is, whenever its
    zIndex values are numbers. *)
Theorem sort_idempotent {L : Type} (l : list (RenderItem L)) :
  Forall Spec.numbered l ->
  sort (sort l) = sort l.
Proof.
  intros Hnum. apply sort_sorted_id.
  - apply (Permutation_Forall (sort_permutation l)). exact Hnum.
  - apply sort_sorted. exact Hnum.
Qed.

Section Engine_bookkeeping.

Context {LineOptions : Type}.
Variable getBorderInfo : ComputedStyle -> number -> BorderInfo LineOptions.
Variable generateCompositeBorderSVG : number -> number -> number -> Sides -> option string.
Variable getProcessedImage : string -> number -> number -> number -> option string.
Variable svgToPng : Node -> option string.
Variable fraction_toString : Q -> string.

Local Abbreviation createRenderItem' :=
  (createRenderItem getBorderInfo generateCompositeBorderSVG getProcessedImage
     svgToPng fraction_toString).
Local Abbreviation collect' :=
  (collect getBorderInfo generateCompositeBorderSVG getProcessedImage
     svgToPng fraction_toString).
Local Abbreviation collectChildren' :=
  (collectChildren getBorderInfo generateCompositeBorderSVG getProcessedImage
     svgToPng fraction_toString).

(** *** Every item carries the numbers of its node *)

Ltac stamped :=
  repeat first
    [ apply Forall_nil
    | apply Forall_cons
    | split; [reflexivity |]
    | left; reflexivity
    | right; reflexivity ].

Lemma createCompositeBorderItems_ofNode (sides : Sides) (x y w h scale : number)
    (z : intnum) (d : nat) :
  Forall (Spec.ofNode (L := LineOptions) z d)
    (createCompositeBorderItems sides x y w h scale z d).
Proof.
  unfold createCompositeBorderItems.
  repeat (apply Forall_app; split);
    match goal with
    | |- Forall _ (if ?b then _ else _) => destruct b
    end; stamped.
Qed.

Lemma paintBackground_ofNode (info : ElementInfo) (config : LayoutConfig)
    (z : intnum) (d : nat) (rotation : real) (b : Box) (payload : option TextPayload) :
  Forall (Spec.ofNode z d)
    (paintBackground getBorderInfo fraction_toString info config z d rotation b payload).
Proof.
  unfold paintBackground.
  match goal with
  | |- context [let '(_, _) := ?pair in _] => destruct pair as [bgData padIn]
  end.
  repeat (apply Forall_app; split).
  - destruct (present bgData); stamped.
  - destruct payload; stamped.
  - destruct (String.eqb _ "composite"); [| stamped].
    apply createCompositeBorderItems_ofNode.
Qed.

Lemma paintShape_ofNode (info : ElementInfo) (config : LayoutConfig)
    (z : intnum) (d : nat) (rotation : real) (b : Box) (imageWrapper : bool)
    (payload : option TextPayload) :
  Forall (Spec.ofNode z d)
    (paintShape getBorderInfo generateCompositeBorderSVG info config z d rotation b
       imageWrapper payload).
Proof.
  unfold paintShape. apply Forall_app; split.
  - destruct payload; stamped.
  - destruct (String.eqb _ "composite"); [| stamped].
    destruct (present _); stamped.
Qed.

Lemma createRenderItem_ofNode (node : Node) (config : LayoutConfig) (d : nat)
    (r : Rendered LineOptions) :
  createRenderItem' node config d = Ok (Some r) ->
  Forall (fun it => item_domOrder it = d) (items r).
Proof.
  intros H.
  assert (Hz : exists z, Forall (Spec.ofNode z d) (items r)).
  { destruct node as [v | v | info kids]; try discriminate.
    exists (zIndexOf (style info)).
    unfold createRenderItem in H.
    destruct (isHidden (style info)); [discriminate |].
    destruct (isEmptyBox (Dom.rect info)); [discriminate |].
    destruct (getRotation (transform (style info))) as [rotation |];
      cbn [Js.bind] in H; [| discriminate].
    destruct (String.eqb (Str.toUpperCase (nodeName info)) "SVG").
    { injection H as <-. cbn [items]. destruct (present _); stamped. }
    destruct (String.eqb (tagName info) "IMG").
    { destruct (imageRadius info); cbn [Js.bind] in H; [| discriminate].
      injection H as <-. cbn [items]. destruct (present _); stamped. }
    injection H as <-. cbn [items].
    destruct (paintsBackground _ _ _); [apply paintBackground_ofNode |].
    destruct (paintsShape _ _ _ _ _); [apply paintShape_ofNode | stamped]. }
  destruct Hz as [z Hz]. eapply Forall_impl; [| exact Hz].
  intros it [Hd _]. exact Hd.
Qed.

(** *** What a call of [collect] does to the queue and the counter *)

Lemma collect_extends (config : LayoutConfig) (node : Node) :
  forall st st',
    collect' config node st = Ok st' ->
    exists new,
      renderQueue st' = (renderQueue st ++ new)%list /\
      domOrderCounter st < domOrderCounter st' /\
      Forall (fun it => domOrderCounter st <= item_domOrder it < domOrderCounter st') new /\
      StronglySorted Spec.inDocumentOrder new.
Proof.
  induction node as [v | v | info kids IH] using Node_tree_ind;
    intros st st' H; rewrite collect_unfold in H.
  - cbn in H. discriminate.
  - cbn in H. discriminate.
  - destruct (createRenderItem' (Elem info kids) config (domOrderCounter st))
      as [result_ |] eqn:Hr; cbn [Js.bind] in H; [| discriminate].
    set (own := match result_ with Some r => items r | None => [] end).
    assert (Hown : Forall (fun it => item_domOrder it = domOrderCounter st) own).
    { unfold own. destruct result_ as [r |]; [| constructor].
      eapply createRenderItem_ofNode. exact Hr. }
    set (st1 := {| renderQueue :=
                     match result_ with
                     | Some r => (renderQueue st ++ items r)%list
                     | None => renderQueue st
                     end;
                   domOrderCounter := S (domOrderCounter st) |}) in H.
    assert (Hq1 : renderQueue st1 = (renderQueue st ++ own)%list).
    { unfold st1, own. cbn [renderQueue].
      destruct result_; [reflexivity | symmetry; apply app_nil_r]. }
    assert (Hc1 : domOrderCounter st1 = S (domOrderCounter st)) by reflexivity.
    assert (Hkids : forall l, Forall (fun node => forall st st',
                collect' config node st = Ok st' ->
                exists new,
                  renderQueue st' = (renderQueue st ++ new)%list /\
                  domOrderCounter st < domOrderCounter st' /\
                  Forall (fun it => domOrderCounter st <= item_domOrder it
                                    < domOrderCounter st') new /\
                  StronglySorted Spec.inDocumentOrder new) l ->
              forall s s',
                collectChildren' config l s = Ok s' ->
                exists new,
                  renderQueue s' = (renderQueue s ++ new)%list /\
                  domOrderCounter s <= domOrderCounter s' /\
                  Forall (fun it => domOrderCounter s <= item_domOrder it
                                    < domOrderCounter s') new /\
                  StronglySorted Spec.inDocumentOrder new).
    { clear. intros l Hl. induction Hl as [| k l Hk _ IHl]; intros s s' H;
        cbn [collectChildren] in H.
      - injection H as <-. exists []. rewrite app_nil_r.
        repeat split; [apply Nat.le_refl | constructor | constructor].
      - destruct (is_element k); [| apply IHl; exact H].
        destruct (collect' config k s) as [s2 |] eqn:Hc; cbn [Js.bind] in H;
          [| discriminate].
        destruct (Hk _ _ Hc) as [n1 [Hq1 [Hlt1 [Hr1 Hs1]]]].
        destruct (IHl _ _ H) as [n2 [Hq2 [Hle2 [Hr2 Hs2]]]].
        exists (n1 ++ n2)%list. rewrite Forall_forall in Hr1, Hr2.
        repeat split.
        + rewrite Hq2, Hq1. symmetry. apply app_assoc.
        + lia.
        + apply Forall_forall. intros it Hin. apply in_app_or in Hin.
          destruct Hin as [Hin | Hin];
            [specialize (Hr1 it Hin) | specialize (Hr2 it Hin)]; lia.
        + apply StronglySorted_app; [exact Hs1 | exact Hs2 |].
          intros a b Ha Hb. unfold Spec.inDocumentOrder.
          specialize (Hr1 a Ha). specialize (Hr2 b Hb). lia. }
    destruct (match result_ with Some r => stopRecursion r | None => false end).
    { injection H as <-. exists own. rewrite Hq1, Hc1. repeat split.
      - apply Nat.lt_succ_diag_r.
      - eapply Forall_impl; [| exact Hown]. intros it Hd. cbv beta in Hd. lia.
      - eapply same_domOrder_sorted. exact Hown. }
    destruct (Hkids kids IH _ _ H) as [n2 [Hq2 [Hle2 [Hr2 Hs2]]]].
    exists (own ++ n2)%list. rewrite Hc1 in *. rewrite Forall_forall in Hown, Hr2.
    repeat split.
    + rewrite Hq2, Hq1. symmetry. apply app_assoc.
    + lia.
    + apply Forall_forall. intros it Hin. apply in_app_or in Hin.
      destruct Hin as [Hin | Hin];
        [specialize (Hown it Hin) | specialize (Hr2 it Hin)]; cbv beta in *; lia.
    + apply StronglySorted_app; [| exact Hs2 |].
      * eapply same_domOrder_sorted. apply Forall_forall. exact Hown.
      * intros a b Ha Hb. unfold Spec.inDocumentOrder.
        specialize (Hown a Ha). specialize (Hr2 b Hb). cbv beta in *. lia.
Qed.

(** X2.  Every item that [createRenderItem] makes for an element carries
    the domOrder it was called with, and the zIndex of the element or the
    next one (the text above a picture of the background, the sides and
    the picture of a composite border). *)
Theorem createRenderItem_stamps_items (info : ElementInfo) (kids : list Node)
    (config : LayoutConfig) (d : nat) (r : Rendered LineOptions) :
  createRenderItem' (Elem info kids) config d = Ok (Some r) ->
  Forall (Spec.ofNode (zIndexOf (style info)) d) (items r).
Proof.
  intros H. unfold createRenderItem in H.
  destruct (isHidden (style info)); [discriminate |].
  destruct (isEmptyBox (Dom.rect info)); [discriminate |].
  destruct (getRotation (transform (style info))) as [rotation |];
    cbn [Js.bind] in H; [| discriminate].
  destruct (String.eqb (Str.toUpperCase (nodeName info)) "SVG").
  { injection H as <-. cbn [items]. destruct (present _); stamped. }
  destruct (String.eqb (tagName info) "IMG").
  { destruct (imageRadius info); cbn [Js.bind] in H; [| discriminate].
    injection H as <-. cbn [items]. destruct (present _); stamped. }
  injection H as <-. cbn [items].
  destruct (paintsBackground _ _ _); [apply paintBackground_ofNode |].
  destruct (paintsShape _ _ _ _ _); [apply paintShape_ofNode | stamped].
Qed.

(** X3.  A call of [collect] only appends to the queue and only moves
    the counter forward: the items it adds are numbered from the counter
    it found up to, and not including, the counter it leaves, and they
    stand in the queue in document order. *)
Theorem collect_numbers_in_document_order (config : LayoutConfig) (node : Node)
    (st st' : Collected LineOptions) :
  collect' config node st = Ok st' ->
  exists new,
    renderQueue st' = (renderQueue st ++ new)%list /\
    domOrderCounter st < domOrderCounter st' /\
    Forall (fun it => domOrderCounter st <= item_domOrder it < domOrderCounter st') new /\
    StronglySorted Spec.inDocumentOrder new.
Proof.
  apply collect_extends.
Qed.

(** X4.  When every collected item has one and the same zIndex, the sort
    changes nothing: the slide is painted in document order. *)
Theorem flat_queue_keeps_document_order (config : LayoutConfig) (root : Node)
    (st : Collected LineOptions) (z : Z) :
  collect' config root {| renderQueue := []; domOrderCounter := 0 |} = Ok st ->
  Forall (fun it => item_zIndex it = Int z) (renderQueue st) ->
  sort (renderQueue st) = renderQueue st.
Proof.
  intros H Hz. destruct (collect_extends _ _ _ _ H) as [new [Hq [_ [_ Hs]]]].
  cbn [renderQueue app] in Hq. rewrite <- Hq in Hs.
  rewrite Forall_forall in Hz. apply sort_sorted_id.
  - apply Forall_forall. intros it Hin. unfold Spec.numbered.
    rewrite (Hz it Hin). discriminate.
  - apply (StronglySorted_weaken Spec.inDocumentOrder); [| exact Hs].
    intros a b Ha Hb Hab. unfold Spec.precedes.
    rewrite (Hz a Ha), (Hz b Hb). right. split; [reflexivity | exact Hab].
Qed.

End Engine_bookkeeping.

(** ** Arithmetic on finite numbers *)

Lemma PX_TO_INCH_value : PX_TO_INCH = Fin (1 # 96)%Q.
Proof. reflexivity. Qed.

Lemma mul_Fin (p q : Q) :
  exists r, mul (Fin p) (Fin q) = Fin r /\ (r == p * q)%Q.
Proof. eexists. split; [reflexivity | apply Qred_correct]. Qed.

Lemma add_Fin (p q : Q) :
  exists r, add (Fin p) (Fin q) = Fin r /\ (r == p + q)%Q.
Proof. eexists. split; [reflexivity | apply Qred_correct]. Qed.

Lemma sub_Fin (p q : Q) :
  exists r, sub (Fin p) (Fin q) = Fin r /\ (r == p - q)%Q.
Proof.
  eexists. split; [reflexivity |].
  cbv beta. rewrite !Qred_correct. reflexivity.
Qed.

(** ** The sides of a composite border *)

(** X7.  [createCompositeBorderItems] draws the sides of a width above
    zero, in the order top, right, bottom, left, each by one rectangle
    along its own edge of the box of the element: the top strip starts at
    [y], the bottom strip ends at [y + h], the left strip starts at [x],
    the right strip ends at [x + w]; each is as thick as its side is
    wide, has the colour of its side, and lies one zIndex above the
    element with the domOrder of the element. *)
Theorem composite_border_strips {L : Type} (sides : Sides) (x y w h s : Q)
    (z : intnum) (d : nat) :
  Forall (fun side => exists q, side_width side = Fin q)
    [side_top sides; side_right sides; side_bottom sides; side_left sides] ->
  Forall2 (Spec.borderStrip sides x y w h s z d) (Spec.edgesDrawn sides)
    (createCompositeBorderItems (LineOptions := L) sides (Fin x) (Fin y) (Fin w) (Fin h)
       (Fin s) z d).
Proof.
  intros Hfin. rewrite !Forall_cons_iff in Hfin.
  destruct Hfin as [[qt Ht] [[qr Hr] [[qb Hb] [[ql Hl] _]]]].
  unfold createCompositeBorderItems, Spec.edgesDrawn. cbn [List.filter Spec.sideAt].
  change (div one (of_Z 96)) with (Fin (1 # 96)%Q).
  assert (Hthick : forall q, exists t,
            mul (mul (Fin q) (Fin (1 # 96)%Q)) (Fin s) = Fin t /\ (t == q / 96 * s)%Q).
  { intros q. destruct (mul_Fin q (1 # 96)) as [t1 [-> Ht1]].
    destruct (mul_Fin t1 s) as [t [-> Ht2]]. exists t. split; [reflexivity |].
    rewrite Ht2, Ht1. field. }
  assert (Htop : Spec.borderStrip (L := L) sides x y w h s z d Spec.atTop
                   (borderRect (Fin x) (Fin y) (Fin w)
                      (mul (mul (side_width (side_top sides)) (Fin (1 # 96)%Q)) (Fin s))
                      (side_color (side_top sides)) z d)).
  { rewrite Ht. destruct (Hthick qt) as [t [-> Et]].
    eexists. exists qt. split; [reflexivity |]. split; [exact Ht |].
    split; [| repeat split].
    exists x, y, w, t. cbn [opt_x opt_y opt_w opt_h]. do 4 (split; [reflexivity |]).
    split; [reflexivity |]. split; [reflexivity |]. split; [reflexivity | exact Et]. }
  assert (Hright : Spec.borderStrip (L := L) sides x y w h s z d Spec.atRight
                     (borderRect
                        (sub (add (Fin x) (Fin w))
                           (mul (mul (side_width (side_right sides)) (Fin (1 # 96)%Q))
                              (Fin s)))
                        (Fin y)
                        (mul (mul (side_width (side_right sides)) (Fin (1 # 96)%Q)) (Fin s))
                        (Fin h) (side_color (side_right sides)) z d)).
  { rewrite Hr. destruct (Hthick qr) as [t [-> Et]].
    destruct (add_Fin x w) as [xw [-> Hxw]]. destruct (sub_Fin xw t) as [xr [-> Hxr]].
    eexists. exists qr. split; [reflexivity |]. split; [exact Hr |].
    split; [| repeat split].
    exists xr, y, t, h. cbn [opt_x opt_y opt_w opt_h]. do 4 (split; [reflexivity |]).
    split; [rewrite Hxr, Hxw; ring |]. split; [reflexivity |].
    split; [exact Et | reflexivity]. }
  assert (Hbottom : Spec.borderStrip (L := L) sides x y w h s z d Spec.atBottom
                      (borderRect (Fin x)
                         (sub (add (Fin y) (Fin h))
                            (mul (mul (side_width (side_bottom sides)) (Fin (1 # 96)%Q))
                               (Fin s)))
                         (Fin w)
                         (mul (mul (side_width (side_bottom sides)) (Fin (1 # 96)%Q))
                            (Fin s))
                         (side_color (side_bottom sides)) z d)).
  { rewrite Hb. destruct (Hthick qb) as [t [-> Et]].
    destruct (add_Fin y h) as [yh [-> Hyh]]. destruct (sub_Fin yh t) as [yb [-> Hyb]].
    eexists. exists qb. split; [reflexivity |]. split; [exact Hb |].
    split; [| repeat split].
    exists x, yb, w, t. cbn [opt_x opt_y opt_w opt_h]. do 4 (split; [reflexivity |]).
    split; [reflexivity |]. split; [rewrite Hyb, Hyh; ring |].
    split; [reflexivity | exact Et]. }
  assert (Hleft : Spec.borderStrip (L := L) sides x y w h s z d Spec.atLeft
                    (borderRect (Fin x) (Fin y)
                       (mul (mul (side_width (side_left sides)) (Fin (1 # 96)%Q)) (Fin s))
                       (Fin h) (side_color (side_left sides)) z d)).
  { rewrite Hl. destruct (Hthick ql) as [t [-> Et]].
    eexists. exists ql. split; [reflexivity |]. split; [exact Hl |].
    split; [| repeat split].
    exists x, y, t, h. cbn [opt_x opt_y opt_w opt_h]. do 4 (split; [reflexivity |]).
    split; [reflexivity |]. split; [reflexivity |]. split; [exact Et | reflexivity]. }
  destruct (gt (side_width (side_top sides)) zero),
    (gt (side_width (side_right sides)) zero),
    (gt (side_width (side_bottom sides)) zero),
    (gt (side_width (side_left sides)) zero); cbn [app];
    repeat (constructor; try assumption).
Qed.

(** ** The paragraph properties of a text box *)



(** ** What an element leaves in the queue *)

Section Engine_painting.

Context {LineOptions : Type}.
Variable getBorderInfo : ComputedStyle -> number -> BorderInfo LineOptions.
Variable generateCompositeBorderSVG : number -> number -> number -> Sides -> option string.
Variable getProcessedImage : string -> number -> number -> number -> option string.
Variable svgToPng : Node -> option string.
Variable fraction_toString : Q -> string.

Local Abbreviation createRenderItem' :=
  (createRenderItem getBorderInfo generateCompositeBorderSVG getProcessedImage
     svgToPng fraction_toString).
Local Abbreviation collect' :=
  (collect getBorderInfo generateCompositeBorderSVG getProcessedImage
     svgToPng fraction_toString).
Local Abbreviation collectChildren' :=
  (collectChildren getBorderInfo generateCompositeBorderSVG getProcessedImage
     svgToPng fraction_toString).

Lemma createCompositeBorderItems_no_text (sides : Sides) (x y w h scale : number)
    (z : intnum) (d : nat) :
  List.filter Spec.isTextItem
    (createCompositeBorderItems (LineOptions := LineOptions) sides x y w h scale z d) = [].
Proof.
  unfold createCompositeBorderItems.
  destruct (gt (side_width (side_top sides)) zero),
    (gt (side_width (side_right sides)) zero),
    (gt (side_width (side_bottom sides)) zero),
    (gt (side_width (side_left sides)) zero); reflexivity.
Qed.

(** X9.  An element that is visible but has nothing to paint (no
    background colour of its own or the box of an image wrapper, no
    gradient, no shadow, no border, no text of its own) leaves no item:
    [collect] takes a number for it and goes on with its children. *)
Theorem unpainted_element_leaves_no_item (info : ElementInfo) (kids : list Node)
    (config : LayoutConfig) (st : Collected LineOptions) (rotation : real) :
  isHidden (style info) = false ->
  isEmptyBox (Dom.rect info) = false ->
  getRotation (transform (style info)) = Ok rotation ->
  String.eqb (Str.toUpperCase (nodeName info)) "SVG" = false ->
  String.eqb (tagName info) "IMG" = false ->
  isTextContainer (Elem info kids) = false ->
  (has_hex (parseColor (backgroundColor (style info))) = false
   \/ isImageWrapper (Elem info kids) (widthOf info) (heightOf info) = true) ->
  hasGradient (style info) = false ->
  hasShadow (style info) = false ->
  border_type (getBorderInfo (style info) (scale config)) <> "uniform" ->
  border_type (getBorderInfo (style info) (scale config)) <> "composite" ->
  collect' config (Elem info kids) st
  = collectChildren' config kids
      {| renderQueue := renderQueue st; domOrderCounter := S (domOrderCounter st) |}.
Proof.
  intros Hvis Hbox Hrot Hsvg Himg Htext Hbg Hgrad Hshadow Huni Hcomp.
  rewrite collect_unfold. unfold createRenderItem.
  rewrite Hvis, Hbox, Hrot. cbn [Js.bind]. rewrite Hsvg, Himg.
  unfold textPayload. rewrite Htext.
  assert (Hfill : has_hex (parseColor (backgroundColor (style info)))
                  && negb (isImageWrapper (Elem info kids) (widthOf info) (heightOf info))
                  = false).
  { destruct Hbg as [-> | ->]; [reflexivity | apply andb_false_r]. }
  assert (Hback : paintsBackground info config
                    (isImageWrapper (Elem info kids) (widthOf info) (heightOf info))
                  = false).
  { unfold paintsBackground. rewrite Hgrad. cbn [orb].
    rewrite <- andb_assoc, Hfill. apply andb_false_r. }
  assert (Hshape : paintsShape getBorderInfo info config
                     (isImageWrapper (Elem info kids) (widthOf info) (heightOf info))
                     None = false).
  { unfold paintsShape. rewrite Hfill, Hshadow.
    apply String.eqb_neq in Huni, Hcomp. rewrite Huni, Hcomp. reflexivity. }
  rewrite Hback, Hshape. cbn [Js.bind items stopRecursion].
  rewrite app_nil_r. reflexivity.
Qed.

(** X10.  A visible SVG or IMG element is a leaf of the walk:
    [collect] takes one number for it and does not visit what is below
    it, and it adds to the queue nothing, or else one picture, with the
    zIndex of the element, the number taken, and the box of the
    element. *)
Theorem picture_elements_are_leaves (info : ElementInfo) (kids : list Node)
    (config : LayoutConfig) (st st' : Collected LineOptions) :
  isHidden (style info) = false ->
  isEmptyBox (Dom.rect info) = false ->
  (String.eqb (Str.toUpperCase (nodeName info)) "SVG" = true
   \/ String.eqb (tagName info) "IMG" = true) ->
  collect' config (Elem info kids) st = Ok st' ->
  domOrderCounter st' = S (domOrderCounter st)
  /\ (renderQueue st' = renderQueue st
      \/ exists data rotation,
           renderQueue st'
           = (renderQueue st
              ++ [imageItem (zIndexOf (style info)) (domOrderCounter st) data
                    (box_x (boxOf info config)) (box_y (boxOf info config))
                    (box_w (boxOf info config)) (box_h (boxOf info config))
                    rotation])%list).
Proof.
  intros Hvis Hbox Hkind H. rewrite collect_unfold in H. unfold createRenderItem in H.
  rewrite Hvis, Hbox in H.
  destruct (getRotation (transform (style info))) as [rotation |];
    cbn [Js.bind] in H; [| discriminate].
  destruct (String.eqb (Str.toUpperCase (nodeName info)) "SVG").
  - cbn [Js.bind items stopRecursion] in H. injection H as <-.
    cbn [renderQueue domOrderCounter]. split; [reflexivity |].
    destruct (present (svgToPng (Elem info kids))) as [data |].
    + right. exists data, rotation. reflexivity.
    + left. apply app_nil_r.
  - destruct Hkind as [Hk | Hk]; [discriminate |]. rewrite Hk in H.
    destruct (imageRadius info) as [radius |]; cbn [Js.bind] in H; [| discriminate].
    cbn [items stopRecursion] in H. injection H as <-.
    cbn [renderQueue domOrderCounter]. split; [reflexivity |].
    destruct (present (getProcessedImage (src info) (widthOf info) (heightOf info) radius))
      as [data |].
    + right. exists data, rotation. reflexivity.
    + left. apply app_nil_r.
Qed.

(** X11.  A visible text container with at least one run is a leaf of
    the walk as well, and its runs are drawn once: among the items that
    [collect] adds for it there is one text item, with the number taken
    and the runs of [textPartsOf]; the elements below it get no number. *)
Theorem text_container_yields_one_text_item (info : ElementInfo) (kids : list Node)
    (config : LayoutConfig) (st st' : Collected LineOptions) :
  isHidden (style info) = false ->
  isEmptyBox (Dom.rect info) = false ->
  String.eqb (Str.toUpperCase (nodeName info)) "SVG" = false ->
  String.eqb (tagName info) "IMG" = false ->
  isTextContainer (Elem info kids) = true ->
  textPartsOf (style info) config kids <> [] ->
  collect' config (Elem info kids) st = Ok st' ->
  domOrderCounter st' = S (domOrderCounter st)
  /\ exists new z options,
       renderQueue st' = (renderQueue st ++ new)%list
       /\ List.filter Spec.isTextItem new
          = [TextItem z (domOrderCounter st) (textPartsOf (style info) config kids) options].
Proof.
  intros Hvis Hbox Hsvg Himg Htext Hparts H. rewrite collect_unfold in H.
  unfold createRenderItem in H. rewrite Hvis, Hbox in H.
  destruct (getRotation (transform (style info))) as [rotation |];
    cbn [Js.bind] in H; [| discriminate].
  rewrite Hsvg, Himg in H. unfold textPayload in H. rewrite Htext in H.
  cbn [childNodes_of] in H.
  destruct (textPartsOf (style info) config kids) as [| part parts] eqn:Hp;
    [congruence |].
  cbn [List.length Nat.ltb Nat.leb] in H.
  cbn [Js.bind items stopRecursion] in H.
  set (payload := textPayloadOf (style info) config
                    (parseColor (backgroundColor (style info))) (part :: parts)) in H.
  set (wrapper := isImageWrapper (Elem info kids) (widthOf info) (heightOf info)) in H.
  set (b := shiftedBox (Elem info kids) (style info) config (boxOf info config)) in H.
  assert (Hshape : paintsShape getBorderInfo info config wrapper (Some payload) = true).
  { unfold paintsShape. rewrite !orb_true_r. reflexivity. }
  rewrite Hshape in H. injection H as <-. cbn [renderQueue domOrderCounter].
  split; [reflexivity |].
  destruct (paintsBackground info config wrapper).
  - eexists. eexists. eexists. split; [reflexivity |].
    unfold paintBackground.
    match goal with
    | |- context [let '(_, _) := ?pair in _] => destruct pair as [bgData padIn]
    end.
    rewrite !filter_app.
    assert (Hsides : forall l : list (RenderItem LineOptions),
              l = [] \/ (exists sides x y w h s z d,
                           l = createCompositeBorderItems sides x y w h s z d) ->
              List.filter Spec.isTextItem l = []).
    { intros l [-> | [sides [x [y [w [h [s [z [d ->]]]]]]]]];
        [reflexivity | apply createCompositeBorderItems_no_text]. }
    rewrite (Hsides (if String.eqb _ "composite" then _ else _)).
    2:{ destruct (String.eqb _ "composite"); [right | left; reflexivity].
        do 8 eexists. reflexivity. }
    destruct (present bgData); reflexivity.
  - eexists. eexists. eexists. split; [reflexivity |].
    unfold paintShape. rewrite filter_app. cbn [List.filter Spec.isTextItem app].
    destruct (String.eqb _ "composite"); [| reflexivity].
    destruct (present _); reflexivity.
Qed.

End Engine_painting.

(** ** Numerals *)

Lemma digit_cases (d : Z) (P : Z -> Prop) :
  (0 <= d < 16)%Z ->
  P 0%Z -> P 1%Z -> P 2%Z -> P 3%Z -> P 4%Z -> P 5%Z -> P 6%Z -> P 7%Z ->
  P 8%Z -> P 9%Z -> P 10%Z -> P 11%Z -> P 12%Z -> P 13%Z -> P 14%Z -> P 15%Z ->
  P d.
Proof.
  intros Hd. intros.
  assert (Hcase : (d = 0 \/ d = 1 \/ d = 2 \/ d = 3 \/ d = 4 \/ d = 5 \/ d = 6 \/ d = 7
               \/ d = 8 \/ d = 9 \/ d = 10 \/ d = 11 \/ d = 12 \/ d = 13 \/ d = 14
               \/ d = 15)%Z) by lia.
  repeat (destruct Hcase as [-> | Hcase]; [assumption |]). subst. assumption.
Qed.

Lemma digit_val_digit_char (d : Z) :
  (0 <= d < 16)%Z -> digit_val (digit_char d) = Some d.
Proof.
  intros Hd. pattern d. apply (digit_cases d); [exact Hd | reflexivity ..].
Qed.

Lemma append_assoc (u v w : string) : (u ++ v) ++ w = u ++ (v ++ w).
Proof. induction u as [| a u IH]; cbn; [reflexivity | rewrite IH; reflexivity]. Qed.

Lemma digits_of_acc (radix : Z) :
  forall fuel z acc,
    digits_of fuel radix z acc = digits_of fuel radix z "" ++ acc.
Proof.
  induction fuel as [| fuel IH]; intros z acc; [reflexivity |].
  cbn [digits_of]. destruct (z / radix =? 0)%Z; [reflexivity |].
  rewrite IH. rewrite (IH _ (String _ "")). rewrite append_assoc.
  reflexivity.
Qed.

Lemma digits_of_step (radix : Z) (fuel : nat) (z : Z) :
  (z / radix <> 0)%Z ->
  digits_of (S fuel) radix z ""
  = digits_of fuel radix (z / radix) "" ++ String (digit_char (z mod radix)) "".
Proof.
  intros Hz. cbn [digits_of]. apply Z.eqb_neq in Hz. rewrite Hz.
  apply digits_of_acc.
Qed.

Lemma digits_of_last (radix : Z) (fuel : nat) (z : Z) :
  (z / radix = 0)%Z ->
  digits_of (S fuel) radix z "" = String (digit_char (z mod radix)) "".
Proof.
  intros Hz. cbn [digits_of]. rewrite Hz. reflexivity.
Qed.

Lemma length_append (u v : string) :
  String.length (u ++ v) = String.length u + String.length v.
Proof. induction u as [| a u IH]; cbn; [reflexivity | rewrite IH; reflexivity]. Qed.

(** Reading back the digits that [digits_of] wrote. *)
Lemma digits_digits_of (radix : Z) :
  (2 <= radix <= 16)%Z ->
  forall fuel z,
    (0 <= z < radix ^ Z.of_nat fuel)%Z ->
    forall rest acc n,
      digits radix (digits_of fuel radix z "" ++ rest) acc n
      = digits radix rest
          (acc * radix ^ Z.of_nat (String.length (digits_of fuel radix z "")) + z)%Z
          (n + String.length (digits_of fuel radix z "")).
Proof.
  intros Hr. induction fuel as [| fuel IH]; intros z Hz rest acc n.
  - cbn in Hz. assert (z = 0%Z) by lia. subst z. cbn. f_equal; [lia | lia].
  - assert (Hmod : (0 <= z mod radix < radix)%Z) by (apply Z.mod_pos_bound; lia).
    destruct (Z.eq_dec (z / radix) 0) as [Hq | Hq].
    + rewrite (digits_of_last radix fuel z Hq).
      assert (Hz' : (z mod radix = z)%Z).
      { apply Z.mod_small. apply Z.div_small_iff in Hq; lia. }
      rewrite Hz'. cbn [append String.length digits].
      rewrite digit_val_digit_char by lia.
      assert (Hlt : (z <? radix)%Z = true) by (apply Z.ltb_lt; lia).
      rewrite Hlt. f_equal; [| lia].
      change (Z.of_nat 1) with 1%Z. rewrite Z.pow_1_r. lia.
    + rewrite (digits_of_step radix fuel z Hq).
      rewrite append_assoc. cbn [append].
      assert (Hdiv : (0 <= z / radix < radix ^ Z.of_nat fuel)%Z).
      { split; [apply Z.div_pos; lia |].
        apply Z.div_lt_upper_bound; [lia |].
        rewrite Nat2Z.inj_succ, Z.pow_succ_r in Hz by lia. lia. }
      rewrite (IH _ Hdiv). cbn [digits].
      rewrite digit_val_digit_char by lia.
      assert (Hlt : (z mod radix <? radix)%Z = true) by (apply Z.ltb_lt; lia).
      rewrite Hlt. rewrite length_append. cbn [String.length].
      f_equal; [| lia].
      rewrite Nat2Z.inj_add. change (Z.of_nat 1) with 1%Z.
      rewrite Z.pow_add_r by lia. rewrite Z.pow_1_r.
      pose proof (Z.div_mod z radix ltac:(lia)) as Hdm.
      set (k := (radix ^ Z.of_nat (String.length (digits_of fuel radix (z / radix) "")))%Z).
      nia.
Qed.

Lemma numeral_fuel (z : Z) :
  (0 <= z)%Z -> (0 <= z < 10 ^ Z.of_nat (S (Z.to_nat (Z.log2 z))))%Z.
Proof.
  intros Hz. split; [exact Hz |].
  rewrite Nat2Z.inj_succ, Z2Nat.id by apply Z.log2_nonneg.
  destruct (Z.eq_dec z 0) as [-> | Hnz]; [reflexivity |].
  apply Z.lt_le_trans with (2 ^ Z.succ (Z.log2 z))%Z.
  - apply Z.log2_spec. lia.
  - apply Z.pow_le_mono_l. lia.
Qed.

Lemma numeral_nonneg (z : Z) :
  (0 <= z)%Z ->
  Spec.numeral z = digits_of (S (Z.to_nat (Z.log2 z))) 10 z "".
Proof.
  intros Hz. unfold Spec.numeral, Z_toString.
  assert (Hlt : (z <? 0)%Z = false) by (apply Z.ltb_ge; exact Hz).
  rewrite Hlt, Z.abs_eq by exact Hz. reflexivity.
Qed.

Lemma numeral_negative (z : Z) :
  (z < 0)%Z -> Spec.numeral z = String "-" (Spec.numeral (- z)).
Proof.
  intros Hz. unfold Spec.numeral, Z_toString.
  assert (Hlt : (z <? 0)%Z = true) by (apply Z.ltb_lt; exact Hz).
  assert (Hge : (- z <? 0)%Z = false) by (apply Z.ltb_ge; lia).
  rewrite Hlt, Hge, Z.abs_opp. reflexivity.
Qed.

(** The numeral of a natural number starts with a decimal digit. *)
Lemma digits_of_head (fuel : nat) :
  forall z acc,
    exists d s, (0 <= d < 10)%Z /\ digits_of (S fuel) 10 z acc = String (digit_char d) s.
Proof.
  induction fuel as [| fuel IH]; intros z acc.
  - exists (z mod 10)%Z, acc. split; [apply Z.mod_pos_bound; lia |].
    cbn [digits_of]. destruct (z / 10 =? 0)%Z; reflexivity.
  - remember (S fuel) as f. cbn [digits_of].
    destruct (z / 10 =? 0)%Z.
    + exists (z mod 10)%Z, acc. split; [apply Z.mod_pos_bound; lia | reflexivity].
    + subst f. apply IH.
Qed.

Lemma numeral_head (z : Z) :
  (0 <= z)%Z ->
  exists d s, (0 <= d < 10)%Z /\ Spec.numeral z = String (digit_char d) s.
Proof. intros Hz. rewrite (numeral_nonneg z Hz). apply digits_of_head. Qed.

Lemma digits_of_every_digit (fuel : nat) :
  forall z acc,
    Spec.every Str.is_digit acc = true ->
    Spec.every Str.is_digit (digits_of fuel 10 z acc) = true.
Proof.
  assert (Hd : forall z, Str.is_digit (digit_char (z mod 10)) = true).
  { intros z. pose proof (Z.mod_pos_bound z 10 ltac:(lia)) as Hb.
    assert (Hcase : (z mod 10 = 0 \/ z mod 10 = 1 \/ z mod 10 = 2 \/ z mod 10 = 3
                     \/ z mod 10 = 4 \/ z mod 10 = 5 \/ z mod 10 = 6 \/ z mod 10 = 7
                     \/ z mod 10 = 8 \/ z mod 10 = 9)%Z) by lia.
    repeat (destruct Hcase as [-> | Hcase]; [reflexivity |]). rewrite Hcase. reflexivity. }
  induction fuel as [| fuel IH]; intros z acc Hacc; [exact Hacc |].
  cbn [digits_of].
  assert (Hacc' : Spec.every Str.is_digit (String (digit_char (z mod 10)) acc) = true).
  { cbn [Spec.every]. rewrite Hd, Hacc. reflexivity. }
  destruct (z / 10 =? 0)%Z; [exact Hacc' | apply IH; exact Hacc'].
Qed.

Lemma numeral_every_digit (z : Z) :
  (0 <= z)%Z -> Spec.every Str.is_digit (Spec.numeral z) = true.
Proof.
  intros Hz. rewrite (numeral_nonneg z Hz). apply digits_of_every_digit. reflexivity.
Qed.

(** The digits of a numeral of a natural number, read back. *)
Lemma digits_numeral (z : Z) (rest : string) :
  (0 <= z)%Z ->
  digits 10 (Spec.numeral z ++ rest) 0 0
  = digits 10 rest z (String.length (Spec.numeral z)).
Proof.
  intros Hz. rewrite (numeral_nonneg z Hz).
  rewrite (digits_digits_of 10 ltac:(lia) _ z (numeral_fuel z Hz)).
  reflexivity.
Qed.

Lemma numeral_length (z : Z) : (0 <= z)%Z -> String.length (Spec.numeral z) <> 0.
Proof.
  intros Hz. destruct (numeral_head z Hz) as [d [s [_ ->]]]. discriminate.
Qed.

(** A string that starts with a decimal digit has no white space to
    trim and no sign to split off, and is not the word Infinity. *)
Lemma digit_start (d : Z) (s : string) :
  (0 <= d < 10)%Z ->
  Str.trimStart (String (digit_char d) s) = String (digit_char d) s
  /\ split_sign (String (digit_char d) s) = (false, String (digit_char d) s)
  /\ Str.startsWith (String (digit_char d) s) "Infinity" = false.
Proof.
  intros Hd.
  assert (Hcase : (d = 0 \/ d = 1 \/ d = 2 \/ d = 3 \/ d = 4 \/ d = 5 \/ d = 6 \/ d = 7
                   \/ d = 8 \/ d = 9)%Z) by lia.
  repeat (destruct Hcase as [-> | Hcase]; [repeat split |]). subst. repeat split.
Qed.

(** The numeral of a positive number does not start with a zero. *)
Lemma digits_of_leading (fuel : nat) :
  forall z acc,
    (0 < z < 10 ^ Z.of_nat fuel)%Z ->
    exists d s, (1 <= d < 10)%Z /\ digits_of fuel 10 z acc = String (digit_char d) s.
Proof.
  induction fuel as [| fuel IH]; intros z acc Hz.
  - cbn in Hz. lia.
  - cbn [digits_of]. destruct (Z.eq_dec (z / 10) 0) as [Hq | Hq].
    + rewrite Hq. cbn [Z.eqb]. exists (z mod 10)%Z, acc.
      apply Z.div_small_iff in Hq; [| lia].
      rewrite Z.mod_small by lia. split; [lia | reflexivity].
    + apply Z.eqb_neq in Hq as Hq'. rewrite Hq'. apply IH.
      rewrite Nat2Z.inj_succ, Z.pow_succ_r in Hz by lia.
      split.
      * assert (0 <= z / 10)%Z by (apply Z.div_pos; lia). lia.
      * apply Z.div_lt_upper_bound; lia.
Qed.

Lemma startsWith_empty (s : string) : Str.startsWith s "" = true.
Proof. destruct s; reflexivity. Qed.

Lemma hex_prefix_digit (d : Z) (s : string) :
  (1 <= d < 10)%Z ->
  Str.startsWith (String (digit_char d) s) "0x" = false
  /\ Str.startsWith (String (digit_char d) s) "0X" = false.
Proof.
  intros Hd.
  assert (Hcase : (d = 1 \/ d = 2 \/ d = 3 \/ d = 4 \/ d = 5 \/ d = 6 \/ d = 7
                   \/ d = 8 \/ d = 9)%Z) by lia.
  repeat (destruct Hcase as [-> | Hcase]; [split; reflexivity |]). subst.
  split; reflexivity.
Qed.

(** What stops the digits of a numeral. *)
Lemma digits_stop (c : ascii) (rest : string) (acc : Z) (n : nat) :
  Str.is_digit c = false ->
  digits 10 (String c rest) acc n = (acc, n, String c rest).
Proof.
  intros Hc. cbn [digits]. unfold digit_val. rewrite Hc.
  destruct (Str.is_lower c) eqn:Hl.
  - assert (Hbig : (Z.of_nat (Str.code c - 87) <? 10)%Z = false).
    { apply Z.ltb_ge. unfold Str.is_lower in Hl.
      apply andb_true_iff in Hl. destruct Hl as [Hl _].
      apply Nat.leb_le in Hl. lia. }
    rewrite Hbig. reflexivity.
  - destruct (Str.is_upper c) eqn:Hu; [| reflexivity].
    assert (Hbig : (Z.of_nat (Str.code c - 55) <? 10)%Z = false).
    { apply Z.ltb_ge. unfold Str.is_upper in Hu.
      apply andb_true_iff in Hu. destruct Hu as [Hu _].
      apply Nat.leb_le in Hu. lia. }
    rewrite Hbig. reflexivity.
Qed.

Lemma digits_numeral_stop (z : Z) (rest : string) :
  (0 <= z)%Z ->
  Spec.stopsAt Str.is_digit rest = true ->
  digits 10 (Spec.numeral z ++ rest) 0 0 = (z, String.length (Spec.numeral z), rest).
Proof.
  intros Hz Hrest. rewrite (digits_numeral z rest Hz).
  destruct rest as [| c rest]; [reflexivity |].
  apply digits_stop. cbn [Spec.stopsAt] in Hrest.
  apply negb_true_iff. exact Hrest.
Qed.

(** [parseInt] after the sign: a decimal numeral is read back, whatever
    follows it that is not a digit or the x of a hexadecimal prefix. *)
Lemma parseInt_after_sign (negative : bool) (z : Z) (rest : string) :
  (0 <= z)%Z ->
  Spec.stopsAt (fun c => Str.is_digit c || Ascii.eqb c "x" || Ascii.eqb c "X") rest = true ->
  (let '(radix, s) :=
     if Str.startsWith (Spec.numeral z ++ rest) "0x"
        || Str.startsWith (Spec.numeral z ++ rest) "0X"
     then (16%Z, Str.drop 2 (Spec.numeral z ++ rest))
     else (10%Z, Spec.numeral z ++ rest) in
   let '(v, n, _) := digits radix s 0%Z 0 in
   if Nat.eqb n 0 then INaN else Int (signed negative v))
  = Int (signed negative z).
Proof.
  intros Hz Hrest.
  assert (Hstop : Spec.stopsAt Str.is_digit rest = true).
  { destruct rest as [| c rest]; [reflexivity |]. cbn [Spec.stopsAt] in *.
    destruct (Str.is_digit c); [discriminate | reflexivity]. }
  pose proof (digits_numeral_stop z rest Hz Hstop) as Hdigits.
  pose proof (numeral_length z Hz) as Hlen.
  assert (Hx : Str.startsWith (Spec.numeral z ++ rest) "0x"
               || Str.startsWith (Spec.numeral z ++ rest) "0X" = false).
  { destruct (Z.eq_dec z 0) as [-> | Hnz].
    - change (Spec.numeral 0) with "0". cbn [append].
      destruct rest as [| c rest]; [reflexivity |].
      cbn [Spec.stopsAt] in Hrest. cbn [Str.startsWith].
      rewrite !startsWith_empty, !andb_true_r.
      rewrite (Ascii.eqb_sym "x" c), (Ascii.eqb_sym "X" c).
      destruct (Ascii.eqb c "x"), (Ascii.eqb c "X"); try reflexivity;
        rewrite ?orb_true_r in Hrest; cbn in Hrest; try discriminate;
        destruct (Str.is_digit c); discriminate.
    - assert (Hpos : (0 < z < 10 ^ Z.of_nat (S (Z.to_nat (Z.log2 z))))%Z).
      { pose proof (numeral_fuel z Hz). lia. }
      destruct (digits_of_leading _ z "" Hpos) as [d [s [Hd Hs]]].
      rewrite <- (numeral_nonneg z Hz) in Hs. rewrite Hs. cbn [append].
      destruct (hex_prefix_digit d (s ++ rest) Hd) as [-> ->]. reflexivity. }
  rewrite Hx, Hdigits.
  destruct (String.length (Spec.numeral z)); [congruence | reflexivity].
Qed.

Lemma parseInt_numeral_nonneg (z : Z) (rest : string) :
  (0 <= z)%Z ->
  Spec.stopsAt (fun c => Str.is_digit c || Ascii.eqb c "x" || Ascii.eqb c "X") rest = true ->
  parseInt (Spec.numeral z ++ rest) = Int z.
Proof.
  intros Hz Hrest. unfold parseInt.
  destruct (numeral_head z Hz) as [d [s [Hd Hs]]].
  assert (Hsign : split_sign (Str.trimStart (Spec.numeral z ++ rest))
                  = (false, Spec.numeral z ++ rest)).
  { rewrite Hs. cbn [append].
    destruct (digit_start d (s ++ rest) Hd) as [-> [-> _]]. reflexivity. }
  rewrite Hsign. apply (parseInt_after_sign false z rest Hz Hrest).
Qed.

(** [parseInt] reads back the decimal numeral of every integer. *)
Lemma parseInt_numeral (z : Z) : parseInt (Spec.numeral z) = Int z.
Proof.
  destruct (Z_lt_le_dec z 0) as [Hneg | Hz].
  - rewrite (numeral_negative z Hneg). unfold parseInt.
    change (split_sign (Str.trimStart (String "-" (Spec.numeral (- z)))))
      with (true, Spec.numeral (- z)).
    cbv iota. rewrite <- (append_empty_r (Spec.numeral (- z))).
    rewrite (parseInt_after_sign true (- z) "" ltac:(lia) eq_refl).
    cbn [signed]. f_equal. lia.
  - rewrite <- (append_empty_r (Spec.numeral z)).
    apply parseInt_numeral_nonneg; [exact Hz | reflexivity].
Qed.

(** [parseFloat] after the sign, on a numeral and what follows it. *)
Lemma not_dot_match {A : Type} (c : ascii) (t : string) (a : string -> A) (b : A) :
  Ascii.eqb c "." = false ->
  match String c t with
  | String "." t' => a t'
  | _ => b
  end = b.
Proof.
  destruct c as [[|] [|] [|] [|] [|] [|] [|] [|]]; intros H;
    try reflexivity; discriminate.
Qed.

Lemma parseFloat_after_sign (negative : bool) (z : Z) (rest : string) :
  (0 <= z)%Z ->
  Spec.stopsAt
    (fun c => Str.is_digit c || Ascii.eqb c "." || Ascii.eqb c "e" || Ascii.eqb c "E")
    rest = true ->
  (if Str.startsWith (Spec.numeral z ++ rest) "Infinity"
   then (if negative then NInf else PInf)
   else
     let '(ip, ni, s1) := digits 10 (Spec.numeral z ++ rest) 0%Z 0 in
     let '(fp, nf, s2) :=
       match s1 with
       | String "." t => digits 10 t 0%Z 0
       | _ => (0%Z, 0, s1)
       end in
     if Nat.eqb (ni + nf) 0 then NaN
     else
       let m := (ip * 10 ^ Z.of_nat nf + fp)%Z in
       fin (scale10 (signed negative m) (exponent s2 - Z.of_nat nf)))
  = of_Z (signed negative z).
Proof.
  intros Hz Hrest.
  assert (Hstop : Spec.stopsAt Str.is_digit rest = true).
  { destruct rest as [| c rest]; [reflexivity |]. cbn [Spec.stopsAt] in *.
    destruct (Str.is_digit c); [discriminate | reflexivity]. }
  pose proof (digits_numeral_stop z rest Hz Hstop) as Hdigits.
  pose proof (numeral_length z Hz) as Hlen.
  destruct (numeral_head z Hz) as [d [s [Hd Hs]]].
  assert (Hinf : Str.startsWith (Spec.numeral z ++ rest) "Infinity" = false).
  { rewrite Hs. cbn [append]. apply (digit_start d (s ++ rest) Hd). }
  rewrite Hinf, Hdigits.
  assert (Hfrac : match rest with
                  | String "." t => digits 10 t 0%Z 0
                  | _ => (0%Z, 0, rest)
                  end = (0%Z, 0, rest)).
  { destruct rest as [| c rest]; [reflexivity |].
    apply (not_dot_match c rest (fun t => digits 10 t 0%Z 0)).
    cbn [Spec.stopsAt] in Hrest. apply negb_true_iff in Hrest.
    destruct (Ascii.eqb c "."); [| reflexivity].
    rewrite orb_true_r in Hrest. discriminate. }
  rewrite Hfrac.
  assert (Hexp : exponent rest = 0%Z).
  { destruct rest as [| c rest]; [reflexivity |]. cbn [exponent].
    cbn [Spec.stopsAt] in Hrest. apply negb_true_iff in Hrest.
    destruct (Ascii.eqb c "e"); [rewrite ?orb_true_r in Hrest; discriminate |].
    destruct (Ascii.eqb c "E"); [rewrite ?orb_true_r in Hrest; discriminate |].
    reflexivity. }
  rewrite Hexp.
  destruct (String.length (Spec.numeral z)) as [| n]; [congruence |].
  cbn [Nat.add Nat.eqb]. cbv zeta.
  change (Z.of_nat 0) with 0%Z. unfold scale10. cbn [Z.sub Z.opp Z.add Z.leb Z.compare].
  unfold fin, of_Z. rewrite Qred_inject_Z. f_equal. f_equal.
  rewrite Z.pow_0_r. destruct negative; cbn [signed]; lia.
Qed.

Lemma parseFloat_numeral_nonneg (z : Z) (rest : string) :
  (0 <= z)%Z ->
  Spec.stopsAt
    (fun c => Str.is_digit c || Ascii.eqb c "." || Ascii.eqb c "e" || Ascii.eqb c "E")
    rest = true ->
  parseFloat (Spec.numeral z ++ rest) = of_Z z.
Proof.
  intros Hz Hrest. unfold parseFloat.
  destruct (numeral_head z Hz) as [d [s [Hd Hs]]].
  assert (Hsign : split_sign (Str.trimStart (Spec.numeral z ++ rest))
                  = (false, Spec.numeral z ++ rest)).
  { rewrite Hs. cbn [append].
    destruct (digit_start d (s ++ rest) Hd) as [-> [-> _]]. reflexivity. }
  rewrite Hsign. apply (parseFloat_after_sign false z rest Hz Hrest).
Qed.

(** [parseFloat] reads back a length in pixels. *)
Lemma parseFloat_px (n : Z) : parseFloat (Spec.px n) = of_Z n.
Proof.
  unfold Spec.px. destruct (Z_lt_le_dec n 0) as [Hneg | Hn].
  - rewrite (numeral_negative n Hneg). unfold parseFloat. cbn [append].
    change (split_sign (Str.trimStart (String "-" (Spec.numeral (- n) ++ "px"))))
      with (true, Spec.numeral (- n) ++ "px").
    transitivity (of_Z (signed true (- n)));
      [| cbn [signed]; f_equal; lia].
    apply (parseFloat_after_sign true (- n) "px" ltac:(lia) eq_refl).
  - apply parseFloat_numeral_nonneg; [exact Hn | reflexivity].
Qed.

(** ** Character classes under a quantifier *)

Lemma clear_nil (c : Regex.caps) : Regex.clear [] c = c.
Proof.
  unfold Regex.clear. apply forallb_filter_id. apply forallb_forall.
  intros x _. reflexivity.
Qed.

Lemma spanLength_le (p : ascii -> bool) (s : string) :
  Spec.spanLength p s <= String.length s.
Proof.
  induction s as [| a s IH]; [apply Nat.le_refl |].
  cbn [Spec.spanLength String.length]. destruct (p a); lia.
Qed.

(** A greedy quantifier over a class takes the longest run of the class
    when the rest of the pattern accepts what follows it. *)
Lemma repeat_class_greedy (p : ascii -> bool) (k : Regex.cont) :
  forall fuel lo s c x,
    Spec.spanLength p s < fuel ->
    lo <= Spec.spanLength p s ->
    k (Str.drop (Spec.spanLength p s) s) c = Some x ->
    Regex.repeat
      (fun s' c' d => Regex.run (Regex.Chr p) s' (Regex.clear (Regex.groups_of (Regex.Chr p)) c') d)
      k true fuel lo None s c = Some x.
Proof.
  set (body := fun s' c' d =>
                 Regex.run (Regex.Chr p) s' (Regex.clear (Regex.groups_of (Regex.Chr p)) c') d).
  assert (Hbody : forall s c d,
            body s c d
            = match s with
              | String a s' => if p a then d s' c else None
              | EmptyString => None
              end).
  { intros s c d. unfold body. cbn [Regex.groups_of Regex.run]. rewrite clear_nil.
    reflexivity. }
  clearbody body.
  induction fuel as [| fuel IH]; intros lo s c x Hfuel Hlo Hk; [lia |].
  cbn [Regex.repeat Regex.pred_opt option_map]. rewrite Hbody.
  destruct s as [| a s].
  - cbn [Spec.spanLength] in *. assert (lo = 0) by lia. subst lo.
    cbn [Nat.eqb Regex.orelse]. exact Hk.
  - cbn [Spec.spanLength] in *. destruct (p a) eqn:Hp.
    + assert (Hlen : Nat.eqb (String.length s) (String.length (String a s)) = false).
      { apply Nat.eqb_neq. cbn [String.length]. lia. }
      rewrite Hlen, andb_false_r.
      cbn [Str.drop] in Hk.
      rewrite (IH (Nat.pred lo) s c x ltac:(lia) ltac:(lia) Hk).
      destruct (Nat.eqb lo 0); reflexivity.
    + assert (lo = 0) by lia. subst lo. cbn [Nat.eqb Regex.orelse]. exact Hk.
Qed.

(** It fails when the run is shorter than the least number of rounds. *)
Lemma repeat_class_short (p : ascii -> bool) (k : Regex.cont) (greedy : bool) :
  forall fuel lo s c,
    Spec.spanLength p s < lo ->
    Regex.repeat
      (fun s' c' d => Regex.run (Regex.Chr p) s' (Regex.clear (Regex.groups_of (Regex.Chr p)) c') d)
      k greedy fuel lo None s c = None.
Proof.
  set (body := fun s' c' d =>
                 Regex.run (Regex.Chr p) s' (Regex.clear (Regex.groups_of (Regex.Chr p)) c') d).
  assert (Hbody : forall s c d,
            body s c d
            = match s with
              | String a s' => if p a then d s' c else None
              | EmptyString => None
              end).
  { intros s c d. unfold body. cbn [Regex.groups_of Regex.run]. rewrite clear_nil.
    reflexivity. }
  clearbody body.
  induction fuel as [| fuel IH]; intros lo s c Hlo; [reflexivity |].
  cbn [Regex.repeat Regex.pred_opt option_map]. rewrite Hbody.
  assert (Hlo0 : Nat.eqb lo 0 = false) by (apply Nat.eqb_neq; lia).
  rewrite Hlo0. cbn [andb].
  destruct s as [| a s]; [reflexivity |].
  cbn [Spec.spanLength] in Hlo. destruct (p a); [| reflexivity].
  apply IH. lia.
Qed.

Lemma run_class (p : ascii -> bool) (lo : nat) (s : string) (c : Regex.caps)
    (k : Regex.cont) (x : Regex.state) :
  lo <= Spec.spanLength p s ->
  k (Str.drop (Spec.spanLength p s) s) c = Some x ->
  Regex.run (Regex.Rep true lo None (Regex.Chr p)) s c k = Some x.
Proof.
  intros Hlo Hk. cbn [Regex.run]. apply repeat_class_greedy; [| exact Hlo | exact Hk].
  pose proof (spanLength_le p s). lia.
Qed.

Lemma run_class_short (p : ascii -> bool) (greedy : bool) (lo : nat) (s : string)
    (c : Regex.caps) (k : Regex.cont) :
  Spec.spanLength p s < lo ->
  Regex.run (Regex.Rep greedy lo None (Regex.Chr p)) s c k = None.
Proof. intros Hlo. cbn [Regex.run]. apply repeat_class_short. exact Hlo. Qed.

Lemma spanLength_app (p : ascii -> bool) (u v : string) :
  Spec.every p u = true -> Spec.stopsAt p v = true ->
  Spec.spanLength p (u ++ v) = String.length u.
Proof.
  intros Hu Hv. induction u as [| a u IH].
  - cbn [append String.length]. destruct v as [| b v]; [reflexivity |].
    cbn [Spec.stopsAt] in Hv. cbn [Spec.spanLength].
    apply negb_true_iff in Hv. rewrite Hv. reflexivity.
  - cbn [Spec.every] in Hu. apply andb_true_iff in Hu. destruct Hu as [Ha Hu].
    cbn [append Spec.spanLength String.length]. rewrite Ha, (IH Hu). reflexivity.
Qed.

Lemma drop_app (u v : string) : Str.drop (String.length u) (u ++ v) = v.
Proof. induction u as [| a u IH]; [destruct v; reflexivity | exact IH]. Qed.

Lemma take_app (u v : string) : Str.take (String.length u) (u ++ v) = u.
Proof.
  induction u as [| a u IH]; [destruct v; reflexivity |].
  cbn [String.length append Str.take]. rewrite IH. reflexivity.
Qed.

(** The leftmost match of a quantified class: after a stretch outside the
    class, a run of the class that something else ends. *)
Lemma exec_from_class (p : ascii -> bool) (lo : nat) (pre u v : string) :
  1 <= lo -> lo <= String.length u ->
  Spec.every (fun c => negb (p c)) pre = true ->
  Spec.every p u = true ->
  Spec.stopsAt p v = true ->
  forall pos,
    Regex.exec_from (Regex.Rep true lo None (Regex.Chr p)) pos (pre ++ u ++ v)
    = Some {| Regex.index := pos + String.length pre;
              Regex.matched := u;
              Regex.groups := [];
              Regex.after := v |}.
Proof.
  intros Hlo1 Hlo Hpre Hu Hv. induction pre as [| a pre IH]; intros pos.
  - cbn [append String.length].
    assert (Hfound : Regex.exec_here (Regex.Rep true lo None (Regex.Chr p)) pos (u ++ v)
                     = Some {| Regex.index := pos + 0; Regex.matched := u;
                               Regex.groups := []; Regex.after := v |}).
    { unfold Regex.exec_here.
      rewrite (run_class p lo (u ++ v) [] Regex.done (v, [])).
      - rewrite length_append, Nat.add_sub, take_app, Nat.add_0_r. reflexivity.
      - rewrite (spanLength_app p u v Hu Hv). exact Hlo.
      - rewrite (spanLength_app p u v Hu Hv), drop_app. reflexivity. }
    destruct (u ++ v); cbn [Regex.exec_from]; rewrite Hfound; reflexivity.
  - cbn [Spec.every] in Hpre. apply andb_true_iff in Hpre. destruct Hpre as [Ha Hpre].
    cbn [append Regex.exec_from]. unfold Regex.exec_here.
    rewrite run_class_short.
    + rewrite (IH Hpre). cbn [String.length]. do 2 f_equal. lia.
    + cbn [Spec.spanLength]. apply negb_true_iff in Ha. rewrite Ha. lia.
Qed.

Lemma exec_from_class_none (p : ascii -> bool) (lo : nat) (s : string) :
  1 <= lo ->
  Spec.every (fun c => negb (p c)) s = true ->
  forall pos, Regex.exec_from (Regex.Rep true lo None (Regex.Chr p)) pos s = None.
Proof.
  intros Hlo Hs. induction s as [| a s IH]; intros pos.
  - cbn [Regex.exec_from]. unfold Regex.exec_here.
    rewrite run_class_short; [reflexivity | cbn; lia].
  - cbn [Spec.every] in Hs. apply andb_true_iff in Hs. destruct Hs as [Ha Hs].
    cbn [Regex.exec_from]. unfold Regex.exec_here.
    rewrite run_class_short; [apply (IH Hs) |].
    cbn [Spec.spanLength]. apply negb_true_iff in Ha. rewrite Ha. lia.
Qed.

(** All the matches, one at a time. *)
Lemma match_all_class_step (p : ascii -> bool) (lo : nat) (pre u v : string) (fuel : nat) :
  1 <= lo -> lo <= String.length u ->
  Spec.every (fun c => negb (p c)) pre = true ->
  Spec.every p u = true ->
  Spec.stopsAt p v = true ->
  Regex.match_all_from (S fuel) (Regex.Rep true lo None (Regex.Chr p)) (pre ++ u ++ v)
  = u :: Regex.match_all_from fuel (Regex.Rep true lo None (Regex.Chr p)) v.
Proof.
  intros Hlo1 Hlo Hpre Hu Hv. cbn [Regex.match_all_from]. unfold Regex.exec.
  rewrite (exec_from_class p lo pre u v Hlo1 Hlo Hpre Hu Hv).
  cbn [Regex.matched Regex.after].
  destruct u as [| a u]; [cbn in Hlo; lia | reflexivity].
Qed.

Lemma match_all_class_none (p : ascii -> bool) (lo : nat) (s : string) (fuel : nat) :
  1 <= lo ->
  Spec.every (fun c => negb (p c)) s = true ->
  Regex.match_all_from fuel (Regex.Rep true lo None (Regex.Chr p)) s = [].
Proof.
  intros Hlo Hs. destruct fuel as [| fuel]; [reflexivity |].
  cbn [Regex.match_all_from]. unfold Regex.exec.
  rewrite (exec_from_class_none p lo s Hlo Hs). reflexivity.
Qed.

Lemma every_weaken (p q : ascii -> bool) (s : string) :
  (forall c, p c = true -> q c = true) ->
  Spec.every p s = true -> Spec.every q s = true.
Proof.
  intros Hpq. induction s as [| a s IH]; [reflexivity |].
  cbn [Spec.every]. rewrite !andb_true_iff. intros [Ha Hs].
  split; [apply Hpq; exact Ha | apply IH; exact Hs].
Qed.

Lemma numeral_numeric (z : Z) :
  (0 <= z)%Z -> Spec.every Spec.numeric (Spec.numeral z) = true.
Proof.
  intros Hz. apply (every_weaken Str.is_digit); [| apply numeral_every_digit; exact Hz].
  intros c Hc. unfold Spec.numeric. rewrite Hc. reflexivity.
Qed.

Lemma numeral_length_pos (z : Z) : (0 <= z)%Z -> 1 <= String.length (Spec.numeral z).
Proof. intros Hz. pose proof (numeral_length z Hz). lia. Qed.

(** ** Colours *)

(** The numbers of an rgb colour, as the pattern for numbers finds
    them. *)
Lemma match_all_rgbText (r g b : Z) :
  (0 <= r)%Z -> (0 <= g)%Z -> (0 <= b)%Z ->
  Regex.match_all re_numbers (Spec.rgbText r g b)
  = Some [Spec.numeral r; Spec.numeral g; Spec.numeral b].
Proof.
  intros Hr Hg Hb. unfold Regex.match_all, Spec.rgbText.
  change re_numbers with (Regex.Rep true 1 None (Regex.Chr Spec.numeric)).
  cbn [append String.length].
  change (String "r" (String "g" (String "b" (String "(" ?x))))
    with ("rgb(" ++ x).
  rewrite (match_all_class_step Spec.numeric 1 "rgb(" (Spec.numeral r)
             (", " ++ Spec.numeral g ++ ", " ++ Spec.numeral b ++ ")"));
    [| apply Nat.le_refl | apply numeral_length_pos; exact Hr | reflexivity
     | apply numeral_numeric; exact Hr | reflexivity].
  rewrite (match_all_class_step Spec.numeric 1 ", " (Spec.numeral g)
             (", " ++ Spec.numeral b ++ ")"));
    [| apply Nat.le_refl | apply numeral_length_pos; exact Hg | reflexivity
     | apply numeral_numeric; exact Hg | reflexivity].
  rewrite (match_all_class_step Spec.numeric 1 ", " (Spec.numeral b) ")");
    [| apply Nat.le_refl | apply numeral_length_pos; exact Hb | reflexivity
     | apply numeral_numeric; exact Hb | reflexivity].
  rewrite match_all_class_none; [reflexivity | apply Nat.le_refl | reflexivity].
Qed.

Lemma toInt32_small (v : Z) :
  (- 2 ^ 31 <= v < 2 ^ 31)%Z -> toInt32 (Int v) = v.
Proof.
  intros Hv. unfold toInt32. rewrite Z.mod_small; lia.
Qed.

Lemma shl_small (v k : Z) :
  (0 <= k < 32)%Z -> (0 <= v)%Z -> (v * 2 ^ k < 2 ^ 31)%Z ->
  shl (Int v) k = Int (v * 2 ^ k).
Proof.
  intros Hk Hv Hlt. unfold shl.
  assert (Hland : Z.land k 31 = k).
  { change 31%Z with (Z.ones 5). rewrite Z.land_ones by lia.
    apply Z.mod_small. change (2 ^ 5)%Z with 32%Z. lia. }
  assert (Hpow : (1 <= 2 ^ k)%Z) by (apply Z.pow_le_mono_r with (b := 0%Z) (c := k); lia).
  rewrite Hland, (toInt32_small v) by nia.
  rewrite Z.shiftl_mul_pow2 by lia.
  rewrite toInt32_small by nia. reflexivity.
Qed.

(** Writing one more hexadecimal digit. *)
Lemma digits_of_push (fuel : nat) (x d : Z) :
  (0 < x)%Z -> (0 <= d < 16)%Z ->
  digits_of (S fuel) 16 (x * 16 + d) ""
  = digits_of fuel 16 x "" ++ String (digit_char d) "".
Proof.
  intros Hx Hd.
  assert (Hdiv : ((x * 16 + d) / 16 = x)%Z) by (Z.div_mod_to_equations; lia).
  assert (Hmod : ((x * 16 + d) mod 16 = d)%Z) by (Z.div_mod_to_equations; lia).
  rewrite digits_of_step by lia. rewrite Hdiv, Hmod. reflexivity.
Qed.

Lemma upper_digit_char (d : Z) :
  (0 <= d < 16)%Z -> Str.upper_char (digit_char d) = Spec.hexDigit d.
Proof.
  intros Hd. pattern d. apply (digit_cases d); [exact Hd | reflexivity ..].
Qed.

(** The six hexadecimal digits of three bytes. *)
Lemma hex_of_bytes (r g b : Z) :
  (0 <= r < 256)%Z -> (0 <= g < 256)%Z -> (0 <= b < 256)%Z ->
  Str.toUpperCase
    (Str.drop 1 (Z_toString 16 (16777216 + r * 65536 + g * 256 + b)))
  = Spec.hexByte r ++ Spec.hexByte g ++ Spec.hexByte b.
Proof.
  intros Hr Hg Hb.
  set (n := (16777216 + r * 65536 + g * 256 + b)%Z).
  assert (Hn : (2 ^ 24 <= n < 2 ^ 25)%Z) by (unfold n; lia).
  assert (Hlog : Z.log2 n = 24%Z).
  { apply Z.log2_unique; [lia |]. exact Hn. }
  unfold Z_toString.
  assert (Hpos : (n <? 0)%Z = false) by (apply Z.ltb_ge; lia).
  rewrite Hpos, Z.abs_eq, Hlog by lia.
  change (S (Z.to_nat 24)) with 25. cbn [append].
  assert (Hr1 : (0 <= r / 16 < 16)%Z) by (Z.div_mod_to_equations; lia).
  assert (Hr0 : (0 <= r mod 16 < 16)%Z) by (Z.div_mod_to_equations; lia).
  assert (Hg1 : (0 <= g / 16 < 16)%Z) by (Z.div_mod_to_equations; lia).
  assert (Hg0 : (0 <= g mod 16 < 16)%Z) by (Z.div_mod_to_equations; lia).
  assert (Hb1 : (0 <= b / 16 < 16)%Z) by (Z.div_mod_to_equations; lia).
  assert (Hb0 : (0 <= b mod 16 < 16)%Z) by (Z.div_mod_to_equations; lia).
  replace n with
    ((((((1 * 16 + r / 16) * 16 + r mod 16) * 16 + g / 16) * 16 + g mod 16) * 16
      + b / 16) * 16 + b mod 16)%Z
    by (unfold n; Z.div_mod_to_equations; lia).
  rewrite !digits_of_push by lia.
  change (digits_of 19 16 1 "") with "1".
  cbn [append Str.drop Str.toUpperCase Str.map].
  rewrite !upper_digit_char by assumption.
  reflexivity.
Qed.

(** The colour of an rgb text with three bytes. *)
Lemma parseColor_rgbText (r g b : Z) :
  (0 <= r < 256)%Z -> (0 <= g < 256)%Z -> (0 <= b < 256)%Z ->
  parseColor (Spec.rgbText r g b)
  = {| hex := Some (Spec.hexByte r ++ Spec.hexByte g ++ Spec.hexByte b);
       alpha := one |}.
Proof.
  intros Hr Hg Hb. unfold parseColor.
  assert (Hguard : negb (Str.truthy (Spec.rgbText r g b))
                   || String.eqb (Spec.rgbText r g b) "transparent"
                   || Str.startsWith (Spec.rgbText r g b) "rgba(0, 0, 0, 0)" = false)
    by reflexivity.
  assert (Hhash : Str.startsWith (Spec.rgbText r g b) "#" = false) by reflexivity.
  rewrite Hguard, Hhash.
  rewrite match_all_rgbText by lia.
  rewrite !parseInt_numeral.
  change (shl (Int 1) 24) with (Int 16777216).
  rewrite (shl_small r 16), (shl_small g 8) by lia.
  cbn [iadd int_toString].
  change (2 ^ 16)%Z with 65536%Z. change (2 ^ 8)%Z with 256%Z.
  rewrite hex_of_bytes by assumption. reflexivity.
Qed.

(** ** Soft edges *)

Lemma run_lit (p : string) (s : string) (c : Regex.caps) (k : Regex.cont) :
  Regex.run (Regex.lit p) (p ++ s) c k = k s c.
Proof.
  revert s. induction p as [| a p IH]; intros s; [reflexivity |].
  destruct p as [| b p].
  - cbn [Regex.lit append Regex.run Regex.chr]. rewrite Ascii.eqb_refl. reflexivity.
  - change (Regex.lit (String a (String b p)))
      with (Regex.Seq (Regex.chr a) (Regex.lit (String b p))).
    cbn [Regex.run Regex.chr]. change (String a (String b p) ++ s)
      with (String a (String b p ++ s)).
    cbv iota. rewrite Ascii.eqb_refl. apply IH.
Qed.

(** The match of the blur pattern on a blur of a whole number of
    pixels. *)
Lemma exec_blur (n : Z) :
  (0 <= n)%Z ->
  exists m,
    Regex.exec re_blur ("blur(" ++ Spec.px n ++ ")") = Some m
    /\ capture 1 m = Spec.numeral n.
Proof.
  intros Hn. unfold Regex.exec.
  assert (Hhere : exists m,
    Regex.exec_here re_blur 0 ("blur(" ++ Spec.px n ++ ")") = Some m
    /\ capture 1 m = Spec.numeral n).
  { unfold Regex.exec_here, re_blur.
    change (Regex.run (Regex.Seq ?a ?b) ?s ?c ?k)
      with (Regex.run a s c (fun s' c' => Regex.run b s' c' k)).
    rewrite run_lit. unfold Spec.px. rewrite append_assoc.
    change ("px" ++ ")") with "px)".
    change (Regex.run (Regex.Seq ?a ?b) ?s ?c ?k)
      with (Regex.run a s c (fun s' c' => Regex.run b s' c' k)).
    change (Regex.run (Regex.Grp 1 ?r) ?s ?c ?k)
      with (Regex.run r s c
              (fun s' c' => k s' ((1, Str.take (String.length s - String.length s') s) :: c'))).
    unfold Regex.plus, Regex.digit_or_dot.
    rewrite (run_class Spec.numeric 1 (Spec.numeral n ++ "px)") [] _
               ("", [(1, Spec.numeral n)])).
    - eexists. split; [reflexivity |]. unfold capture. cbn [Regex.groups Regex.group Nat.eqb].
      reflexivity.
    - rewrite (spanLength_app Spec.numeric (Spec.numeral n) "px)");
        [apply numeral_length_pos; exact Hn | apply numeral_numeric; exact Hn | reflexivity].
    - rewrite (spanLength_app Spec.numeric (Spec.numeral n) "px)");
        [| apply numeral_numeric; exact Hn | reflexivity].
      rewrite drop_app. cbv beta. rewrite (run_lit "px)" "").
      unfold Regex.done. rewrite length_append, Nat.add_sub, take_app. reflexivity. }
  destruct Hhere as [m [Hm Hcap]]. exists m. split; [| exact Hcap].
  destruct ("blur(" ++ Spec.px n ++ ")"); cbn [Regex.exec_from]; rewrite Hm; reflexivity.
Qed.

(** ** Replacing the runs of a class *)

Lemma length_drop (n : nat) (s : string) :
  String.length (Str.drop n s) = String.length s - n.
Proof.
  revert s. induction n as [| n IH]; intros s; [cbn; lia |].
  destruct s as [| a s]; [reflexivity | apply IH].
Qed.

Lemma replace_class_step (p : ascii -> bool) (lo : nat) (by_ : string) (fuel : nat)
    (a : ascii) (s : string) :
  1 <= lo ->
  Regex.replace_from (S fuel) (Regex.Rep true lo None (Regex.Chr p)) by_ (String a s)
  = if Nat.leb lo (Spec.spanLength p (String a s))
    then by_ ++ Regex.replace_from fuel (Regex.Rep true lo None (Regex.Chr p)) by_
                  (Str.drop (Spec.spanLength p (String a s)) (String a s))
    else String a (Regex.replace_from fuel (Regex.Rep true lo None (Regex.Chr p)) by_ s).
Proof.
  intros Hlo. cbn [Regex.replace_from].
  destruct (Nat.leb lo (Spec.spanLength p (String a s))) eqn:Hspan.
  - apply Nat.leb_le in Hspan.
    rewrite (run_class p lo (String a s) [] Regex.done
               (Str.drop (Spec.spanLength p (String a s)) (String a s), []) Hspan eq_refl).
    assert (Hshort : Nat.eqb (String.length (Str.drop (Spec.spanLength p (String a s))
                                               (String a s)))
                       (String.length (String a s)) = false).
    { apply Nat.eqb_neq. rewrite length_drop. cbn [String.length]. lia. }
    rewrite Hshort. reflexivity.
  - apply Nat.leb_gt in Hspan. rewrite run_class_short by exact Hspan. reflexivity.
Qed.

Lemma every_app (q : ascii -> bool) (u v : string) :
  Spec.every q (u ++ v) = Spec.every q u && Spec.every q v.
Proof.
  induction u as [| a u IH]; [reflexivity |].
  cbn [append Spec.every]. rewrite IH, andb_assoc. reflexivity.
Qed.

Lemma every_drop (q : ascii -> bool) (n : nat) (s : string) :
  Spec.every q s = true -> Spec.every q (Str.drop n s) = true.
Proof.
  revert s. induction n as [| n IH]; intros s Hs; [destruct s; exact Hs |].
  destruct s as [| a s]; [reflexivity |].
  cbn [Spec.every] in Hs. apply andb_true_iff in Hs. apply IH, Hs.
Qed.

(** Replacing keeps a property of the characters that the replacement
    has. *)
Lemma replace_class_every (p q : ascii -> bool) (lo : nat) (by_ : string) :
  1 <= lo -> Spec.every q by_ = true ->
  forall fuel s,
    Spec.every q s = true ->
    Spec.every q (Regex.replace_from fuel (Regex.Rep true lo None (Regex.Chr p)) by_ s)
    = true.
Proof.
  intros Hlo Hby. induction fuel as [| fuel IH]; intros s Hs; [exact Hs |].
  destruct s as [| a s]; [reflexivity |].
  rewrite replace_class_step by exact Hlo.
  destruct (Nat.leb lo (Spec.spanLength p (String a s))).
  - rewrite every_app, Hby. apply IH. apply every_drop. exact Hs.
  - cbn [Spec.every] in *. apply andb_true_iff in Hs. destruct Hs as [Ha Hs].
    rewrite Ha. apply IH. exact Hs.
Qed.

(** Replacing the runs of a class by something outside it leaves
    nothing of the class. *)
Lemma replace_class_clears (p : ascii -> bool) (by_ : string) :
  Spec.every (fun c => negb (p c)) by_ = true ->
  forall fuel s,
    String.length s < fuel ->
    Spec.every (fun c => negb (p c))
      (Regex.replace_from fuel (Regex.Rep true 1 None (Regex.Chr p)) by_ s) = true.
Proof.
  intros Hby. induction fuel as [| fuel IH]; intros s Hfuel; [lia |].
  destruct s as [| a s]; [reflexivity |].
  rewrite replace_class_step by apply Nat.le_refl.
  destruct (Nat.leb 1 (Spec.spanLength p (String a s))) eqn:Hspan.
  - rewrite every_app, Hby. apply IH. rewrite length_drop. cbn [String.length] in *.
    apply Nat.leb_le in Hspan. lia.
  - cbn [Spec.every]. cbn [Spec.spanLength] in Hspan.
    destruct (p a); [discriminate |]. cbn [negb andb]. apply IH.
    cbn [String.length] in Hfuel. lia.
Qed.

(** ** White space in a run of text *)

Lemma stopsAt_drop_span (p : ascii -> bool) (s : string) :
  Spec.stopsAt p (Str.drop (Spec.spanLength p s) s) = true.
Proof.
  induction s as [| a s IH]; [reflexivity |].
  cbn [Spec.spanLength]. destruct (p a) eqn:Hp; [exact IH |].
  cbn [Str.drop Spec.stopsAt]. rewrite Hp. reflexivity.
Qed.

(** After the second replacement no two white-space characters are next
    to each other. *)
Lemma replace_spaces_spacedOnce :
  forall fuel s prev,
    String.length s < fuel ->
    (prev = true -> Spec.stopsAt Str.is_space s = true) ->
    Spec.spacedOnce prev (Regex.replace_from fuel re_spaces " " s) = true.
Proof.
  unfold re_spaces, Regex.space.
  induction fuel as [| fuel IH]; intros s prev Hfuel Hprev; [lia |].
  destruct s as [| a s]; [reflexivity |].
  rewrite replace_class_step by lia.
  destruct (Nat.leb 2 (Spec.spanLength Str.is_space (String a s))) eqn:Hspan.
  - apply Nat.leb_le in Hspan. cbn [append Spec.spacedOnce].
    assert (Ha : Str.is_space a = true).
    { cbn [Spec.spanLength] in Hspan. destruct (Str.is_space a); [reflexivity | lia]. }
    assert (Hfalse : prev = false).
    { destruct prev; [| reflexivity]. specialize (Hprev eq_refl).
      cbn [Spec.stopsAt] in Hprev. rewrite Ha in Hprev. discriminate. }
    rewrite Hfalse. cbn [andb negb].
    change (Str.is_space " ") with true.
    apply IH.
    + rewrite length_drop. cbn [String.length] in *. lia.
    + intros _. apply stopsAt_drop_span.
  - apply Nat.leb_gt in Hspan. cbn [Spec.spacedOnce].
    assert (Hhead : negb (prev && Str.is_space a) = true).
    { destruct prev; [| reflexivity]. specialize (Hprev eq_refl).
      cbn [Spec.stopsAt] in Hprev. cbn [andb]. exact Hprev. }
    rewrite Hhead. cbn [andb]. apply IH.
    + cbn [String.length] in Hfuel. lia.
    + intros Ha. cbn [Spec.spanLength] in Hspan. rewrite Ha in Hspan.
      destruct s as [| b s]; [reflexivity |].
      cbn [Spec.spanLength Spec.stopsAt] in *.
      destruct (Str.is_space b); [lia | reflexivity].
Qed.

Lemma spacedOnce_weaken (b : bool) (s : string) :
  Spec.spacedOnce b s = true -> Spec.spacedOnce false s = true.
Proof.
  destruct s as [| a s]; [reflexivity |]. cbn [Spec.spacedOnce].
  intros H. apply andb_true_iff in H. destruct H as [_ H]. exact H.
Qed.

Lemma trimStart_spacedOnce (s : string) :
  forall b, Spec.spacedOnce b s = true -> Spec.spacedOnce false (Str.trimStart s) = true.
Proof.
  induction s as [| a s IH]; intros b H; [reflexivity |].
  cbn [Str.trimStart]. destruct (Str.is_space a) eqn:Ha.
  - cbn [Spec.spacedOnce] in H. apply andb_true_iff in H. destruct H as [_ H].
    apply (IH _ H).
  - apply (spacedOnce_weaken b). exact H.
Qed.

Lemma trimStart_every (q : ascii -> bool) (s : string) :
  Spec.every q s = true -> Spec.every q (Str.trimStart s) = true.
Proof.
  induction s as [| a s IH]; intros H; [reflexivity |].
  cbn [Str.trimStart]. destruct (Str.is_space a); [| exact H].
  cbn [Spec.every] in H. apply andb_true_iff in H. apply IH, H.
Qed.

Lemma rev_onto_every (q : ascii -> bool) (s : string) :
  forall acc,
    Spec.every q (Str.rev_onto s acc) = Spec.every q s && Spec.every q acc.
Proof.
  induction s as [| a s IH]; intros acc; [reflexivity |].
  cbn [Str.rev_onto Spec.every]. rewrite IH. cbn [Spec.every].
  destruct (q a), (Spec.every q s); reflexivity.
Qed.

Lemma rev_onto_spacedOnce (s : string) :
  forall acc,
    Spec.spacedOnce (negb (Spec.stopsAt Str.is_space acc)) s = true ->
    Spec.spacedOnce false acc = true ->
    Spec.spacedOnce false (Str.rev_onto s acc) = true.
Proof.
  induction s as [| a s IH]; intros acc Hs Hacc; [exact Hacc |].
  cbn [Str.rev_onto]. cbn [Spec.spacedOnce] in Hs.
  apply andb_true_iff in Hs. destruct Hs as [Hhead Hs].
  apply IH.
  - cbn [Spec.stopsAt]. rewrite negb_involutive. exact Hs.
  - cbn [Spec.spacedOnce andb negb].
    destruct acc as [| b acc]; [reflexivity |].
    cbn [Spec.spacedOnce Spec.stopsAt andb negb] in *.
    rewrite negb_involutive in Hhead.
    destruct (Str.is_space a); [| exact Hacc].
    cbn [andb]. destruct (Str.is_space b); [discriminate | exact Hacc].
Qed.

Lemma rev_spacedOnce (s : string) :
  Spec.spacedOnce false s = true -> Spec.spacedOnce false (Str.rev s) = true.
Proof. intros H. apply rev_onto_spacedOnce; [exact H | reflexivity]. Qed.

Lemma rev_every (q : ascii -> bool) (s : string) :
  Spec.every q s = true -> Spec.every q (Str.rev s) = true.
Proof. intros H. unfold Str.rev. rewrite rev_onto_every, H. reflexivity. Qed.

Lemma map_every (q : ascii -> bool) (f : ascii -> ascii) (s : string) :
  (forall c, q (f c) = q c) ->
  Spec.every q (Str.map f s) = Spec.every q s.
Proof.
  intros Hf. induction s as [| a s IH]; [reflexivity |].
  cbn [Str.map Spec.every]. rewrite Hf, IH. reflexivity.
Qed.

Lemma map_spacedOnce (f : ascii -> ascii) (s : string) :
  (forall c, Str.is_space (f c) = Str.is_space c) ->
  forall b, Spec.spacedOnce b (Str.map f s) = Spec.spacedOnce b s.
Proof.
  intros Hf. induction s as [| a s IH]; intros b; [reflexivity |].
  cbn [Str.map Spec.spacedOnce]. rewrite Hf, IH. reflexivity.
Qed.

Lemma case_keeps_space (c : ascii) :
  Str.is_space (Str.upper_char c) = Str.is_space c
  /\ Str.is_space (Str.lower_char c) = Str.is_space c
  /\ Spec.is_break (Str.upper_char c) = Spec.is_break c
  /\ Spec.is_break (Str.lower_char c) = Spec.is_break c.
Proof.
  destruct c as [[|] [|] [|] [|] [|] [|] [|] [|]]; repeat split; reflexivity.
Qed.

(** The text of a child after the two replacements of line 232. *)
Lemma sanitised_tidy (v : string) :
  Spec.tidy
    (Regex.replace_all re_spaces " " (Regex.replace_all re_line_breaks " " v)) = true.
Proof.
  unfold Spec.tidy, Regex.replace_all. apply andb_true_iff. split.
  - unfold re_spaces, Regex.space.
    apply replace_class_every; [lia | reflexivity |].
    apply (replace_class_clears Spec.is_break " " eq_refl). lia.
  - apply replace_spaces_spacedOnce; [lia | discriminate].
Qed.

Lemma trimStart_tidy (s : string) : Spec.tidy s = true -> Spec.tidy (Str.trimStart s) = true.
Proof.
  unfold Spec.tidy. rewrite !andb_true_iff. intros [He Hs]. split.
  - apply trimStart_every. exact He.
  - apply (trimStart_spacedOnce s false). exact Hs.
Qed.

Lemma rev_tidy (s : string) : Spec.tidy s = true -> Spec.tidy (Str.rev s) = true.
Proof.
  unfold Spec.tidy. rewrite !andb_true_iff. intros [He Hs]. split.
  - apply rev_every. exact He.
  - apply rev_spacedOnce. exact Hs.
Qed.

Lemma trimEnd_tidy (s : string) : Spec.tidy s = true -> Spec.tidy (Str.trimEnd s) = true.
Proof. intros H. unfold Str.trimEnd. apply rev_tidy, trimStart_tidy, rev_tidy, H. Qed.

Lemma toUpperCase_tidy (s : string) : Spec.tidy (Str.toUpperCase s) = Spec.tidy s.
Proof.
  unfold Spec.tidy, Str.toUpperCase. rewrite map_every, map_spacedOnce; [reflexivity | |].
  - intros c. apply (case_keeps_space c).
  - intros c. f_equal. apply (case_keeps_space c).
Qed.

Lemma toLowerCase_tidy (s : string) : Spec.tidy (Str.toLowerCase s) = Spec.tidy s.
Proof.
  unfold Spec.tidy, Str.toLowerCase. rewrite map_every, map_spacedOnce; [reflexivity | |].
  - intros c. apply (case_keeps_space c).
  - intros c. f_equal. apply (case_keeps_space c).
Qed.

Lemma textRun_tidy (style : ComputedStyle) (config : LayoutConfig) (isList : bool)
    (count : nat) (child : Node) (index : nat) :
  Forall (fun part => text part <> "" /\ Spec.tidy (text part) = true)
    (textRun style config isList count child index).
Proof.
  unfold textRun.
  set (v := match child with Text nodeValue => nodeValue | _ => textContent child end).
  set (nodeStyle := match child with Elem info _ => Dom.style info | _ => style end).
  pose proof (sanitised_tidy v) as H0.
  set (t0 := Regex.replace_all re_spaces " " (Regex.replace_all re_line_breaks " " v)) in *.
  set (t1 := if Nat.eqb index 0 && negb isList then Str.trimStart t0
             else if Nat.eqb index 0 then Str.trimStart t0 else t0).
  assert (H1 : Spec.tidy t1 = true).
  { unfold t1. destruct (Nat.eqb index 0 && negb isList); [apply trimStart_tidy, H0 |].
    destruct (Nat.eqb index 0); [apply trimStart_tidy, H0 | exact H0]. }
  set (t2 := if Nat.eqb index (count - 1) then Str.trimEnd t1 else t1).
  assert (H2 : Spec.tidy t2 = true).
  { unfold t2. destruct (Nat.eqb index (count - 1)); [apply trimEnd_tidy, H1 | exact H1]. }
  set (t3 := if String.eqb (textTransform nodeStyle) "uppercase"
             then Str.toUpperCase t2 else t2).
  assert (H3 : Spec.tidy t3 = true).
  { unfold t3. destruct (String.eqb (textTransform nodeStyle) "uppercase");
      [rewrite toUpperCase_tidy |]; exact H2. }
  set (t4 := if String.eqb (textTransform nodeStyle) "lowercase"
             then Str.toLowerCase t3 else t3).
  assert (H4 : Spec.tidy t4 = true).
  { unfold t4. destruct (String.eqb (textTransform nodeStyle) "lowercase");
      [rewrite toLowerCase_tidy |]; exact H3. }
  clearbody t4. destruct t4 as [| a t4]; cbn [String.length Nat.ltb Nat.leb].
  - constructor.
  - constructor; [| constructor]. cbn [text]. split; [discriminate | exact H4].
Qed.

(** X19.  Every run of text that a text container hands on, the bullet
    of a list item included, is not empty, holds no line feed, carriage
    return or tab, and holds no two white-space characters in a row,
    whatever the text and the text transform of the children. *)
Theorem text_runs_are_tidy (style : ComputedStyle) (config : LayoutConfig)
    (kids : list Node) :
  Forall (fun part => text part <> "" /\ Spec.tidy (text part) = true)
    (textPartsOf style config kids).
Proof.
  unfold textPartsOf. apply Forall_app. split.
  - destruct (String.eqb (display style) "list-item"); [| constructor].
    constructor; [| constructor]. cbn [text]. split; [discriminate | reflexivity].
  - assert (Hall : forall (f : Node -> nat -> list TextPart),
              (forall k i, Forall (fun part => text part <> "" /\ Spec.tidy (text part) = true)
                             (f k i)) ->
              forall l i, Forall (fun part => text part <> "" /\ Spec.tidy (text part) = true)
                            (List.concat (mapi_from f i l))).
    { intros f Hf l. induction l as [| k l IH]; intros i; [constructor |].
      cbn [mapi_from List.concat]. apply Forall_app. split; [apply Hf | apply IH]. }
    apply Hall. intros k i. apply textRun_tidy.
Qed.

(** The first family of a list of font families, without its quotes. *)
Lemma lacks_every (c : ascii) (s : string) :
  Spec.lacks c s = Spec.every (fun a => negb (Ascii.eqb a c)) s.
Proof. induction s as [| a s IH]; [reflexivity |]. cbn. rewrite IH. reflexivity. Qed.

Lemma first_piece_lacks (sep : ascii) (s : string) :
  Spec.lacks sep (first_or_empty (Str.split s sep)) = true.
Proof.
  destruct (Spec.lacks sep s) eqn:Hs.
  - rewrite (split_lacks sep s Hs). exact Hs.
  - destruct (lacks_decompose sep s Hs) as [u [v [-> Hu]]].
    rewrite (split_at sep u v Hu). exact Hu.
Qed.

Lemma replace_chr_step (p : ascii -> bool) (by_ : string) (fuel : nat) (a : ascii)
    (s : string) :
  Regex.replace_from (S fuel) (Regex.Chr p) by_ (String a s)
  = if p a then by_ ++ Regex.replace_from fuel (Regex.Chr p) by_ s
    else String a (Regex.replace_from fuel (Regex.Chr p) by_ s).
Proof.
  cbn [Regex.replace_from Regex.run]. destruct (p a); [| reflexivity].
  unfold Regex.done.
  assert (Hlen : Nat.eqb (String.length s) (String.length (String a s)) = false).
  { apply Nat.eqb_neq. cbn [String.length]. lia. }
  rewrite Hlen. reflexivity.
Qed.

Lemma remove_chr_every (p q : ascii -> bool) :
  forall fuel s,
    Spec.every q s = true ->
    Spec.every q (Regex.replace_from fuel (Regex.Chr p) "" s) = true.
Proof.
  induction fuel as [| fuel IH]; intros s Hs; [exact Hs |].
  destruct s as [| a s]; [reflexivity |].
  rewrite replace_chr_step. cbn [Spec.every] in Hs.
  apply andb_true_iff in Hs. destruct Hs as [Ha Hs].
  destruct (p a); [apply IH, Hs |].
  cbn [Spec.every]. rewrite Ha. apply IH, Hs.
Qed.

Lemma remove_chr_clears (p : ascii -> bool) :
  forall fuel s,
    String.length s < fuel ->
    Spec.every (fun c => negb (p c)) (Regex.replace_from fuel (Regex.Chr p) "" s) = true.
Proof.
  induction fuel as [| fuel IH]; intros s Hfuel; [lia |].
  destruct s as [| a s]; [reflexivity |].
  rewrite replace_chr_step. cbn [String.length] in Hfuel.
  destruct (p a) eqn:Hp; [apply IH; lia |].
  cbn [Spec.every]. rewrite Hp. apply IH. lia.
Qed.

(** ** What the helpers of utils.js make of computed values *)

(** X12.  [parseColor] on the computed form of an opaque colour: the
    text rgb(r, g, b) with three bytes parses to the six hexadecimal
    digits RRGGBB, in capitals and with leading zeros, and to the
    opacity 1. *)
Theorem parseColor_of_rgb_text (r g b : Z) :
  (0 <= r < 256)%Z -> (0 <= g < 256)%Z -> (0 <= b < 256)%Z ->
  parseColor (Spec.rgbText r g b)
  = {| hex := Some (Spec.hexByte r ++ Spec.hexByte g ++ Spec.hexByte b);
       alpha := one |}.
Proof. apply parseColor_rgbText. Qed.

(** X13.  [parseColor] on a hash colour of three characters: every
    character is doubled and the result is in capitals with the opacity
    1, so that the short form parses to what its long form parses to. *)
Theorem parseColor_hex_shorthand (a b c : ascii) :
  parseColor (String "#" (String a (String b (String c ""))))
  = {| hex := Some (Str.toUpperCase
                      (String a (String a (String b (String b (String c (String c "")))))));
       alpha := one |}
  /\ parseColor (String "#" (String a (String b (String c ""))))
     = parseColor
         (String "#" (String a (String a (String b (String b (String c (String c ""))))))).
Proof. split; reflexivity. Qed.

Lemma or_of_Z (z : Z) : or (of_Z z) zero = of_Z z.
Proof.
  unfold or, of_Z, truthy. destruct (Qeq_bool (inject_Z z) 0) eqn:H; [| reflexivity].
  cbn [negb]. apply Qeq_bool_eq in H. unfold Qeq in H. cbn in H.
  assert (z = 0%Z) by lia. subst z. reflexivity.
Qed.

(** X14.  [getPadding] on computed paddings, which are lengths in
    pixels: the four entries, in the order top, right, bottom, left, are
    the paddings in inches (a 96th of the pixels) times the scale. *)
Theorem getPadding_of_pixel_lengths (style : ComputedStyle) (t r b l : Z) (s : Q) :
  paddingTop style = Spec.px t ->
  paddingRight style = Spec.px r ->
  paddingBottom style = Spec.px b ->
  paddingLeft style = Spec.px l ->
  exists pt pr pb pl : Q,
    getPadding style (Fin s) = [Fin pt; Fin pr; Fin pb; Fin pl]
    /\ (pt == inject_Z t / 96 * s /\ pr == inject_Z r / 96 * s
        /\ pb == inject_Z b / 96 * s /\ pl == inject_Z l / 96 * s)%Q.
Proof.
  intros Ht Hr Hb Hl. unfold getPadding.
  rewrite Ht, Hr, Hb, Hl, !parseFloat_px, !or_of_Z.
  change pxToInch with (Fin (1 # 96)%Q). unfold of_Z.
  destruct (mul_Fin (inject_Z t) (1 # 96)) as [t1 [-> Ht1]].
  destruct (mul_Fin t1 s) as [pt [-> Hpt]].
  destruct (mul_Fin (inject_Z r) (1 # 96)) as [r1 [-> Hr1]].
  destruct (mul_Fin r1 s) as [pr [-> Hpr]].
  destruct (mul_Fin (inject_Z b) (1 # 96)) as [b1 [-> Hb1]].
  destruct (mul_Fin b1 s) as [pb [-> Hpb]].
  destruct (mul_Fin (inject_Z l) (1 # 96)) as [l1 [-> Hl1]].
  destruct (mul_Fin l1 s) as [pl [-> Hpl]].
  exists pt, pr, pb, pl. split; [reflexivity |].
  rewrite Hpt, Ht1, Hpr, Hr1, Hpb, Hb1, Hpl, Hl1.
  repeat split; field.
Qed.

(** X15.  [getSoftEdges] on a filter that is a blur of a whole number of
    pixels: the soft edge is three quarters of the pixels, times the
    scale. *)
Theorem getSoftEdges_of_blur (n : Z) (s : Q) :
  (0 <= n)%Z ->
  exists q : Q,
    getSoftEdges ("blur(" ++ Spec.px n ++ ")") (Fin s) = Some (Fin q)
    /\ (q == inject_Z n * (3 # 4) * s)%Q.
Proof.
  intros Hn. unfold getSoftEdges.
  assert (Hguard : negb (Str.truthy ("blur(" ++ Spec.px n ++ ")"))
                   || String.eqb ("blur(" ++ Spec.px n ++ ")") "none" = false)
    by reflexivity.
  rewrite Hguard. destruct (exec_blur n Hn) as [m [-> ->]].
  rewrite <- (append_empty_r (Spec.numeral n)).
  rewrite (parseFloat_numeral_nonneg n "" Hn eq_refl).
  unfold three_quarters, of_Z.
  destruct (mul_Fin (inject_Z n) (3 # 4)) as [q1 [-> Hq1]].
  destruct (mul_Fin q1 s) as [q [-> Hq]].
  exists q. split; [reflexivity |]. rewrite Hq, Hq1. reflexivity.
Qed.

Lemma numeral_not_auto (z : Z) : String.eqb (Spec.numeral z) "auto" = false.
Proof.
  destruct (Z_lt_le_dec z 0) as [Hneg | Hz].
  - rewrite (numeral_negative z Hneg). reflexivity.
  - destruct (numeral_head z Hz) as [d [s [Hd ->]]].
    assert (Hcase : (d = 0 \/ d = 1 \/ d = 2 \/ d = 3 \/ d = 4 \/ d = 5 \/ d = 6 \/ d = 7
                     \/ d = 8 \/ d = 9)%Z) by lia.
    repeat (destruct Hcase as [-> | Hcase]; [reflexivity |]). subst. reflexivity.
Qed.

(** X16.  The zIndex of an element whose computed z-index is an integer
    is that integer, negative ones included (line 115). *)
Theorem zIndexOf_reads_integer (style : ComputedStyle) (z : Z) :
  zIndex style = Spec.numeral z -> zIndexOf style = Int z.
Proof.
  intros H. unfold zIndexOf. rewrite H, numeral_not_auto. apply parseInt_numeral.
Qed.

(** X17.  [getTextStyle] on computed values: an rgb colour of three
    bytes becomes the text colour RRGGBB, a font size of n pixels becomes
    three quarters of n times the scale, and the run is bold exactly when
    the numeric font weight is 600 or more. *)
Theorem getTextStyle_of_computed_values (style : ComputedStyle) (r g b n w : Z) (s : Q) :
  (0 <= r < 256)%Z -> (0 <= g < 256)%Z -> (0 <= b < 256)%Z ->
  color style = Spec.rgbText r g b ->
  fontSize style = Spec.px n ->
  fontWeight style = Spec.numeral w ->
  ts_color (getTextStyle style (Fin s)) = Spec.hexByte r ++ Spec.hexByte g ++ Spec.hexByte b
  /\ (exists q : Q,
        ts_fontSize (getTextStyle style (Fin s)) = Fin q
        /\ (q == inject_Z n * (3 # 4) * s)%Q)
  /\ bold (getTextStyle style (Fin s)) = (600 <=? w)%Z.
Proof.
  intros Hr Hg Hb Hcolor Hsize Hweight. unfold getTextStyle.
  cbn [ts_color ts_fontSize bold].
  rewrite Hcolor, Hsize, Hweight, parseColor_rgbText, parseFloat_px, parseInt_numeral
    by assumption.
  cbn [alpha]. change (eq one zero) with false. cbn [andb].
  split; [reflexivity |]. split; [| reflexivity].
  unfold three_quarters, of_Z.
  destruct (mul_Fin (inject_Z n) (3 # 4)) as [q1 [-> Hq1]].
  destruct (mul_Fin q1 s) as [q [-> Hq]].
  exists q. split; [reflexivity |]. rewrite Hq, Hq1. reflexivity.
Qed.

(** X18.  The font face that [getTextStyle] hands on holds no comma and
    no quote, single or double, whatever the computed font family. *)
Theorem fontFace_has_no_quote_or_comma (style : ComputedStyle) (scale : number) :
  Spec.every
    (fun c => negb (Ascii.eqb c "'" || Ascii.eqb c (ascii_of_nat 34) || Ascii.eqb c ","))
    (fontFace (getTextStyle style scale)) = true.
Proof.
  unfold getTextStyle. cbn [fontFace]. unfold Regex.replace_all, re_quote.
  set (first := first_or_empty (Str.split (fontFamily style) ",")).
  pose proof (first_piece_lacks "," (fontFamily style)) as Hcomma.
  fold first in Hcomma. rewrite lacks_every in Hcomma.
  set (quote := fun c => Ascii.eqb c "'" || Ascii.eqb c (ascii_of_nat 34)).
  pose proof (remove_chr_clears quote (S (String.length first)) first ltac:(lia)) as H1.
  pose proof (remove_chr_every quote _ (S (String.length first)) first Hcomma) as H2.
  set (out := Regex.replace_from (S (String.length first)) (Regex.Chr quote) "" first) in *.
  clearbody out. clear - H1 H2. induction out as [| a out IH]; [reflexivity |].
  cbn [Spec.every] in *. apply andb_true_iff in H1, H2.
  destruct H1 as [Ha1 H1], H2 as [Ha2 H2]. rewrite (IH H1 H2), andb_true_r.
  unfold quote in Ha1. destruct (Ascii.eqb a "'" || Ascii.eqb a (ascii_of_nat 34));
    [discriminate |]. exact Ha2.
Qed.

Lemma mapi_from_app {A B : Type} (f : A -> nat -> B) (l1 l2 : list A) :
  forall i, mapi_from f i (l1 ++ l2) = (mapi_from f i l1 ++ mapi_from f (i + List.length l1) l2)%list.
Proof.
  induction l1 as [| a l1 IH]; intros i.
  - cbn [app mapi_from List.length]. rewrite Nat.add_0_r. reflexivity.
  - cbn [app mapi_from List.length]. rewrite IH. do 3 f_equal. lia.
Qed.

(** X20.  The loop over the child nodes of a text container reads a
    comment node like a text node: the runs of a container with a comment
    among its child nodes are those of the container with a text node of
    the same content in its place. *)
Theorem comments_are_rendered_as_text (style : ComputedStyle) (config : LayoutConfig)
    (before after : list Node) (v : string) :
  textPartsOf style config (before ++ Comment v :: after)
  = textPartsOf style config (before ++ Text v :: after).
Proof.
  unfold textPartsOf, mapi. f_equal. rewrite !mapi_from_app, !length_app.
  cbn [mapi_from List.length]. reflexivity.
Qed.

(** ** The colour of gradient text *)






(** ** The picture of a blurred background *)

Section Blur.

Context {LineOptions : Type}.
Variable getBorderInfo : ComputedStyle -> number -> BorderInfo LineOptions.
Variable fraction_toString : Q -> string.

(** X22.  The picture of a blurred background is the box of the element
    grown by the padding of the blur on every side: it has the centre of
    the box, and its width and height are those of the box plus twice the
    padding, which is three times the soft edge, in inches and scaled. *)
Theorem blurred_picture_is_centred (info : ElementInfo) (config : LayoutConfig)
    (z : intnum) (d : nat) (rotation : real) (payload : option TextPayload)
    (bx by_ bw bh e s : Q) :
  scale config = Fin s ->
  getSoftEdges (filter (style info)) (Fin s) = Some (Fin e) ->
  ~ (e == 0)%Q ->
  exists data (ix iy iw ih : Q) others,
    paintBackground getBorderInfo fraction_toString info config z d rotation
      {| box_x := Fin bx; box_y := Fin by_; box_w := Fin bw; box_h := Fin bh |} payload
    = imageItem z d data (Fin ix) (Fin iy) (Fin iw) (Fin ih) rotation :: others
    /\ (ix + iw / 2 == bx + bw / 2 /\ iy + ih / 2 == by_ + bh / 2
        /\ iw == bw + 2 * (3 * e / 96 * s) /\ ih == bh + 2 * (3 * e / 96 * s))%Q.
Proof.
  intros Hs Hsoft He. unfold paintBackground. rewrite Hs, Hsoft.
  assert (Hon : softEdgeOn (Some (Fin e)) = Some (Fin e)).
  { unfold softEdgeOn, truthy. destruct (Qeq_bool e 0) eqn:H0; [| reflexivity].
    apply Qeq_bool_eq in H0. contradiction. }
  rewrite Hon. cbv iota beta.
  unfold generateBlurredSVG. cbn [data padding box_x box_y box_w box_h].
  match goal with
  | |- context [present (Some (?prefix ++ ?x))] =>
      change (present (Some (prefix ++ x))) with (Some (prefix ++ x))
  end.
  rewrite PX_TO_INCH_value. unfold of_Z.
  destruct (mul_Fin e (inject_Z 3)) as [p0 [-> Hp0]].
  destruct (mul_Fin p0 (1 # 96)) as [p1 [-> Hp1]].
  destruct (mul_Fin p1 s) as [pad [-> Hpad]].
  destruct (sub_Fin bx pad) as [ix [-> Hix]].
  destruct (sub_Fin by_ pad) as [iy [-> Hiy]].
  destruct (mul_Fin pad (inject_Z 2)) as [pad2 [-> Hpad2]].
  destruct (add_Fin bw pad2) as [iw [-> Hiw]].
  destruct (add_Fin bh pad2) as [ih [-> Hih]].
  cbn [app]. eexists. exists ix, iy, iw, ih. eexists. split; [reflexivity |].
  assert (Epad : (pad == 3 * e / 96 * s)%Q).
  { rewrite Hpad, Hp1, Hp0. change (inject_Z 3) with 3%Q. field. }
  assert (Epad2 : (pad2 == 2 * pad)%Q).
  { rewrite Hpad2. change (inject_Z 2) with 2%Q. ring. }
  rewrite Hix, Hiy, Hiw, Hih, Epad2, <- Epad.
  repeat split; field.
Qed.

End Blur.

(** ** The radius that the engine reads *)

(** A length in px is read as its pixels, a percentage as its bare
    figure. *)
Lemma radiusOf_pixels (style : ComputedStyle) (n : Z) :
  borderRadius style = Spec.px n -> radiusOf style = of_Z n.
Proof. intros H. unfold radiusOf. rewrite H, parseFloat_px. apply or_of_Z. Qed.

Lemma radiusOf_percent (style : ComputedStyle) (n : Z) :
  (0 <= n)%Z -> borderRadius style = Spec.percent n -> radiusOf style = of_Z n.
Proof.
  intros Hn H. unfold radiusOf. rewrite H. unfold Spec.percent.
  rewrite (parseFloat_numeral_nonneg n "%" Hn eq_refl). apply or_of_Z.
Qed.

(** ** The fill of a shape, and the room for a bullet *)

Section Fill.

Context {LineOptions : Type}.
Variable getBorderInfo : ComputedStyle -> number -> BorderInfo LineOptions.

(** X23.  The fill of the shape of an element with an rgb background of
    three bytes: the colour RRGGBB, with a transparency of 100 times one
    minus the opacity of the element. *)
Theorem fill_of_rgb_background (info : ElementInfo) (config : LayoutConfig)
    (rotation : real) (b : Box) (r g bl : Z) (o : Q) :
  (0 <= r < 256)%Z -> (0 <= g < 256)%Z -> (0 <= bl < 256)%Z ->
  backgroundColor (style info) = Spec.rgbText r g bl ->
  parseFloat (opacity (style info)) = Fin o ->
  exists t : Q,
    opt_fill (shapeOptions getBorderInfo info config rotation b false)
    = Some (FillColor (Spec.hexByte r ++ Spec.hexByte g ++ Spec.hexByte bl) (Some (Fin t)))
    /\ (t == (1 - o) * 100)%Q.
Proof.
  intros Hr Hg Hb Hcolor Hopacity. unfold shapeOptions. cbn [opt_fill].
  rewrite Hcolor, Hopacity, parseColor_rgbText by assumption.
  cbn [alpha]. unfold hex_text, has_hex. cbn [hex].
  change (Str.truthy (Spec.hexByte r ++ Spec.hexByte g ++ Spec.hexByte bl)) with true.
  cbn [andb negb]. unfold one, of_Z.
  destruct (mul_Fin o (inject_Z 1)) as [a [-> Ha]].
  destruct (sub_Fin (inject_Z 1) a) as [d [-> Hd]].
  destruct (mul_Fin d (inject_Z 100)) as [t [-> Ht]].
  exists t. split; [reflexivity |]. rewrite Ht, Hd, Ha.
  change (inject_Z 1) with 1%Q. change (inject_Z 100) with 100%Q. ring.
Qed.

End Fill.

Lemma or_of_positive (n : Z) (other : number) :
  (0 < n)%Z -> or (of_Z n) other = of_Z n.
Proof.
  intros Hn. unfold or, of_Z, truthy.
  destruct (Qeq_bool (inject_Z n) 0) eqn:H; [| reflexivity].
  apply Qeq_bool_eq in H. unfold Qeq in H. cbn in H. lia.
Qed.

(** X24.  A text container that is a list item gets the bullet as its
    first run, and room for it: its box is widened to the left by one
    and a half times the font size, in inches and scaled, while its right
    edge, its top and its height stay. *)
Theorem list_item_gets_bullet_and_room (info : ElementInfo) (kids : list Node)
    (style : ComputedStyle) (config : LayoutConfig) (n : Z) (s bx bw : Q)
    (by_ bh : number) :
  display style = "list-item" ->
  isTextContainer (Elem info kids) = true ->
  fontSize style = Spec.px n ->
  (0 < n)%Z ->
  scale config = Fin s ->
  (exists colour size runs,
     textPartsOf style config kids
     = {| text := bullet; run_options := BulletRun colour size |} :: runs)
  /\ exists x' w' : Q,
       shiftedBox (Elem info kids) style config
         {| box_x := Fin bx; box_y := by_; box_w := Fin bw; box_h := bh |}
       = {| box_x := Fin x'; box_y := by_; box_w := Fin w'; box_h := bh |}
       /\ (x' + w' == bx + bw /\ w' == bw + inject_Z n * (3 # 2) / 96 * s)%Q.
Proof.
  intros Hdisplay Htext Hsize Hn Hs. split.
  - unfold textPartsOf. rewrite Hdisplay.
    change (String.eqb "list-item" "list-item") with true. cbv iota.
    eexists. eexists. eexists. reflexivity.
  - unfold shiftedBox, bulletShift. rewrite Htext, Hdisplay, Hsize, Hs, parseFloat_px.
    change (String.eqb "list-item" "list-item") with true. cbn [andb].
    rewrite (or_of_positive n _ Hn), PX_TO_INCH_value. unfold of_Z.
    cbn [box_x box_y box_w box_h].
    destruct (mul_Fin (inject_Z n) (1 # 96)) as [a [-> Ha]].
    destruct (mul_Fin a s) as [c [-> Hc]].
    destruct (mul_Fin c (3 # 2)) as [shift [-> Hshift]].
    destruct (sub_Fin bx shift) as [x' [-> Hx]].
    destruct (add_Fin bw shift) as [w' [-> Hw]].
    exists x', w'. split; [reflexivity |].
    rewrite Hx, Hw, Hshift, Hc, Ha. split; field.
Qed.

(** ** The walk does not read the queue *)

Section Engine_frame.

Context {LineOptions : Type}.
Variable getBorderInfo : ComputedStyle -> number -> BorderInfo LineOptions.
Variable generateCompositeBorderSVG : number -> number -> number -> Sides -> option string.
Variable getProcessedImage : string -> number -> number -> number -> option string.
Variable svgToPng : Node -> option string.
Variable fraction_toString : Q -> string.

Local Abbreviation createRenderItem' :=
  (createRenderItem getBorderInfo generateCompositeBorderSVG getProcessedImage
     svgToPng fraction_toString).
Local Abbreviation collect' :=
  (collect getBorderInfo generateCompositeBorderSVG getProcessedImage
     svgToPng fraction_toString).
Local Abbreviation collectChildren' :=
  (collectChildren getBorderInfo generateCompositeBorderSVG getProcessedImage
     svgToPng fraction_toString).

(** X25.  [collect] neither reads nor rearranges what is in the queue:
    on a queue that is not empty it does (and fails) as on the empty
    queue with the same counter, and what it adds comes after what was
    there. *)
Theorem collect_frames_the_queue (config : LayoutConfig) (node : Node) :
  forall (queue : list (RenderItem LineOptions)) (counter : nat),
    collect' config node {| renderQueue := queue; domOrderCounter := counter |}
    = Js.bind (collect' config node {| renderQueue := []; domOrderCounter := counter |})
        (Spec.onto queue).
Proof.
  induction node as [v | v | info kids IH] using Node_tree_ind; intros queue counter;
    rewrite !collect_unfold; cbn [renderQueue domOrderCounter].
  - reflexivity.
  - reflexivity.
  - assert (Hkids : forall l,
              Forall (fun node => forall queue counter,
                        collect' config node
                          {| renderQueue := queue; domOrderCounter := counter |}
                        = Js.bind (collect' config node
                                     {| renderQueue := []; domOrderCounter := counter |})
                            (Spec.onto queue)) l ->
              forall queue own counter,
                collectChildren' config l
                  {| renderQueue := (queue ++ own)%list; domOrderCounter := counter |}
                = Js.bind (collectChildren' config l
                             {| renderQueue := own; domOrderCounter := counter |})
                    (Spec.onto queue)).
    { clear. intros l Hl. induction Hl as [| k l Hk _ IHl]; intros queue own counter;
        cbn [collectChildren].
      - reflexivity.
      - destruct (is_element k); [| apply IHl].
        rewrite (Hk (queue ++ own)%list counter), (Hk own counter).
        destruct (collect' config k {| renderQueue := []; domOrderCounter := counter |})
          as [st |]; cbn [Js.bind Spec.onto]; [| reflexivity].
        rewrite <- app_assoc. apply IHl. }
    destruct (createRenderItem' (Elem info kids) config counter) as [[r |] |];
      cbn [Js.bind app]; try reflexivity.
    + destruct (stopRecursion r); [reflexivity |]. apply Hkids. exact IH.
    + rewrite <- (app_nil_r queue) at 1. apply Hkids. exact IH.
Qed.

End Engine_frame.

(** ** Colours with an alpha channel *)

(** X26.  [parseColor] on an rgba colour of three bytes that does not
    start with the transparent black of computed styles: the six
    hexadecimal digits RRGGBB, and as opacity what [parseFloat] reads in
    the text of the alpha channel. *)
Theorem parseColor_of_rgba_text (r g b : Z) (a : string) :
  (0 <= r < 256)%Z -> (0 <= g < 256)%Z -> (0 <= b < 256)%Z ->
  a <> "" -> Spec.every Spec.numeric a = true ->
  Str.startsWith (Spec.rgbaText r g b a) "rgba(0, 0, 0, 0)" = false ->
  parseColor (Spec.rgbaText r g b a)
  = {| hex := Some (Spec.hexByte r ++ Spec.hexByte g ++ Spec.hexByte b);
       alpha := parseFloat a |}.
Proof.
  intros Hr Hg Hb Ha Hnum Hstart. unfold parseColor. rewrite Hstart.
  assert (Hguard : negb (Str.truthy (Spec.rgbaText r g b a))
                   || String.eqb (Spec.rgbaText r g b a) "transparent" = false)
    by reflexivity.
  assert (Hhash : Str.startsWith (Spec.rgbaText r g b a) "#" = false) by reflexivity.
  rewrite Hguard, Hhash. cbn [orb].
  assert (Hall : Regex.match_all re_numbers (Spec.rgbaText r g b a)
                 = Some [Spec.numeral r; Spec.numeral g; Spec.numeral b; a]).
  { unfold Regex.match_all, Spec.rgbaText.
    change re_numbers with (Regex.Rep true 1 None (Regex.Chr Spec.numeric)).
    cbn [append String.length].
    change (String "r" (String "g" (String "b" (String "a" (String "(" ?x)))))
      with ("rgba(" ++ x).
    rewrite (match_all_class_step Spec.numeric 1 "rgba(" (Spec.numeral r)
               (", " ++ Spec.numeral g ++ ", " ++ Spec.numeral b ++ ", " ++ a ++ ")"));
      [| apply Nat.le_refl | apply numeral_length_pos; lia | reflexivity
       | apply numeral_numeric; lia | reflexivity].
    rewrite (match_all_class_step Spec.numeric 1 ", " (Spec.numeral g)
               (", " ++ Spec.numeral b ++ ", " ++ a ++ ")"));
      [| apply Nat.le_refl | apply numeral_length_pos; lia | reflexivity
       | apply numeral_numeric; lia | reflexivity].
    rewrite (match_all_class_step Spec.numeric 1 ", " (Spec.numeral b)
               (", " ++ a ++ ")"));
      [| apply Nat.le_refl | apply numeral_length_pos; lia | reflexivity
       | apply numeral_numeric; lia | reflexivity].
    rewrite (match_all_class_step Spec.numeric 1 ", " a ")");
      [| apply Nat.le_refl | destruct a; [congruence | cbn; lia] | reflexivity
       | exact Hnum | reflexivity].
    rewrite match_all_class_none; [reflexivity | apply Nat.le_refl | reflexivity]. }
  rewrite Hall, !parseInt_numeral.
  change (shl (Int 1) 24) with (Int 16777216).
  rewrite (shl_small r 16), (shl_small g 8) by lia.
  cbn [iadd int_toString].
  change (2 ^ 16)%Z with 65536%Z. change (2 ^ 8)%Z with 256%Z.
  rewrite hex_of_bytes by assumption. reflexivity.
Qed.

(** ** The further properties, on the sample trees *)

Lemma sort_idempotent_witness :
  sort (sort [Samples.picture 1 0; Samples.picture 0 2; Samples.picture 0 1])
  = sort [Samples.picture 1 0; Samples.picture 0 2; Samples.picture 0 1].
Proof.
  apply (sort_idempotent [Samples.picture 1 0; Samples.picture 0 2; Samples.picture 0 1]).
  repeat constructor; discriminate.
Defined.

Lemma createRenderItem_stamps_items_witness :
  exists r : Rendered unit,
    createRenderItem Samples.noBorder Samples.noBorderSVG Samples.noImage Samples.noPng
      Samples.noFraction (Elem Samples.pillInfo []) Samples.layout 2 = Ok (Some r)
    /\ Forall (Spec.ofNode (Int 0) 2) (items r).
Proof.
  destruct (createRenderItem Samples.noBorder Samples.noBorderSVG Samples.noImage
              Samples.noPng Samples.noFraction (Elem Samples.pillInfo []) Samples.layout 2)
    as [[r |] |] eqn:Hrun; [| lazy in Hrun; discriminate | lazy in Hrun; discriminate].
  exists r. split; [reflexivity |].
  apply (createRenderItem_stamps_items Samples.noBorder Samples.noBorderSVG
           Samples.noImage Samples.noPng Samples.noFraction Samples.pillInfo []
           Samples.layout 2 r Hrun).
Defined.

Lemma collect_numbers_in_document_order_witness :
  exists (st : Collected unit) new,
    collect Samples.noBorder Samples.noBorderSVG Samples.noImage Samples.noPng
      Samples.noFraction Samples.layout Samples.canvas
      {| renderQueue := []; domOrderCounter := 0 |} = Ok st
    /\ renderQueue st = new
    /\ 0 < domOrderCounter st
    /\ Forall (fun it => 0 <= item_domOrder it < domOrderCounter st) new
    /\ StronglySorted Spec.inDocumentOrder new.
Proof.
  destruct (collect Samples.noBorder Samples.noBorderSVG Samples.noImage Samples.noPng
              Samples.noFraction Samples.layout Samples.canvas
              {| renderQueue := []; domOrderCounter := 0 |})
    as [st |] eqn:Hrun; [| lazy in Hrun; discriminate].
  destruct (collect_numbers_in_document_order Samples.noBorder Samples.noBorderSVG
              Samples.noImage Samples.noPng Samples.noFraction Samples.layout
              Samples.canvas _ st Hrun) as [new H].
  exists st, new. split; [reflexivity | exact H].
Defined.

Lemma flat_queue_keeps_document_order_witness :
  exists st : Collected unit,
    collect Samples.noBorder Samples.noBorderSVG Samples.noImage Samples.noPng
      Samples.noFraction Samples.layout Samples.canvas
      {| renderQueue := []; domOrderCounter := 0 |} = Ok st
    /\ sort (renderQueue st) = renderQueue st.
Proof.
  destruct (collect Samples.noBorder Samples.noBorderSVG Samples.noImage Samples.noPng
              Samples.noFraction Samples.layout Samples.canvas
              {| renderQueue := []; domOrderCounter := 0 |})
    as [st |] eqn:Hrun; [| lazy in Hrun; discriminate].
  exists st. split; [reflexivity |].
  apply (flat_queue_keeps_document_order Samples.noBorder Samples.noBorderSVG
           Samples.noImage Samples.noPng Samples.noFraction Samples.layout
           Samples.canvas st 0 Hrun).
  lazy in Hrun. injection Hrun as <-. cbn [renderQueue].
  repeat constructor.
Defined.

Lemma composite_border_strips_witness :
  Forall2 (Spec.borderStrip Samples.ruled 1 1 4 2 1 (Int 0) 5)
    [Spec.atTop; Spec.atBottom]
    (createCompositeBorderItems (LineOptions := unit) Samples.ruled
       (Fin 1%Q) (Fin 1%Q) (Fin 4%Q) (Fin 2%Q) (Fin 1%Q) (Int 0) 5).
Proof.
  apply (composite_border_strips (L := unit) Samples.ruled 1 1 4 2 1 (Int 0) 5).
  repeat constructor; eexists; reflexivity.
Defined.

Lemma unpainted_element_leaves_no_item_witness :
  collect Samples.noBorder Samples.noBorderSVG Samples.noImage Samples.noPng
    Samples.noFraction Samples.layout Samples.wrapper
    {| renderQueue := []; domOrderCounter := 0 |}
  = collectChildren Samples.noBorder Samples.noBorderSVG Samples.noImage Samples.noPng
      Samples.noFraction Samples.layout [Samples.square]
      {| renderQueue := []; domOrderCounter := 1 |}.
Proof.
  apply (unpainted_element_leaves_no_item Samples.noBorder Samples.noBorderSVG
           Samples.noImage Samples.noPng Samples.noFraction Samples.wrapperInfo
           [Samples.square] Samples.layout
           {| renderQueue := []; domOrderCounter := 0 |} (Fin 0%R));
    try reflexivity.
  - left. reflexivity.
  - discriminate.
  - discriminate.
Defined.

Lemma picture_elements_are_leaves_witness :
  exists st : Collected unit,
    collect Samples.noBorder Samples.noBorderSVG Samples.noImage Samples.noPng
      Samples.noFraction Samples.layout Samples.photo
      {| renderQueue := []; domOrderCounter := 4 |} = Ok st
    /\ domOrderCounter st = 5.
Proof.
  destruct (collect Samples.noBorder Samples.noBorderSVG Samples.noImage Samples.noPng
              Samples.noFraction Samples.layout Samples.photo
              {| renderQueue := []; domOrderCounter := 4 |})
    as [st |] eqn:Hrun; [| lazy in Hrun; discriminate].
  exists st. split; [reflexivity |].
  apply (picture_elements_are_leaves Samples.noBorder Samples.noBorderSVG
           Samples.noImage Samples.noPng Samples.noFraction Samples.photoInfo []
           Samples.layout {| renderQueue := []; domOrderCounter := 4 |} st);
    [reflexivity | reflexivity | right; reflexivity | exact Hrun].
Defined.

Lemma text_container_yields_one_text_item_witness :
  exists (st : Collected unit) new z options,
    collect Samples.noBorder Samples.noBorderSVG Samples.noImage Samples.noPng
      Samples.noFraction Samples.layout Samples.paragraph
      {| renderQueue := []; domOrderCounter := 4 |} = Ok st
    /\ domOrderCounter st = 5
    /\ renderQueue st = new
    /\ List.filter Spec.isTextItem new
       = [TextItem z 4
            (textPartsOf Samples.plain Samples.layout [Text "Pune "; Samples.badge])
            options].
Proof.
  destruct (collect Samples.noBorder Samples.noBorderSVG Samples.noImage Samples.noPng
              Samples.noFraction Samples.layout Samples.paragraph
              {| renderQueue := []; domOrderCounter := 4 |})
    as [st |] eqn:Hrun; [| lazy in Hrun; discriminate].
  destruct (text_container_yields_one_text_item Samples.noBorder Samples.noBorderSVG
              Samples.noImage Samples.noPng Samples.noFraction
              (Samples.element "P" Samples.plain 0 0 200 50)
              [Text "Pune "; Samples.badge] Samples.layout
              {| renderQueue := []; domOrderCounter := 4 |} st)
    as [Hcount [new [z [options [Hqueue Htext]]]]];
    [reflexivity | reflexivity | reflexivity | reflexivity | reflexivity
    | lazy; discriminate | exact Hrun |].
  exists st, new, z, options.
  split; [reflexivity |]. split; [exact Hcount |]. split; [exact Hqueue | exact Htext].
Defined.

Lemma parseColor_of_rgb_text_witness :
  parseColor "rgb(255, 128, 0)" = {| hex := Some "FF8000"; alpha := one |}.
Proof.
  apply (parseColor_of_rgb_text 255 128 0); lia.
Defined.

Lemma getPadding_of_pixel_lengths_witness :
  exists pt pr pb pl : Q,
    getPadding Samples.heading (Fin 1%Q) = [Fin pt; Fin pr; Fin pb; Fin pl]
    /\ (pt == inject_Z 8 / 96 * 1 /\ pr == inject_Z 16 / 96 * 1
        /\ pb == inject_Z 8 / 96 * 1 /\ pl == inject_Z 16 / 96 * 1)%Q.
Proof.
  apply (getPadding_of_pixel_lengths Samples.heading 8 16 8 16 1); reflexivity.
Defined.

Lemma getSoftEdges_of_blur_witness :
  exists q : Q,
    getSoftEdges "blur(4px)" (Fin 1%Q) = Some (Fin q) /\ (q == inject_Z 4 * (3 # 4) * 1)%Q.
Proof.
  apply (getSoftEdges_of_blur 4 1). lia.
Defined.

Lemma zIndexOf_reads_integer_witness : zIndexOf Samples.heading = Int (-3).
Proof.
  apply (zIndexOf_reads_integer Samples.heading (-3)). reflexivity.
Defined.

Lemma getTextStyle_of_computed_values_witness :
  ts_color (getTextStyle Samples.heading (Fin 1%Q)) = "FF8000"
  /\ (exists q : Q,
        ts_fontSize (getTextStyle Samples.heading (Fin 1%Q)) = Fin q
        /\ (q == inject_Z 24 * (3 # 4) * 1)%Q)
  /\ bold (getTextStyle Samples.heading (Fin 1%Q)) = true.
Proof.
  apply (getTextStyle_of_computed_values Samples.heading 255 128 0 24 700 1);
    try lia; reflexivity.
Defined.


Lemma blurred_picture_is_centred_witness :
  exists data (ix iy iw ih : Q) (others : list (RenderItem unit)),
    paintBackground Samples.noBorder Samples.noFraction Samples.headingInfo
      {| rootX := zero; rootY := zero; scale := Fin 1%Q; offX := zero; offY := zero |}
      (Int 0) 0 (Fin 0%R)
      {| box_x := Fin 1%Q; box_y := Fin 1%Q; box_w := Fin 4%Q; box_h := Fin 2%Q |} None
    = imageItem (Int 0) 0 data (Fin ix) (Fin iy) (Fin iw) (Fin ih) (Fin 0%R) :: others
    /\ (ix + iw / 2 == 1 + 4 / 2 /\ iy + ih / 2 == 1 + 2 / 2
        /\ iw == 4 + 2 * (3 * 3 / 96 * 1) /\ ih == 2 + 2 * (3 * 3 / 96 * 1))%Q.
Proof.
  apply (blurred_picture_is_centred Samples.noBorder Samples.noFraction
           Samples.headingInfo
           {| rootX := zero; rootY := zero; scale := Fin 1%Q; offX := zero; offY := zero |}
           (Int 0) 0 (Fin 0%R) None 1 1 4 2 3 1);
    [reflexivity | reflexivity | discriminate].
Defined.

Lemma fill_of_rgb_background_witness :
  exists t : Q,
    opt_fill (shapeOptions Samples.noBorder Samples.pillInfo Samples.layout (Fin 0%R)
                (boxOf Samples.pillInfo Samples.layout) false)
    = Some (FillColor "008000" (Some (Fin t)))
    /\ (t == (1 - 1) * 100)%Q.
Proof.
  apply (fill_of_rgb_background Samples.noBorder Samples.pillInfo Samples.layout
           (Fin 0%R) (boxOf Samples.pillInfo Samples.layout) 0 128 0 1);
    try lia; reflexivity.
Defined.

Lemma list_item_gets_bullet_and_room_witness :
  (exists colour size runs,
     textPartsOf (Samples.styled "list-item" "visible" "1" Samples.transparent
                    Samples.black "0px")
       Samples.layout [Text "Mumbai"]
     = {| text := bullet; run_options := BulletRun colour size |} :: runs)
  /\ exists x' w' : Q,
       shiftedBox
         (Elem (Samples.element "LI"
                  (Samples.styled "list-item" "visible" "1" Samples.transparent
                     Samples.black "0px") 0 0 200 20)
            [Text "Mumbai"])
         (Samples.styled "list-item" "visible" "1" Samples.transparent Samples.black "0px")
         Samples.layout
         {| box_x := Fin 1%Q; box_y := zero; box_w := Fin 2%Q; box_h := one |}
       = {| box_x := Fin x'; box_y := zero; box_w := Fin w'; box_h := one |}
       /\ (x' + w' == 1 + 2 /\ w' == 2 + inject_Z 16 * (3 # 2) / 96 * 1)%Q.
Proof.
  apply (list_item_gets_bullet_and_room
           (Samples.element "LI"
              (Samples.styled "list-item" "visible" "1" Samples.transparent
                 Samples.black "0px") 0 0 200 20)
           [Text "Mumbai"]
           (Samples.styled "list-item" "visible" "1" Samples.transparent Samples.black "0px")
           Samples.layout 16 1 1 2 zero one);
    try lia; reflexivity.
Defined.

Lemma parseColor_of_rgba_text_witness :
  parseColor "rgba(0, 0, 0, 0.5)" = {| hex := Some "000000"; alpha := Fin (1 # 2)%Q |}.
Proof.
  apply (parseColor_of_rgba_text 0 0 0 "0.5"); try lia;
    [discriminate | reflexivity | reflexivity].
Defined.
